(** * stream-multi-model-switch: the model router, the response relays and
      the agent registry, embedded from the TypeScript sources.

    JavaScript strings are modelled as [string]; a character stands for one
    code unit below 256.  A JavaScript [Map] is insertion ordered: the
    router's provider map is an association list, the server's agent cache
    (whose order is never observed by the code treated here) a [gmap].
    Calls to the chat backend ([sendEvent], [sendMessage],
    [partialUpdateMessage]) are recorded in the order they are made and are
    taken to resolve; an awaited call that may reject is given an explicit
    outcome. *)

From Stdlib Require Import Ascii String.
From stdpp Require Import base strings list gmap.

Local Open Scope string_scope.

(** ** JavaScript string and array primitives used by the sources *)

Module JS.

(** Truthiness of a string: only the empty string is falsy. *)
Definition truthy (s : string) : bool :=
  match s with
  | EmptyString => false
  | String _ _ => true
  end.

(** Truthiness of a possibly [undefined] string. *)
Definition truthy_opt (o : option string) : bool :=
  match o with
  | None => false
  | Some s => truthy s
  end.

(** [s.includes(c)] for a one-character needle. *)
Fixpoint includes (c : ascii) (s : string) : bool :=
  match s with
  | EmptyString => false
  | String d s' => if Ascii.eqb d c then true else includes c s'
  end.

(** [s.split(c)] for a one-character separator: never empty. *)
Fixpoint split (c : ascii) (s : string) : list string :=
  match s with
  | EmptyString => [EmptyString]
  | String d s' =>
      if Ascii.eqb d c then EmptyString :: split c s'
      else match split c s' with
           | [] => [String d EmptyString]
           | p :: ps => String d p :: ps
           end
  end.

(** [s.replace(/c/g, '')]: every occurrence of [c] is dropped. *)
Fixpoint remove_all (c : ascii) (s : string) : string :=
  match s with
  | EmptyString => EmptyString
  | String d s' =>
      if Ascii.eqb d c then remove_all c s' else String d (remove_all c s')
  end.

(** [s.startsWith(p)]. *)
Fixpoint startsWith (p s : string) : bool :=
  match p, s with
  | EmptyString, _ => true
  | String a p', String b s' => if Ascii.eqb a b then startsWith p' s' else false
  | String _ _, EmptyString => false
  end.

(** White space and line terminators among the code units below 256:
    TAB, LF, VT, FF, CR, SP and NBSP. *)
Definition is_white (c : ascii) : bool :=
  let n := nat_of_ascii c in
  (Nat.eqb n 9 || Nat.eqb n 10 || Nat.eqb n 11 || Nat.eqb n 12
   || Nat.eqb n 13 || Nat.eqb n 32 || Nat.eqb n 160)%bool.

Fixpoint trim_start (s : string) : string :=
  match s with
  | EmptyString => EmptyString
  | String c s' => if is_white c then trim_start s' else s
  end.

Fixpoint rev_onto (s acc : string) : string :=
  match s with
  | EmptyString => acc
  | String c s' => rev_onto s' (String c acc)
  end.

Definition rev (s : string) : string := rev_onto s EmptyString.

(** [s.trim()]. *)
Definition trim (s : string) : string :=
  rev (trim_start (rev (trim_start s))).

(** How an awaited promise settles. *)
Inductive Outcome := resolved | rejected.

(** [l.slice(start)] with the standard treatment of a negative start. *)
Definition slice {A} (start : Z) (l : list A) : list A :=
  let len := Z.of_nat (length l) in
  let k := if (start <? 0)%Z then Z.max (len + start) 0 else Z.min start len in
  drop (Z.to_nat k) l.

End JS.

(** ** The chat backend as the relays and the router see it *)

Module Chat.

Inductive AIState := AI_STATE_THINKING | AI_STATE_GENERATING | AI_STATE_ERROR.

(** Events broadcast on the channel.  The [message_id] of the indicator
    events and the [channel_id] of the custom events are those of the one
    Message and the one channel the sender is bound to; they are left
    implicit. *)
Inductive ChannelEvent :=
| ai_indicator_update (ai_state : AIState)
| ai_indicator_clear
| custom_model_switch (platform : string)
| custom_model_switched (platform : string)
| custom_model_switch_error (error : string).

(** The fields of a Message the relays write.  [generating] is absent on
    the placeholder as [sendMessage] creates it. *)
Record Message := { text : string; generating : option bool }.

Definition placeholder : Message := {| text := ""; generating := None |}.

(** The [set] object of [partialUpdateMessage]: absent fields are kept. *)
Record UpdateSet := { set_text : option string; set_generating : option bool }.

Definition apply_set (u : UpdateSet) (m : Message) : Message :=
  {| text := default (text m) (set_text u);
     generating := match set_generating u with
                   | Some g => Some g
                   | None => generating m
                   end |}.

(** Calls made to the outside, in the order they are made. *)
Inductive Call :=
| partialUpdateMessage_call (u : UpdateSet)
| sendEvent_call (e : ChannelEvent)
| abort_call
| setTimeout_call (ms : nat).

(** What a relay acts on: the Message it is bound to and the trace. *)
Record World := { message : Message; trace : list Call }.

Definition initial : World := {| message := placeholder; trace := [] |}.

Definition partialUpdateMessage (u : UpdateSet) (w : World) : World :=
  {| message := apply_set u (message w);
     trace := trace w ++ [partialUpdateMessage_call u] |}.

Definition record (c : Call) (w : World) : World :=
  {| message := message w; trace := trace w ++ [c] |}.

Definition sendEvent (e : ChannelEvent) : World -> World :=
  record (sendEvent_call e).

(** The events broadcast so far. *)
Definition events (w : World) : list ChannelEvent :=
  omap (fun c => match c with sendEvent_call e => Some e | _ => None end)
       (trace w).

End Chat.

(** ** AnthropicResponseHandler *)

Module AnthropicResponseHandler.
Import Chat.

Inductive Delta := text_delta (text : string) | input_json_delta.

Inductive RawMessageStreamEvent :=
| message_start
| content_block_start
| content_block_delta (delta : Delta)
| content_block_stop
| message_delta
| message_stop.

(** What the [catch] of [run] reads of a thrown value: [error?.error?.type]. *)
Record Thrown := { error_type : option string }.

Inductive StreamEnd := exhausted | throws (error : Thrown).

(** The stream handle: its abort controller. *)
Record Stream := { controller_aborted : bool }.

Record t := {
  message_text : string;
  chunk_counter : nat;
  anthropicStream : option Stream
}.

Definition create (s : Stream) : t :=
  {| message_text := ""; chunk_counter := 0; anthropicStream := Some s |}.

Definition commits (chunk_counter : nat) : bool :=
  (Nat.eqb (chunk_counter mod 20) 0
   || (Nat.ltb chunk_counter 8 && negb (Nat.eqb (chunk_counter mod 2) 0)))%bool.

(** The body of [case 'message_stop']. *)
Definition message_stop_branch (h : t) (w : World) : World :=
  let w := record (setTimeout_call 500) w in
  let w := partialUpdateMessage
             {| set_text := Some (message_text h); set_generating := Some false |} w in
  sendEvent ai_indicator_clear w.

Definition handle (messageStreamEvent : RawMessageStreamEvent) (h : t) (w : World)
  : t * World :=
  match messageStreamEvent with
  | content_block_start =>
      (h, sendEvent (ai_indicator_update AI_STATE_GENERATING) w)
  | content_block_delta delta =>
      match delta with
      | text_delta txt =>
          let h := {| message_text := message_text h ++ txt;
                      chunk_counter := S (chunk_counter h);
                      anthropicStream := anthropicStream h |} in
          if commits (chunk_counter h)
          then (h, partialUpdateMessage
                     {| set_text := Some (message_text h);
                        set_generating := Some true |} w)
          else (h, w)
      | input_json_delta => (h, w)
      end
  | message_delta =>
      (* no [break]: control falls through into [case 'message_stop'] *)
      let w := partialUpdateMessage
                 {| set_text := Some (message_text h);
                    set_generating := Some false |} w in
      (h, message_stop_branch h w)
  | message_stop => (h, message_stop_branch h w)
  | message_start | content_block_stop => (h, w)
  end.

Fixpoint handle_all (evs : list RawMessageStreamEvent) (h : t) (w : World)
  : t * World :=
  match evs with
  | [] => (h, w)
  | ev :: evs' => let '(h', w') := handle ev h w in handle_all evs' h' w'
  end.

Definition overloaded (e : Thrown) : bool :=
  match error_type e with
  | Some ty => String.eqb ty "overloaded_error"
  | None => false
  end.

Definition run (evs : list RawMessageStreamEvent) (fin : StreamEnd) (h : t) (w : World)
  : t * World :=
  let '(h', w') := handle_all evs h w in
  match fin with
  | exhausted => (h', w')
  | throws error =>
      if overloaded error
      then (h', sendEvent (custom_model_switch_error
                   "Model is currently overloaded, falling back to another model") w')
      else (h', sendEvent (ai_indicator_update AI_STATE_ERROR) w')
  end.

Definition handleStopGenerating (h : t) (w : World) : t * World :=
  match anthropicStream h with
  | None => (h, w)
  | Some _ =>
      let h := {| message_text := message_text h;
                  chunk_counter := chunk_counter h;
                  anthropicStream := Some {| controller_aborted := true |} |} in
      let w := record abort_call w in
      let w := partialUpdateMessage
                 {| set_text := None; set_generating := Some false |} w in
      (h, sendEvent ai_indicator_clear w)
  end.

(** The body of an [error] event of the provider's stream,
    [{type: 'error', error: {type, message}}], and the value the SDK's
    stream throws when it meets one: an [APIError] whose [error] field is
    that body.  On it [error?.error?.type] is the body's own [type]; the
    type of the condition sits one level further down, at
    [error.error.error.type]. *)
Record ErrorDetail := { detail_type : string; detail_message : string }.

Record ErrorBody := { body_type : string; body_error : ErrorDetail }.

Definition APIError (body : ErrorBody) : Thrown :=
  {| error_type := Some (body_type body) |}.

(** The event the provider sends when it is overloaded. *)
Definition overloaded_event : ErrorBody :=
  {| body_type := "error";
     body_error := {| detail_type := "overloaded_error";
                      detail_message := "Overloaded" |} |}.

End AnthropicResponseHandler.

(** ** LlamaResponseHandler *)

Module LlamaResponseHandler.
Import Chat.

Section WithChunks.

(** A chunk of the Ollama response stream, and [parseChunk], which
    decodes the text it carries through [JSON.parse] and never throws
    (both its levels are wrapped in [try]/[catch]). *)
Variable Chunk : Type.
Variable parseChunk : Chunk -> string.

Inductive StreamEnd := exhausted | throws.

(** [controller] is the handler's own [AbortController]. *)
Record t := {
  message_text : string;
  chunk_counter : nat;
  controller_aborted : bool
}.

Definition create : t :=
  {| message_text := ""; chunk_counter := 0; controller_aborted := false |}.

Definition commits (chunk_counter : nat) : bool :=
  (Nat.eqb (chunk_counter mod 15) 0
   || (Nat.ltb chunk_counter 8 && Nat.eqb (chunk_counter mod 3) 0))%bool.

(** One turn of the [for await] loop of [run]. *)
Definition on_chunk (chunk : Chunk) (h : t) (w : World) : t * World :=
  let chunkText := parseChunk chunk in
  if JS.truthy chunkText then
    let h := {| message_text := message_text h ++ chunkText;
                chunk_counter := S (chunk_counter h);
                controller_aborted := controller_aborted h |} in
    if commits (chunk_counter h)
    then (h, partialUpdateMessage
               {| set_text := Some (message_text h);
                  set_generating := Some true |} w)
    else (h, w)
  else (h, w).

Fixpoint on_chunks (chunks : list Chunk) (h : t) (w : World) : t * World :=
  match chunks with
  | [] => (h, w)
  | c :: cs => let '(h', w') := on_chunk c h w in on_chunks cs h' w'
  end.

Definition interrupted_notice : string :=
  String (ascii_of_nat 10) (String (ascii_of_nat 10)
    "[Message generation was interrupted]").

Definition apology : string :=
  "I'm sorry, but there was an error generating a response.".

Definition run (chunks : list Chunk) (fin : StreamEnd) (h : t) (w : World)
  : t * World :=
  let '(h', w') := on_chunks chunks h w in
  match fin with
  | exhausted =>
      let w' := partialUpdateMessage
                  {| set_text := Some (message_text h');
                     set_generating := Some false |} w' in
      (h', sendEvent ai_indicator_clear w')
  | throws =>
      let w' := sendEvent (ai_indicator_update AI_STATE_ERROR) w' in
      if JS.truthy (message_text h')
      then (h', partialUpdateMessage
                  {| set_text := Some (message_text h' ++ interrupted_notice);
                     set_generating := Some false |} w')
      else (h', partialUpdateMessage
                  {| set_text := Some apology;
                     set_generating := Some false |} w')
  end.

Definition handleStopGenerating (h : t) (w : World) : t * World :=
  let h := {| message_text := message_text h;
              chunk_counter := chunk_counter h;
              controller_aborted := true |} in
  let w := record abort_call w in
  let w := partialUpdateMessage
             {| set_text := None; set_generating := Some false |} w in
  (h, sendEvent ai_indicator_clear w).

End WithChunks.

End LlamaResponseHandler.

(** ** Inbound events and the messages of the channel state *)

Module Inbound.

Record User := { id : string }.

(** A message as read from [e.message] or [channel.state.messages].
    [text] and [user] may be [undefined]; [ai_generated] is only tested
    for truthiness; [parent_id] is compared with [undefined]. *)
Record ChannelMessage := {
  text : option string;
  user : option User;
  ai_generated : bool;
  parent_id : option string
}.

(** An event: [e.message], [e.data?.platform] and [e.data?.error]. *)
Record Event := {
  message : option ChannelMessage;
  data_platform : option string;
  data_error : option string
}.

Definition message_new (m : ChannelMessage) : Event :=
  {| message := Some m; data_platform := None; data_error := None |}.

Definition model_switch (platform : string) : Event :=
  {| message := None; data_platform := Some platform; data_error := None |}.

Definition model_switch_error (error : string) : Event :=
  {| message := None; data_platform := None; data_error := Some error |}.

End Inbound.

(** ** MultiModelAgent: the router *)

Module MultiModelAgent.
Import Inbound.

Definition AgentPlatform := string.
Definition ANTHROPIC : AgentPlatform := "anthropic".
Definition OPENAI : AgentPlatform := "openai".
Definition LLAMA : AgentPlatform := "llama".

(** The agents the router constructs, one per class. *)
Inductive AIAgent := AnthropicAgent | OpenAIAgent | LlamaAgent.

(** [Map<AgentPlatform, AIAgent>], in insertion order. *)
Definition AgentMap := list (AgentPlatform * AIAgent).

Fixpoint map_get (k : AgentPlatform) (m : AgentMap) : option AIAgent :=
  match m with
  | [] => None
  | (k', a) :: m' => if String.eqb k' k then Some a else map_get k m'
  end.

Definition map_has (k : AgentPlatform) (m : AgentMap) : bool :=
  match map_get k m with Some _ => true | None => false end.

(** [Map.set]: an existing key keeps its place, a new one goes last. *)
Fixpoint map_set (k : AgentPlatform) (a : AIAgent) (m : AgentMap) : AgentMap :=
  match m with
  | [] => [(k, a)]
  | (k', a') :: m' =>
      if String.eqb k' k then (k, a) :: m' else (k', a') :: map_set k a m'
  end.

Definition map_keys (m : AgentMap) : list AgentPlatform := map fst m.

Record t := {
  agents : AgentMap;
  activeAgent : AgentPlatform;
  lastInteractionTs : nat;
  listeners : list string
}.

(** The constructor. *)
Definition create (initialPlatform : AgentPlatform) (now : nat) : t :=
  {| agents := []; activeAgent := initialPlatform;
     lastInteractionTs := now; listeners := [] |}.

Definition set_active (p : AgentPlatform) (r : t) : t :=
  {| agents := agents r; activeAgent := p;
     lastInteractionTs := lastInteractionTs r; listeners := listeners r |}.

Inductive Call :=
| channel_sendEvent (e : Chat.ChannelEvent)
| channel_sendMessage (text : string) (ai_generated : bool)
| agent_handleMessage (agent : AIAgent) (e : Event).

Definition unavailable_text : string :=
  "I'm sorry, but all AI models are currently unavailable. Please try again later.".

Section Router.

(** Whether [agent.init()] resolves.  Only [LlamaAgent] is among the
    sources treated here; see [LlamaAgent.init] below. *)
Variable agent_init : AIAgent -> JS.Outcome.

(** [typeof agent.handleMessage === 'function']: [handleMessage] is not
    part of the [AIAgent] interface. *)
Variable defines_handleMessage : AIAgent -> bool.

Definition all_resolved (l : list AIAgent) : bool :=
  forallb (fun a => match agent_init a with
                   | JS.resolved => true
                   | JS.rejected => false
                   end) l.

(** [init]: the three agents are put in the map, then all are
    initialised under one [Promise.all]; the listeners are registered
    after its [await]. *)
Definition init (r : t) : t * JS.Outcome :=
  let m := map_set ANTHROPIC AnthropicAgent (agents r) in
  let m := map_set OPENAI OpenAIAgent m in
  let m := map_set LLAMA LlamaAgent m in
  if all_resolved (map snd m)
  then ({| agents := m; activeAgent := activeAgent r;
           lastInteractionTs := lastInteractionTs r;
           listeners := listeners r ++
             ["message.new"; "custom_model_switch"; "custom_model_switch_error"] |},
        JS.resolved)
  else ({| agents := m; activeAgent := activeAgent r;
           lastInteractionTs := lastInteractionTs r;
           listeners := listeners r |},
        JS.rejected).

Definition handleModelSwitch (e : Event) (r : t) : t * list Call :=
  match data_platform e with
  | None => (r, [])
  | Some platform =>
      if negb (JS.truthy platform) then (r, [])
      else if negb (map_has platform (agents r))
      then (r, [channel_sendEvent (Chat.custom_model_switch_error
                  ("AI model " ++ platform ++ " is not available"))])
      else match map_get platform (agents r) with
           | None =>
               (r, [channel_sendEvent (Chat.custom_model_switch_error
                      ("Agent not initialized for platform: " ++ platform))])
           | Some _ =>
               (set_active platform r,
                [channel_sendEvent (Chat.custom_model_switched platform)])
           end
  end.

(** The [for ... of this.agents.entries()] of [handleModelSwitchError]:
    the first entry whose key differs from [currentPlatform]. *)
Fixpoint first_other (currentPlatform : AgentPlatform) (m : AgentMap)
  : option (AgentPlatform * AIAgent) :=
  match m with
  | [] => None
  | (platform, agent) :: m' =>
      if negb (String.eqb platform currentPlatform) then Some (platform, agent)
      else first_other currentPlatform m'
  end.

Definition handleModelSwitchError (e : Event) (r : t) : t * list Call :=
  if negb (JS.truthy_opt (data_error e)) then (r, [])
  else
    let currentPlatform := activeAgent r in
    match first_other currentPlatform (agents r) with
    | Some (platform, _) =>
        (set_active platform r,
         [channel_sendEvent (Chat.custom_model_switched platform)])
    | None => (r, [channel_sendMessage unavailable_text true])
    end.

Definition processMessageWithAgent (agent : AIAgent) (e : Event) : list Call :=
  match message e with
  | None => []
  | Some m =>
      if ai_generated m then []
      else if negb (JS.truthy_opt (text m)) then []
      else if defines_handleMessage agent then [agent_handleMessage agent e]
      else []
  end.

Definition handleMessage (now : nat) (e : Event) (r : t) : t * list Call :=
  let r := {| agents := agents r; activeAgent := activeAgent r;
              lastInteractionTs := now; listeners := listeners r |} in
  match map_get (activeAgent r) (agents r) with
  | None =>
      (* the first entry of the map, whatever its key *)
      match agents r with
      | (platform, fallbackAgent) :: _ =>
          (set_active platform r, processMessageWithAgent fallbackAgent e)
      | [] => (r, [channel_sendMessage unavailable_text true])
      end
  | Some agent => (r, processMessageWithAgent agent e)
  end.

Definition getAvailableModels (r : t) : list AgentPlatform := map_keys (agents r).
Definition getActiveModel (r : t) : AgentPlatform := activeAgent r.

End Router.

(** *** Delivery of events and disposal *)

(** The event types [init] registers a handler for. *)
Definition handled_types : list string :=
  ["message.new"; "custom_model_switch"; "custom_model_switch_error"].

Section Delivery.

Variable defines_handleMessage : AIAgent -> bool.

(** What [chatClient] does with an event of type [type]: it calls the
    handler the router registered for that type, if it is registered. *)
Definition deliver (type : string) (now : nat) (e : Event) (r : t) : t * list Call :=
  if existsb (String.eqb type) (listeners r) then
    if String.eqb type "message.new" then handleMessage defines_handleMessage now e r
    else if String.eqb type "custom_model_switch" then handleModelSwitch e r
    else if String.eqb type "custom_model_switch_error" then handleModelSwitchError e r
    else (r, [])
  else (r, []).

(** Events delivered one after the other, each with its type and the time
    of its delivery. *)
Fixpoint deliver_all (evs : list (string * nat * Event)) (r : t) : t * list Call :=
  match evs with
  | [] => (r, [])
  | (type, now, e) :: evs' =>
      let '(r', calls) := deliver type now e r in
      let '(r'', calls') := deliver_all evs' r' in
      (r'', (calls ++ calls')%list)
  end.

End Delivery.

(** [chatClient.off(type, handler)]: the handler is no longer registered. *)
Definition off (type : string) (ls : list string) : list string :=
  List.filter (fun t => negb (String.eqb t type)) ls.

Inductive TeardownCall :=
| chatClient_off (type : string)
| agent_dispose (agent : AIAgent)
| agents_clear
| chatClient_disconnectUser.

Section Disposal.

(** Whether [agent.dispose()] and [chatClient.disconnectUser()] resolve. *)
Variable agent_dispose_outcome : AIAgent -> JS.Outcome.
Variable disconnect_outcome : JS.Outcome.

Definition all_disposed (l : list AIAgent) : bool :=
  forallb (fun a => match agent_dispose_outcome a with
                   | JS.resolved => true
                   | JS.rejected => false
                   end) l.

(** [dispose]: the three handlers are unregistered, every agent is disposed
    under one [Promise.all], the map is cleared and the client disconnected.
    The router's own [handlers] array is never filled, so its last two
    statements do nothing. *)
Definition dispose (r : t) : t * list TeardownCall * JS.Outcome :=
  let ls := off "custom_model_switch_error"
              (off "custom_model_switch" (off "message.new" (listeners r))) in
  let offs := [chatClient_off "message.new"; chatClient_off "custom_model_switch";
               chatClient_off "custom_model_switch_error"] in
  let disposals := map (fun ka => agent_dispose (snd ka)) (agents r) in
  if all_disposed (map snd (agents r))
  then ({| agents := []; activeAgent := activeAgent r;
           lastInteractionTs := lastInteractionTs r; listeners := ls |},
        (offs ++ disposals ++ [agents_clear; chatClient_disconnectUser])%list,
        disconnect_outcome)
  else ({| agents := agents r; activeAgent := activeAgent r;
           lastInteractionTs := lastInteractionTs r; listeners := ls |},
        (offs ++ disposals)%list,
        JS.rejected).

End Disposal.

(** *** Events sent on the channel, as the router receives them *)

(** An event sent on the channel as the chat client hands it to the
    listeners of its type: the type and the [data].  The router listens on
    the client its channel belongs to, and [/switch-model] reaches it by
    sending [custom_model_switch] on that very channel: what is sent on the
    channel comes to the router's listeners, what the router sends
    included. *)
Definition received (ev : Chat.ChannelEvent) : string * Event :=
  match ev with
  | Chat.ai_indicator_update _ =>
      ("ai_indicator.update",
       {| message := None; data_platform := None; data_error := None |})
  | Chat.ai_indicator_clear =>
      ("ai_indicator.clear",
       {| message := None; data_platform := None; data_error := None |})
  | Chat.custom_model_switch platform => ("custom_model_switch", model_switch platform)
  | Chat.custom_model_switched platform =>
      ("custom_model_switched", model_switch platform)
  | Chat.custom_model_switch_error error =>
      ("custom_model_switch_error", model_switch_error error)
  end.

Section Echo.

Variable defines_handleMessage : AIAgent -> bool.

(** The events among the calls the router made, delivered to it in the
    order they were sent; the result holds the calls made in handling
    them. *)
Fixpoint deliver_sent (now : nat) (calls : list Call) (r : t) : t * list Call :=
  match calls with
  | [] => (r, [])
  | channel_sendEvent ev :: calls' =>
      let '(type, e) := received ev in
      let '(r', out) := deliver defines_handleMessage type now e r in
      let '(r'', out') := deliver_sent now calls' r' in
      (r'', (out ++ out')%list)
  | _ :: calls' => deliver_sent now calls' r
  end.

(** A switch request as [/switch-model] makes it: [custom_model_switch] is
    sent on the router's channel, the router's listener handles it, and
    the events the router sends in handling it come to its listeners in
    turn.  The result holds every call the router made. *)
Definition switch_request (now : nat) (platform : string) (r : t) : t * list Call :=
  let '(type, e) := received (Chat.custom_model_switch platform) in
  let '(r1, calls1) := deliver defines_handleMessage type now e r in
  let '(r2, calls2) := deliver_sent now calls1 r1 in
  (r2, (calls1 ++ calls2)%list).

End Echo.

End MultiModelAgent.

(** ** LlamaAgent *)

Module LlamaAgent.
Import Inbound.

Inductive Role := assistant | user_role.

(** An entry of the [messages] array sent to the provider. *)
Record ContextMessage := { role : Role; content : string }.

Record Env := {
  LLAMA_API_ENDPOINT : option string;
  LLAMA_MODEL_NAME : option string
}.

Record t := {
  apiEndpoint : option string;
  modelName : option string;
  handlers : nat;
  lastInteractionTs : nat
}.

Definition create (now : nat) : t :=
  {| apiEndpoint := None; modelName := None; handlers := 0;
     lastInteractionTs := now |}.

(** [a || b] on strings. *)
Definition or_else (a : option string) (b : string) : string :=
  match a with
  | Some s => if JS.truthy s then s else b
  | None => b
  end.

(** [init]: [inr] is the thrown error. *)
Definition init (env : Env) (a : t) : t + string :=
  let endpoint := or_else (LLAMA_API_ENDPOINT env) "http://localhost:11434" in
  let model := or_else (LLAMA_MODEL_NAME env) "llama2" in
  if negb (JS.truthy endpoint) then inr "Llama API endpoint is required"
  else inl {| apiEndpoint := Some endpoint; modelName := Some model;
              handlers := handlers a; lastInteractionTs := lastInteractionTs a |}.

(** The predicate of the [filter]: [msg.text && msg.text.trim() !== '']. *)
Definition has_text (msg : ChannelMessage) : bool :=
  match text msg with
  | None => false
  | Some s => (JS.truthy s && negb (String.eqb (JS.trim s) ""))%bool
  end.

(** The function of the [map]. *)
Definition to_context (msg : ChannelMessage) : ContextMessage :=
  {| role := match user msg with
             | Some u => if JS.startsWith "ai-bot" (id u) then assistant else user_role
             | None => user_role
             end;
     content := or_else (text msg) "" |}.

(** The context window: [slice(-5)], [filter], [map], and the [push] of
    the inbound text when [parent_id] is not [undefined]. *)
Definition context_window (state_messages : list ChannelMessage)
    (inbound : ChannelMessage) (message : string) : list ContextMessage :=
  let messages :=
    map to_context (List.filter has_text (JS.slice (-5) state_messages)) in
  match parent_id inbound with
  | Some _ => messages ++ [{| role := user_role; content := message |}]
  | None => messages
  end.

Inductive Call :=
| channel_sendMessage (text : string) (ai_generated : bool)
| channel_sendEvent (e : Chat.ChannelEvent)
| axios_post_api_chat (model : option string) (messages : list ContextMessage)
| handler_run
| chatClient_partialUpdateMessage (u : Chat.UpdateSet).

Definition open_failure_text : string :=
  "Sorry, I encountered an error while processing your request.".

(** [handleMessage].  [stream_opens] tells whether [startLlamaStream]
    resolves; [state_messages] is [channel.state.messages]. *)
Definition handleMessage (now : nat) (state_messages : list ChannelMessage)
    (stream_opens : bool) (e : Event) (a : t) : t * list Call :=
  if negb (JS.truthy_opt (apiEndpoint a)) || negb (JS.truthy_opt (modelName a))
  then (a, [])
  else
    match message e with
    | None => (a, [])
    | Some m =>
        if ai_generated m then (a, [])
        else
          match text m with
          | None => (a, [])
          | Some message =>
              if negb (JS.truthy message) then (a, [])
              else
                let messages := context_window state_messages m message in
                let opening :=
                  [channel_sendMessage "" true;
                   channel_sendEvent (Chat.ai_indicator_update Chat.AI_STATE_THINKING);
                   axios_post_api_chat (modelName a) messages] in
                if stream_opens
                then ({| apiEndpoint := apiEndpoint a; modelName := modelName a;
                         handlers := S (handlers a); lastInteractionTs := now |},
                      (opening ++ [handler_run])%list)
                else ({| apiEndpoint := apiEndpoint a; modelName := modelName a;
                         handlers := handlers a; lastInteractionTs := now |},
                      (opening ++
                       [chatClient_partialUpdateMessage
                          {| Chat.set_text := Some open_failure_text;
                             Chat.set_generating := Some false |};
                        channel_sendEvent Chat.ai_indicator_clear])%list)
          end
    end.

End LlamaAgent.

(** ** The server: registry keys, the control-plane handlers and the
       interleaving of start requests *)

Module Server.

Inductive Status := status_200 | status_400 | status_404 | status_500.

(** The key computed by [/start-ai-agent]. *)
Definition start_user_id (channel_id : string) : string :=
  let channel_id_updated :=
    if JS.includes ":" channel_id then
      let parts := JS.split ":" channel_id in
      if Nat.ltb 1 (length parts) then default channel_id (parts !! 1%nat)
      else channel_id
    else channel_id in
  "ai-bot-" ++ JS.remove_all "!" channel_id_updated.

(** The key computed by [/stop-ai-agent], [/switch-model] and
    [/active-model/:channel_id]. *)
Definition lookup_user_id (channel_id : string) : string :=
  "ai-bot-" ++ JS.remove_all "!" channel_id.

Section Handlers.

(** The agent objects held by [aiAgentCache], and
    [aiAgent instanceof MultiModelAgent]. *)
Variable Agent : Type.
Variable instanceof_MultiModelAgent : Agent -> bool.

(** [/stop-ai-agent]: the new cache, the agent disposed if any, and the
    status ([disposeAiAgent] is taken to resolve). *)
Definition stop_ai_agent (channel_id : string) (aiAgentCache : gmap string Agent)
  : gmap string Agent * option Agent * Status :=
  let userId := lookup_user_id channel_id in
  match aiAgentCache !! userId with
  | Some aiAgent => (delete userId aiAgentCache, Some aiAgent, status_200)
  | None => (aiAgentCache, None, status_200)
  end.

(** [/switch-model]: the status and the event sent on the agent's
    channel, if any. *)
Definition switch_model (channel_id platform : string)
    (aiAgentCache : gmap string Agent) : Status * option Chat.ChannelEvent :=
  if negb (JS.truthy channel_id) || negb (JS.truthy platform)
  then (status_400, None)
  else
    let userId := lookup_user_id channel_id in
    match aiAgentCache !! userId with
    | None => (status_404, None)
    | Some aiAgent =>
        if instanceof_MultiModelAgent aiAgent
        then (status_200, Some (Chat.custom_model_switch platform))
        else (status_400, None)
    end.

(** [/active-model/:channel_id]: the status and the agent answering. *)
Definition active_model (channel_id : string) (aiAgentCache : gmap string Agent)
  : Status * option Agent :=
  if negb (JS.truthy channel_id) then (status_400, None)
  else
    let userId := lookup_user_id channel_id in
    match aiAgentCache !! userId with
    | None => (status_404, None)
    | Some aiAgent => (status_200, Some aiAgent)
    end.

End Handlers.

(** *** Start requests, interleaved at their [await]s *)

(** An agent object: one that was running before, or the one made by
    [createAgent] in the start request of the given number. *)
Inductive Instance := running (n : nat) | created_by (request : nat).

(** Where a [/start-ai-agent] request is suspended. *)
Inductive Pc :=
| at_entry
| await_upsertUser
| await_addMembers
| await_watch
| await_createAgent
| await_init
| await_dispose
| finished (status : Status).

Record Request := {
  channel_id : string;
  pc : Pc;
  created : bool;      (* [createAgent] has returned this request's agent *)
  disposed : bool      (* [agent.dispose()] was called on it *)
}.

Record Registry := {
  aiAgentCache : gmap string Instance;
  pendingAiAgents : gset string
}.

Definition at_pc (p : Pc) (rq : Request) : Request :=
  {| channel_id := channel_id rq; pc := p;
     created := created rq; disposed := disposed rq |}.

(** Leaving the [try]: the response is sent and [finally] runs. *)
Definition leave (st : Status) (rq : Request) (reg : Registry) : Request * Registry :=
  (at_pc (finished st) rq,
   {| aiAgentCache := aiAgentCache reg;
      pendingAiAgents := pendingAiAgents reg ∖ {[start_user_id (channel_id rq)]} |}).

Definition cache_has (k : string) (reg : Registry) : bool :=
  bool_decide (is_Some (aiAgentCache reg !! k)).

Definition pending_has (k : string) (reg : Registry) : bool :=
  bool_decide (k ∈ pendingAiAgents reg).

(** The code of request number [self] from where it is suspended to its
    next [await] (or its end); [o] is the outcome of the call it was
    awaiting. *)
Definition step_request (self : nat) (o : JS.Outcome)
    (rq : Request) (reg : Registry) : Request * Registry :=
  let user_id := start_user_id (channel_id rq) in
  match pc rq, o with
  | at_entry, _ =>
      if negb (JS.truthy (channel_id rq)) then (at_pc (finished status_400) rq, reg)
      else if negb (cache_has user_id reg) && negb (pending_has user_id reg)
      then (at_pc await_upsertUser rq,
            {| aiAgentCache := aiAgentCache reg;
               pendingAiAgents := pendingAiAgents reg ∪ {[user_id]} |})
      else leave status_200 rq reg
  | await_upsertUser, JS.resolved => (at_pc await_addMembers rq, reg)
  | await_addMembers, _ => (at_pc await_watch rq, reg)
  | await_watch, JS.resolved => (at_pc await_createAgent rq, reg)
  | await_createAgent, JS.resolved =>
      ({| channel_id := channel_id rq; pc := await_init;
          created := true; disposed := disposed rq |}, reg)
  | await_init, JS.resolved =>
      if cache_has user_id reg
      then ({| channel_id := channel_id rq; pc := await_dispose;
               created := created rq; disposed := true |}, reg)
      else leave status_200 rq
             {| aiAgentCache := <[user_id := created_by self]> (aiAgentCache reg);
                pendingAiAgents := pendingAiAgents reg |}
  | await_dispose, JS.resolved => leave status_200 rq reg
  | finished _, _ => (rq, reg)
  | _, JS.rejected => leave status_500 rq reg
  end.

Record State := { registry : Registry; requests : list Request }.

(** The scheduler resumes request [i] with outcome [o]. *)
Definition step (s : State) (io : nat * JS.Outcome) : State :=
  let '(i, o) := io in
  match requests s !! i with
  | None => s
  | Some rq =>
      let '(rq', reg') := step_request i o rq (registry s) in
      {| registry := reg'; requests := <[i := rq']> (requests s) |}
  end.

Definition run (sched : list (nat * JS.Outcome)) (s : State) : State :=
  foldl step s sched.

Definition incoming (channel_id : string) : Request :=
  {| channel_id := channel_id; pc := at_entry; created := false; disposed := false |}.

(** Start requests arriving at a registry whose cache holds [cache0]. *)
Definition start_requests (cache0 : gmap string nat) (channel_ids : list string) : State :=
  {| registry := {| aiAgentCache := running <$> cache0; pendingAiAgents := ∅ |};
     requests := incoming <$> channel_ids |}.

Definition is_finished (rq : Request) : bool :=
  match pc rq with finished _ => true | _ => false end.

Definition all_finished (s : State) : bool := forallb is_finished (requests s).

Definition all_resolved (sched : list (nat * JS.Outcome)) : bool :=
  forallb (fun io => match snd io with
                     | JS.resolved => true
                     | JS.rejected => false
                     end) sched.

(** *** The other control-plane code: agent creation, the model list, the
        idle sweep and a stop whose disposal may fail *)

(** What [aiAgentCache] holds: a router or one single-provider agent. *)
Inductive AIAgentObject :=
| multi_model (r : MultiModelAgent.t)
| single_model (a : MultiModelAgent.AIAgent).

(** The environment variables read by the server and the agents. *)
Record Env := {
  ANTHROPIC_API_KEY : option string;
  OPENAI_API_KEY : option string;
  llama_env : LlamaAgent.Env;
  USE_MULTI_MODEL : option string
}.

(** [createAgent], from the connection of the bot user on: the choice of
    the agent class.  [platform] is the start request's, already defaulted. *)
Definition createAgent (env : Env) (platform : string) (now : nat) : AIAgentObject :=
  let useMultiModel :=
    match USE_MULTI_MODEL env with
    | Some v => String.eqb v "true"
    | None => false
    end in
  if useMultiModel then multi_model (MultiModelAgent.create platform now)
  else if String.eqb platform MultiModelAgent.OPENAI
       then single_model MultiModelAgent.OpenAIAgent
  else if String.eqb platform MultiModelAgent.LLAMA
       then single_model MultiModelAgent.LlamaAgent
  else single_model MultiModelAgent.AnthropicAgent.

(** [await agent.init()] of the start request, on the object [createAgent]
    returned. *)
Definition init_agent (agent_init : MultiModelAgent.AIAgent -> JS.Outcome)
    (aiAgent : AIAgentObject) : AIAgentObject * JS.Outcome :=
  match aiAgent with
  | multi_model r =>
      let '(r', o) := MultiModelAgent.init agent_init r in (multi_model r', o)
  | single_model a => (single_model a, agent_init a)
  end.

(** The [platform] of a start request: [anthropic] when the body has none. *)
Definition start_platform (platform : option string) : string :=
  default MultiModelAgent.ANTHROPIC platform.

Definition instanceof_MultiModelAgent (aiAgent : AIAgentObject) : bool :=
  match aiAgent with
  | multi_model _ => true
  | single_model _ => false
  end.

(** The body of a found [/active-model/:channel_id]: [activeModel] and
    [availableModels]. *)
Definition active_model_body (aiAgent : AIAgentObject) : string * list string :=
  match aiAgent with
  | multi_model r => (MultiModelAgent.getActiveModel r, MultiModelAgent.getAvailableModels r)
  | single_model MultiModelAgent.AnthropicAgent =>
      (MultiModelAgent.ANTHROPIC, [MultiModelAgent.ANTHROPIC])
  | single_model MultiModelAgent.OpenAIAgent =>
      (MultiModelAgent.OPENAI, [MultiModelAgent.OPENAI])
  | single_model MultiModelAgent.LlamaAgent =>
      (MultiModelAgent.LLAMA, [MultiModelAgent.LLAMA])
  end.

Record ModelInfo := {
  id : string;
  name : string;
  description : string;
  iconUrl : option string;
  available : bool
}.

(** [/available-models]. *)
Definition available_models (env : Env) : list ModelInfo :=
  [ {| id := MultiModelAgent.ANTHROPIC; name := "Claude";
       description := "Anthropic's Claude, known for helpfulness, harmlessness, and honesty";
       iconUrl := Some "/model-icons/claude.png";
       available := JS.truthy_opt (ANTHROPIC_API_KEY env) |};
    {| id := MultiModelAgent.OPENAI; name := "GPT";
       description := "OpenAI's GPT model with function calling capabilities";
       iconUrl := Some "/model-icons/openai.png";
       available := JS.truthy_opt (OPENAI_API_KEY env) |};
    {| id := MultiModelAgent.LLAMA; name := "Llama";
       description := "Meta's open-source Llama model";
       iconUrl := Some "/model-icons/meta.png";
       available := JS.truthy_opt (LlamaAgent.LLAMA_API_ENDPOINT (llama_env env)) |} ].

Section Lifecycle.

Variable Agent : Type.

(** [aiAgent.getLastInteraction()], in milliseconds. *)
Variable getLastInteraction : Agent -> Z.

(** Whether [disposeAiAgent(aiAgent, userId)] resolves. *)
Variable disposeAiAgent : Agent -> JS.Outcome.

Definition inactivityThreshold : Z := 480 * 60 * 1000.

Definition inactive (now : Z) (aiAgent : Agent) : bool :=
  (inactivityThreshold <? now - getLastInteraction aiAgent)%Z.

(** One run of the [setInterval] callback at time [now], its disposals
    resolving: the cache left and the keys disposed.  The visit goes
    through the entries the cache had; deleting the entry being visited
    does not disturb it.  The list of keys is in the order of the fold,
    which need not be the insertion order a JS [Map] is visited in: only
    its members are meant. *)
Definition sweep (now : Z) (aiAgentCache : gmap string Agent)
  : gmap string Agent * list string :=
  map_fold (fun userId aiAgent acc =>
              if inactive now aiAgent
              then (delete userId acc.1, (acc.2 ++ [userId])%list)
              else acc)
           (aiAgentCache, []) aiAgentCache.

(** [/stop-ai-agent] for a [channel_id] that is a string, with the outcome
    of the disposal: the new cache, the agent [disposeAiAgent] was called
    on, and the status. *)
Definition stop_request (channel_id : string) (aiAgentCache : gmap string Agent)
  : gmap string Agent * option Agent * Status :=
  let userId := lookup_user_id channel_id in
  match aiAgentCache !! userId with
  | Some aiAgent =>
      match disposeAiAgent aiAgent with
      | JS.resolved => (delete userId aiAgentCache, Some aiAgent, status_200)
      | JS.rejected => (aiAgentCache, Some aiAgent, status_500)
      end
  | None => (aiAgentCache, None, status_200)
  end.

(** [/stop-ai-agent] on the request body as it arrives.  [channel_id] is
    not validated: when the body has none ([None]), or one that is not a
    string, [channel_id.replace] throws inside the [try], and the handler
    answers 500 without having looked at the cache. *)
Definition stop_handler (channel_id : option string) (aiAgentCache : gmap string Agent)
  : gmap string Agent * option Agent * Status :=
  match channel_id with
  | Some channel_id => stop_request channel_id aiAgentCache
  | None => (aiAgentCache, None, status_500)
  end.

End Lifecycle.

(** *** Disposal of the agent objects the cache holds *)

Section Disposing.

(** Whether the [dispose] of a provider agent, [chatClient.disconnectUser()]
    and [channel.removeMembers] resolve. *)
Variable agent_dispose_outcome : MultiModelAgent.AIAgent -> JS.Outcome.
Variable disconnect_outcome : JS.Outcome.
Variable removeMembers_outcome : JS.Outcome.

(** [aiAgent.dispose()]: the object as the call leaves it, and how the call
    settles.  What a single provider agent does to itself is not followed. *)
Definition dispose_agent (aiAgent : AIAgentObject) : AIAgentObject * JS.Outcome :=
  match aiAgent with
  | multi_model r =>
      let '(r', _, o) :=
        MultiModelAgent.dispose agent_dispose_outcome disconnect_outcome r in
      (multi_model r', o)
  | single_model a => (single_model a, agent_dispose_outcome a)
  end.

(** [disposeAiAgent]: the agent is disposed, then the bot is removed from
    the channel. *)
Definition disposeAiAgent (aiAgent : AIAgentObject) : AIAgentObject * JS.Outcome :=
  let '(aiAgent', o) := dispose_agent aiAgent in
  match o with
  | JS.resolved => (aiAgent', removeMembers_outcome)
  | JS.rejected => (aiAgent', JS.rejected)
  end.

(** [/stop-ai-agent] on these objects.  The cache holds the agent itself:
    when [disposeAiAgent] throws, [aiAgentCache.delete] is skipped and the
    entry is the object as the failed disposal left it. *)
Definition stop_started (channel_id : string) (aiAgentCache : gmap string AIAgentObject)
  : gmap string AIAgentObject * Status :=
  let userId := lookup_user_id channel_id in
  match aiAgentCache !! userId with
  | Some aiAgent =>
      let '(aiAgent', o) := disposeAiAgent aiAgent in
      match o with
      | JS.resolved => (delete userId aiAgentCache, status_200)
      | JS.rejected => (<[userId := aiAgent']> aiAgentCache, status_500)
      end
  | None => (aiAgentCache, status_200)
  end.

End Disposing.

End Server.

Local Open Scope list_scope.

(** * Vocabulary of the properties *)

Section RelayVocabulary.
Import Chat.

(** The final commit: the accumulated text with [generating: false]. *)
Definition final_commit (h : AnthropicResponseHandler.t) : UpdateSet :=
  {| set_text := Some (AnthropicResponseHandler.message_text h);
     set_generating := Some false |}.

(** The committed text is a prefix of the accumulated one. *)
Definition committed_prefix (committed accumulated : string) : Prop :=
  exists rest, accumulated = (committed ++ rest)%string.

(** The [set] object of a stop request: only [generating]. *)
Definition stop_update : Chat.UpdateSet :=
  {| Chat.set_text := None; Chat.set_generating := Some false |}.

(** The claim C3 makes of a stop request, on the Anthropic relay: after it
    the Message holds the accumulated text, with [generating: false]. *)
Definition stop_commits_accumulated_text
    (h : AnthropicResponseHandler.t) (w : World) : Prop :=
  let out := AnthropicResponseHandler.handleStopGenerating h w in
  message out.2 =
    {| text := AnthropicResponseHandler.message_text h; generating := Some false |}.

End RelayVocabulary.

(** The [n] most recent elements of a list in chronological order. *)
Definition most_recent {A} (n : nat) (l : list A) : list A :=
  reverse (take n (reverse l)).

Fixpoint all_white (s : string) : bool :=
  match s with
  | EmptyString => true
  | String c s' => (JS.is_white c && all_white s')%bool
  end.

Section ContextVocabulary.
Import Inbound LlamaAgent.

(** A message with a text that is not made of white space only. *)
Definition non_blank_text (msg : ChannelMessage) : bool :=
  match text msg with
  | Some s => negb (all_white s)
  | None => false
  end.

(** A message with a text of at least one character. *)
Definition non_empty_text (msg : ChannelMessage) : bool :=
  match text msg with
  | Some s => JS.truthy s
  | None => false
  end.

(** Authored by a bot identity: the author's id starts with [ai-bot]. *)
Definition by_bot (msg : ChannelMessage) : bool :=
  match user msg with
  | Some u => JS.startsWith "ai-bot" (id u)
  | None => false
  end.

Definition tagged (msg : ChannelMessage) : ContextMessage :=
  {| role := if by_bot msg then assistant else user_role;
     content := default ""%string (text msg) |}.

Definition reply_tail (inbound : ChannelMessage) (message : string) : list ContextMessage :=
  match parent_id inbound with
  | Some _ => [{| role := user_role; content := message |}]
  | None => []
  end.

(** The context window in the words of C8: the most recent 5 messages
    with non-empty text, tagged; read either as the non-empty ones among
    the most recent 5, or as the most recent 5 of the non-empty ones. *)
Definition claimed_context_window (state_messages : list ChannelMessage)
    (inbound : ChannelMessage) (message : string) : list ContextMessage :=
  map tagged (List.filter non_empty_text (most_recent 5 state_messages))
  ++ reply_tail inbound message.

Definition claimed_context_window' (state_messages : list ChannelMessage)
    (inbound : ChannelMessage) (message : string) : list ContextMessage :=
  map tagged (most_recent 5 (List.filter non_empty_text state_messages))
  ++ reply_tail inbound message.

(** The same with the text test the code makes: not blank. *)
Definition amended_context_window (state_messages : list ChannelMessage)
    (inbound : ChannelMessage) (message : string) : list ContextMessage :=
  map tagged (List.filter non_blank_text (most_recent 5 state_messages))
  ++ reply_tail inbound message.

End ContextVocabulary.

Section RegistryVocabulary.
Import Server.

(** Every key of the cache was computed by a start request: only
    [/start-ai-agent] calls [aiAgentCache.set]. *)
Definition start_keyed {Agent} (aiAgentCache : gmap string Agent) : Prop :=
  forall k, is_Some (aiAgentCache !! k) -> exists c, k = start_user_id c.

Definition user_id (rq : Request) : string := start_user_id (channel_id rq).

(** Suspended at an [await], between entry and response. *)
Definition in_flight (rq : Request) : bool :=
  match pc rq with
  | at_entry | finished _ => false
  | _ => true
  end.

(** Whatever the outcomes: a pending key has a request in flight, a request
    disposing its agent has its key in the cache, an agent in the cache was
    installed by a request that answered 200 and never disposed it, and an
    agent is only disposed by a request on its way out. *)
Record inv_any (s : State) : Prop := {
  inv_pending : forall u, u ∈ pendingAiAgents (registry s) ->
    exists i rq, requests s !! i = Some rq /\ user_id rq = u /\ in_flight rq = true;
  inv_dispose : forall i rq, requests s !! i = Some rq -> pc rq = await_dispose ->
    is_Some (aiAgentCache (registry s) !! user_id rq);
  inv_installed : forall k i, aiAgentCache (registry s) !! k = Some (created_by i) ->
    exists rq, requests s !! i = Some rq /\ user_id rq = k
               /\ pc rq = finished status_200 /\ disposed rq = false;
  inv_disposed : forall i rq, requests s !! i = Some rq -> disposed rq = true ->
    pc rq = await_dispose \/ exists st, pc rq = finished st
}.

(** As long as the awaited calls resolve: a request past its entry has its
    key in the cache or a request for that key in flight, and a created
    agent is awaiting [init], installed under its key, or disposed. *)
Record inv_resolved (s : State) : Prop := {
  inv_progress : forall i rq, requests s !! i = Some rq ->
    pc rq <> at_entry -> JS.truthy (channel_id rq) = true ->
    is_Some (aiAgentCache (registry s) !! user_id rq)
    \/ exists j rq', requests s !! j = Some rq' /\ user_id rq' = user_id rq
                      /\ in_flight rq' = true;
  inv_fate : forall i rq, requests s !! i = Some rq -> created rq = true ->
    pc rq = await_init
    \/ aiAgentCache (registry s) !! user_id rq = Some (created_by i)
    \/ disposed rq = true
}.

(** A start request on its own: the state of the server with this one
    request, and the request resumed with the outcome of what it awaited. *)
Definition lone (p : Request * Registry) : State :=
  {| registry := p.2; requests := [p.1] |}.

Definition step_pair (p : Request * Registry) (o : JS.Outcome) : Request * Registry :=
  step_request 0 o p.1 p.2.

End RegistryVocabulary.

Section StreamVocabulary.
Import Chat.

(** The text an Anthropic stream event carries: that of a text delta,
    nothing for any other event. *)
Definition delta_text (ev : AnthropicResponseHandler.RawMessageStreamEvent) : string :=
  match ev with
  | AnthropicResponseHandler.content_block_delta
      (AnthropicResponseHandler.text_delta txt) => txt
  | _ => ""%string
  end.

Definition is_text_delta (ev : AnthropicResponseHandler.RawMessageStreamEvent) : bool :=
  match ev with
  | AnthropicResponseHandler.content_block_delta
      (AnthropicResponseHandler.text_delta _) => true
  | _ => false
  end.

(** The events that end a response: [message_delta] and [message_stop]. *)
Definition is_final (ev : AnthropicResponseHandler.RawMessageStreamEvent) : bool :=
  match ev with
  | AnthropicResponseHandler.message_delta
  | AnthropicResponseHandler.message_stop => true
  | _ => false
  end.

(** All the text of a stream, in order. *)
Definition streamed_text
    (evs : list AnthropicResponseHandler.RawMessageStreamEvent) : string :=
  fold_right (fun ev acc => (delta_text ev ++ acc)%string) ""%string evs.

(** The number of text deltas of a stream. *)
Definition text_deltas
    (evs : list AnthropicResponseHandler.RawMessageStreamEvent) : nat :=
  length (List.filter is_text_delta evs).

(** A progress write: a partial update with [generating: true]. *)
Definition is_progress_write (c : Call) : bool :=
  match c with
  | partialUpdateMessage_call u =>
      match set_generating u with Some true => true | _ => false end
  | _ => false
  end.

Definition progress_writes (w : World) : nat :=
  length (List.filter is_progress_write (trace w)).

(** All the text the chunks of a Llama stream decode to, and the number of
    chunks that decode to some text. *)
Definition parsed_text {Chunk} (parseChunk : Chunk -> string) (chunks : list Chunk)
  : string :=
  fold_right (fun c acc => (parseChunk c ++ acc)%string) ""%string chunks.

Definition text_chunks {Chunk} (parseChunk : Chunk -> string) (chunks : list Chunk)
  : nat :=
  length (List.filter (fun c => JS.truthy (parseChunk c)) chunks).

(** The number of progress writes each relay makes for a response of [n]
    fragments, as read off its schedule: the Anthropic relay writes at the
    fragments 1, 3, 5, 7 and at every twentieth, the Llama relay at the
    fragments 3 and 6 and at every fifteenth. *)
Definition anthropic_writes_after (n : nat) : nat := n / 20 + Nat.min 4 ((n + 1) / 2).

Definition llama_writes_after (n : nat) : nat := n / 15 + Nat.min 2 (n / 3).

End StreamVocabulary.

Section RouterVocabulary.
Import MultiModelAgent.

(** The active selector names a provider of the map. *)
Definition selector_valid (r : MultiModelAgent.t) : Prop :=
  map_has (activeAgent r) (agents r) = true.

(** The map [init] fills. *)
Definition three_agents : AgentMap :=
  [(ANTHROPIC, AnthropicAgent); (OPENAI, OpenAIAgent); (LLAMA, LlamaAgent)].

(** The fallback target on an initialised router. *)
Definition other_of_first_two (active : AgentPlatform) : AgentPlatform :=
  if String.eqb active ANTHROPIC then OPENAI else ANTHROPIC.

(** The time of the last [message.new] among the delivered events, [t0] if
    there is none. *)
Fixpoint last_message_time (evs : list (string * nat * Inbound.Event)) (t0 : nat) : nat :=
  match evs with
  | [] => t0
  | (type, now, _) :: evs' =>
      last_message_time evs' (if String.eqb type "message.new" then now else t0)
  end.

(** An event a provider is asked to answer: it carries a message that is
    not the bot's own and has a non-empty text. *)
Definition forwardable (e : Inbound.Event) : bool :=
  match Inbound.message e with
  | Some m => negb (Inbound.ai_generated m) && JS.truthy_opt (Inbound.text m)
  | None => false
  end.

End RouterVocabulary.

(** * Properties *)

(** ** The chat backend *)

Section ChatFacts.
Import Chat.

Lemma events_record c w :
  events (record c w) =
  events w ++ match c with sendEvent_call e => [e] | _ => [] end.
Proof.
  unfold events, record; simpl. rewrite omap_app. simpl.
  destruct c; reflexivity.
Qed.

Lemma events_sendEvent e w : events (sendEvent e w) = events w ++ [e].
Proof. apply (events_record (sendEvent_call e)). Qed.

Lemma events_partialUpdateMessage u w :
  events (partialUpdateMessage u w) = events w.
Proof.
  unfold events, partialUpdateMessage; simpl.
  rewrite omap_app. simpl. apply app_nil_r.
Qed.

End ChatFacts.

(** ** The Anthropic relay *)

Section AnthropicFacts.
Import Chat AnthropicResponseHandler.

(** One stream event never broadcasts the error state. *)
Lemma handle_no_error_state ev h w :
  ai_indicator_update AI_STATE_ERROR ∈ events (handle ev h w).2 ->
  ai_indicator_update AI_STATE_ERROR ∈ events w.
Proof.
  destruct ev as [| |[txt|]| | |]; simpl; try tauto.
  - rewrite events_sendEvent, elem_of_app, list_elem_of_singleton.
    intros [?|?]; [assumption|discriminate].
  - destruct (commits _); simpl; [rewrite events_partialUpdateMessage|]; tauto.
  - unfold message_stop_branch.
    rewrite events_sendEvent, !events_partialUpdateMessage, events_record.
    rewrite app_nil_r, events_partialUpdateMessage, elem_of_app, list_elem_of_singleton.
    intros [?|?]; [assumption|discriminate].
  - unfold message_stop_branch.
    rewrite events_sendEvent, events_partialUpdateMessage, events_record.
    rewrite app_nil_r, elem_of_app, list_elem_of_singleton.
    intros [?|?]; [assumption|discriminate].
Qed.

Lemma handle_all_no_error_state evs h w :
  ai_indicator_update AI_STATE_ERROR ∈ events (handle_all evs h w).2 ->
  ai_indicator_update AI_STATE_ERROR ∈ events w.
Proof.
  revert h w. induction evs as [|ev evs IH]; intros h w; simpl; [tauto|].
  destruct (handle ev h w) as [h' w'] eqn:E. intros H.
  apply IH in H. apply (handle_no_error_state ev h w). rewrite E. exact H.
Qed.

(** C9: on [message_delta] the handler makes the final commit and then
    runs the whole [message_stop] branch (the 500 ms delay, the same final
    commit again, the indicator-clear event), so that the indicator-clear
    event is sent on every [message_delta] event as it is on
    [message_stop]. *)
Theorem message_delta_falls_through_to_message_stop
    (h : AnthropicResponseHandler.t) (w : World) :
  handle message_delta h w =
    handle message_stop h (partialUpdateMessage (final_commit h) w)
  /\ trace (handle message_delta h w).2 =
       trace w ++ [partialUpdateMessage_call (final_commit h);
                   setTimeout_call 500;
                   partialUpdateMessage_call (final_commit h);
                   sendEvent_call ai_indicator_clear]
  /\ trace (handle message_stop h w).2 =
       trace w ++ [setTimeout_call 500;
                   partialUpdateMessage_call (final_commit h);
                   sendEvent_call ai_indicator_clear]
  /\ events (handle message_delta h w).2 = events w ++ [ai_indicator_clear]
  /\ message (handle message_delta h w).2 =
       {| text := message_text h; generating := Some false |}
  /\ (handle message_delta h w).1 = h.
Proof.
  repeat split.
  - simpl. unfold message_stop_branch, sendEvent, record, partialUpdateMessage; simpl.
    rewrite <- !app_assoc. reflexivity.
  - simpl. unfold message_stop_branch, sendEvent, record, partialUpdateMessage; simpl.
    rewrite <- !app_assoc. reflexivity.
  - simpl. unfold message_stop_branch.
    rewrite events_sendEvent, !events_partialUpdateMessage, events_record.
    rewrite app_nil_r, events_partialUpdateMessage. reflexivity.
Qed.

(** The first branch of the [catch] of [run], taken by a thrown value on
    which [error?.error?.type] is [overloaded_error]: the relay's only
    reaction is to broadcast the switch-error event that asks the router to
    fail over; the Message keeps the text and the [generating] flag it had
    when the error arrived, and no error-state indicator is broadcast at any
    point of the session. *)
Theorem overloaded_requests_switch_without_error_state
    (evs : list RawMessageStreamEvent) (error : Thrown)
    (h : AnthropicResponseHandler.t) (w : World) :
  error_type error = Some "overloaded_error" ->
  let before := handle_all evs h w in
  let after := run evs (throws error) h w in
  after.1 = before.1
  /\ trace after.2 =
       trace before.2 ++
       [sendEvent_call (custom_model_switch_error
          "Model is currently overloaded, falling back to another model")]
  /\ message after.2 = message before.2
  /\ (ai_indicator_update AI_STATE_ERROR ∈ events after.2 ->
      ai_indicator_update AI_STATE_ERROR ∈ events w).
Proof.
  intros Hov before after. subst before after. unfold run.
  assert (Ho : overloaded error = true) by (unfold overloaded; rewrite Hov; reflexivity).
  rewrite Ho.
  pose proof (handle_all_no_error_state evs h w) as Hno.
  destruct (handle_all evs h w) as [h1 w1]; simpl in *.
  repeat split.
  rewrite events_sendEvent, elem_of_app, list_elem_of_singleton.
  intros [?|?]; [auto|discriminate].
Qed.

Lemma overloaded_requests_switch_witness :
  let h := create {| controller_aborted := false |} in
  let evs := [message_start; content_block_start;
              content_block_delta (text_delta "Hel");
              content_block_delta (text_delta "lo")] in
  let error := {| error_type := Some "overloaded_error" |} in
  error_type error = Some "overloaded_error"
  /\ (run evs (throws error) h initial).1 = (handle_all evs h initial).1
  /\ trace (run evs (throws error) h initial).2 =
       trace (handle_all evs h initial).2 ++
       [sendEvent_call (custom_model_switch_error
          "Model is currently overloaded, falling back to another model")]
  /\ message (run evs (throws error) h initial).2 = message (handle_all evs h initial).2
  /\ (ai_indicator_update AI_STATE_ERROR ∈ events (run evs (throws error) h initial).2 ->
      ai_indicator_update AI_STATE_ERROR ∈ events initial).
Proof.
  intros h evs error. split; [reflexivity|].
  apply (overloaded_requests_switch_without_error_state evs error h initial).
  reflexivity.
Defined.

(** One stream event never broadcasts a switch error. *)
Lemma handle_no_switch_error ev h w text :
  custom_model_switch_error text ∈ events (handle ev h w).2 ->
  custom_model_switch_error text ∈ events w.
Proof.
  destruct ev as [| |[txt|]| | |]; simpl; try tauto.
  - rewrite events_sendEvent, elem_of_app, list_elem_of_singleton.
    intros [?|?]; [assumption|discriminate].
  - destruct (commits _); simpl; [rewrite events_partialUpdateMessage|]; tauto.
  - unfold message_stop_branch.
    rewrite events_sendEvent, !events_partialUpdateMessage, events_record.
    rewrite app_nil_r, events_partialUpdateMessage, elem_of_app, list_elem_of_singleton.
    intros [?|?]; [assumption|discriminate].
  - unfold message_stop_branch.
    rewrite events_sendEvent, events_partialUpdateMessage, events_record.
    rewrite app_nil_r, elem_of_app, list_elem_of_singleton.
    intros [?|?]; [assumption|discriminate].
Qed.

Lemma handle_all_no_switch_error evs h w text :
  custom_model_switch_error text ∈ events (handle_all evs h w).2 ->
  custom_model_switch_error text ∈ events w.
Proof.
  revert h w. induction evs as [|ev evs IH]; intros h w; simpl; [tauto|].
  destruct (handle ev h w) as [h' w'] eqn:E. intros H.
  apply IH in H. apply (handle_no_switch_error ev h w). rewrite E. exact H.
Qed.

(** C5: evaluated on sessions that end with the provider's overloaded
    error as the SDK's stream throws it, whatever was streamed before.  The
    condition's type [overloaded_error] is not where the [catch] of [run]
    looks for it: [error?.error?.type] is [error], the test for the
    overloaded condition fails, and the relay treats the session as any
    other failure.  It broadcasts the error state, sends no switch error at
    any point of the session, so that the router is never asked to fail
    over, and leaves the Message as it was. *)
Theorem overloaded_stream_error_is_shown_as_an_error
    (evs : list RawMessageStreamEvent) (s : Stream) :
  let error := APIError overloaded_event in
  let before := handle_all evs (create s) initial in
  let after := run evs (throws error) (create s) initial in
  detail_type (body_error overloaded_event) = "overloaded_error"
  /\ error_type error = Some "error"
  /\ overloaded error = false
  /\ after.1 = before.1
  /\ trace after.2 =
       trace before.2 ++ [sendEvent_call (ai_indicator_update AI_STATE_ERROR)]
  /\ message after.2 = message before.2
  /\ ai_indicator_update AI_STATE_ERROR ∈ events after.2
  /\ (forall text, custom_model_switch_error text ∉ events after.2).
Proof.
  intros error before after. subst error before after. unfold run.
  change (overloaded (APIError overloaded_event)) with false.
  pose proof (handle_all_no_switch_error evs (create s) initial) as Hno.
  destruct (handle_all evs (create s) initial) as [h1 w1]. cbn [fst snd] in *.
  repeat split.
  - rewrite events_sendEvent, elem_of_app, list_elem_of_singleton. right. reflexivity.
  - intros text. rewrite events_sendEvent, elem_of_app, list_elem_of_singleton.
    intros [H|H]; [|discriminate H].
    apply Hno in H. inversion H.
Qed.

(** A response of two fragments cut short by the overloaded error: the
    Message keeps the first fragment and [generating: true], and the events
    of the session are the generating state and the error state. *)
Example overloaded_session :
  let evs := [message_start; content_block_start;
              content_block_delta (text_delta "Hel");
              content_block_delta (text_delta "lo")] in
  let after := run evs (throws (APIError overloaded_event))
                 (create {| controller_aborted := false |}) initial in
  message after.2 = {| text := "Hel"; generating := Some true |}
  /\ events after.2 = [ai_indicator_update AI_STATE_GENERATING;
                       ai_indicator_update AI_STATE_ERROR].
Proof. cbv zeta. split; reflexivity. Qed.

End AnthropicFacts.

(** ** The router *)

Section RouterFacts.
Import Inbound MultiModelAgent.
Import JS (Outcome, resolved, rejected).

Lemma truthy_nonempty s : s <> EmptyString -> JS.truthy s = true.
Proof. destruct s; [congruence | reflexivity]. Qed.

Lemma map_get_In k a m : map_get k m = Some a -> In (k, a) m.
Proof.
  induction m as [|[k' a'] m IH]; simpl; [discriminate|].
  destruct (String.eqb_spec k' k) as [->|Hne].
  - intros [= ->]. left; reflexivity.
  - intros H. right. apply IH, H.
Qed.

Lemma map_get_None_keys k m : map_get k m = None -> ~ In k (map_keys m).
Proof.
  induction m as [|[k' a'] m IH]; simpl; [tauto|].
  destruct (String.eqb_spec k' k) as [->|Hne]; [discriminate|].
  intros H [Hk|Hin]; [congruence | exact (IH H Hin)].
Qed.

(** The switch handler on its own, from its call to its return: for a
    provider absent from the router's map it sends a switch-error event
    whose text names that provider and returns with the router as it was;
    for a provider present in the map it makes that provider the active one
    and sends the switch-confirmed event for it. *)
Theorem switch_request_confirmed_or_refused (e : Event) (platform : AgentPlatform)
    (r : MultiModelAgent.t) :
  data_platform e = Some platform ->
  platform <> EmptyString ->
  (map_get platform (agents r) = None ->
     handleModelSwitch e r =
       (r, [channel_sendEvent
              (Chat.custom_model_switch_error
                 ("AI model " ++ platform ++ " is not available")%string)])
     /\ activeAgent (handleModelSwitch e r).1 = activeAgent r)
  /\ (forall agent, map_get platform (agents r) = Some agent ->
     handleModelSwitch e r =
       (set_active platform r,
        [channel_sendEvent (Chat.custom_model_switched platform)])
     /\ activeAgent (handleModelSwitch e r).1 = platform
     /\ agents (handleModelSwitch e r).1 = agents r).
Proof.
  intros He Hne. unfold handleModelSwitch. rewrite He.
  rewrite (truthy_nonempty _ Hne). simpl. unfold map_has.
  split.
  - intros ->. simpl. split; reflexivity.
  - intros agent ->. simpl. repeat split.
Qed.

(** *** Automatic fallback on a switch-error event *)

(** What the scan of [handleModelSwitchError] returns: the entry sits in
    the map after entries that all carry the current key. *)
Lemma first_other_Some current m platform agent :
  first_other current m = Some (platform, agent) ->
  platform <> current
  /\ exists before after,
       m = before ++ (platform, agent) :: after
       /\ Forall (fun ka => ka.1 = current) before.
Proof.
  induction m as [|[k a] m IH]; simpl; [discriminate|].
  destruct (String.eqb_spec k current) as [->|Hne]; simpl.
  - intros H. destruct (IH H) as (Hp & before & after & -> & Hall).
    split; [exact Hp|]. exists ((current, a) :: before), after.
    split; [reflexivity|]. constructor; [reflexivity | exact Hall].
  - intros [= -> ->]. split; [exact Hne|].
    exists [], m. split; [reflexivity | constructor].
Qed.

Lemma first_other_None current m :
  first_other current m = None <-> Forall (fun ka => ka.1 = current) m.
Proof.
  induction m as [|[k a] m IH]; simpl.
  - split; [constructor | reflexivity].
  - destruct (String.eqb_spec k current) as [->|Hne]; simpl.
    + rewrite IH. split; [intros H; constructor; [reflexivity | exact H]|].
      intros H. inversion H; assumption.
    + split; [discriminate|]. intros H. inversion H; subst. contradiction.
Qed.

(** On a switch-error event with a text, the router takes the first entry
    of its map, in insertion order, whose key is not the active one, makes
    it active and confirms the switch; the target is never the provider
    that was active. *)
Lemma handleModelSwitchError_falls_back (e : Event) (r : MultiModelAgent.t)
    platform agent :
  JS.truthy_opt (data_error e) = true ->
  first_other (activeAgent r) (agents r) = Some (platform, agent) ->
  handleModelSwitchError e r =
    (set_active platform r,
     [channel_sendEvent (Chat.custom_model_switched platform)])
  /\ platform <> activeAgent r
  /\ In (platform, agent) (agents r).
Proof.
  intros He Hf. unfold handleModelSwitchError. rewrite He, Hf. simpl.
  destruct (first_other_Some _ _ _ _ Hf) as (Hne & before & after & Hm & _).
  repeat split; [exact Hne|]. rewrite Hm. apply in_or_app. right. left. reflexivity.
Qed.

(** With no other provider in the map, the router selects nothing and
    posts the apology. *)
Lemma handleModelSwitchError_degraded (e : Event) (r : MultiModelAgent.t) :
  JS.truthy_opt (data_error e) = true ->
  Forall (fun ka => ka.1 = activeAgent r) (agents r) ->
  handleModelSwitchError e r = (r, [channel_sendMessage unavailable_text true]).
Proof.
  intros He Hall. unfold handleModelSwitchError. rewrite He. simpl.
  apply first_other_None in Hall. rewrite Hall. reflexivity.
Qed.

Section Dispatch.
Variable defines_handleMessage : AIAgent -> bool.

(** A fallback made by [handleMessage] takes the first entry of the map
    and never the absent active key, sends no event of any kind, the
    switch-confirmed one included, and hands the turn to the agent
    taken. *)
Lemma handleMessage_fallback_sends_no_event now (e : Event) (r : MultiModelAgent.t)
    platform agent rest :
  map_get (activeAgent r) (agents r) = None ->
  agents r = (platform, agent) :: rest ->
  let out := handleMessage defines_handleMessage now e r in
  activeAgent out.1 = platform
  /\ platform <> activeAgent r
  /\ out.2 = processMessageWithAgent defines_handleMessage agent e
  /\ forall ev, ~ In (channel_sendEvent ev) out.2.
Proof.
  intros Hnone Hm. unfold handleMessage; simpl. rewrite Hnone, Hm. simpl.
  repeat split.
  - intros ->. apply map_get_None_keys in Hnone. apply Hnone.
    rewrite Hm. left; reflexivity.
  - intros ev. unfold processMessageWithAgent.
    destruct (message e) as [m|]; [|tauto].
    destruct (ai_generated m); [tauto|].
    destruct (negb _); [tauto|].
    destruct (defines_handleMessage agent); simpl; [|tauto].
    intros [H|[]]; discriminate.
Qed.

Lemma handleMessage_degraded now (e : Event) (r : MultiModelAgent.t) :
  agents r = [] ->
  (handleMessage defines_handleMessage now e r).2 =
    [channel_sendMessage unavailable_text true]
  /\ activeAgent (handleMessage defines_handleMessage now e r).1 = activeAgent r.
Proof. intros Hm. unfold handleMessage; simpl. rewrite Hm. simpl. split; reflexivity. Qed.

(** Skipped messages reach no agent. *)
Lemma processMessageWithAgent_skips agent (e : Event) :
  (message e = None
   \/ exists m, message e = Some m
                /\ (ai_generated m = true \/ JS.truthy_opt (text m) = false)) ->
  processMessageWithAgent defines_handleMessage agent e = [].
Proof.
  unfold processMessageWithAgent.
  intros [->|(m & -> & [->| ->])]; try reflexivity.
  destruct (ai_generated m); reflexivity.
Qed.

End Dispatch.

(** The switch-error event the router sends for an unavailable provider has
    the type its own [handleModelSwitchError] listens to: should the channel
    deliver it back to the router, that second handler falls back to the
    first other provider. *)
Example refused_switch_event_read_as_fallback_trigger :
  let r := {| agents := [(ANTHROPIC, AnthropicAgent); (OPENAI, OpenAIAgent);
                         (LLAMA, LlamaAgent)];
              activeAgent := ANTHROPIC; lastInteractionTs := 0;
              listeners := ["message.new"; "custom_model_switch";
                            "custom_model_switch_error"]%string |} in
  handleModelSwitch (model_switch "gemini") r =
    (r, [channel_sendEvent
           (Chat.custom_model_switch_error "AI model gemini is not available")])
  /\ handleModelSwitchError (model_switch_error "AI model gemini is not available") r =
       (set_active OPENAI r, [channel_sendEvent (Chat.custom_model_switched OPENAI)]).
Proof. cbv zeta. split; reflexivity. Qed.

(** *** Initialisation *)

Lemma map_get_set_eq k a m : map_get k (map_set k a m) = Some a.
Proof.
  induction m as [|[k' a'] m IH]; simpl.
  - rewrite String.eqb_refl. reflexivity.
  - destruct (String.eqb_spec k' k) as [->|Hne]; simpl.
    + rewrite String.eqb_refl. reflexivity.
    + destruct (String.eqb_spec k' k); [contradiction | exact IH].
Qed.

Lemma map_get_set_ne k k' a m :
  k <> k' -> map_get k' (map_set k a m) = map_get k' m.
Proof.
  intros Hne. induction m as [|[k0 a0] m IH]; simpl.
  - destruct (String.eqb_spec k k'); [contradiction | reflexivity].
  - destruct (String.eqb_spec k0 k) as [->|Hne0]; simpl.
    + destruct (String.eqb_spec k k'); [contradiction | reflexivity].
    + destruct (String.eqb_spec k0 k'); [reflexivity | exact IH].
Qed.

(** The map [init] builds holds the three agents under their keys,
    whatever it held before. *)
Lemma init_map_holds_all agent_init (r : MultiModelAgent.t) a :
  In a (map snd (agents (init agent_init r).1)).
Proof.
  assert (Hm : exists k, map_get k (agents (init agent_init r).1) = Some a).
  { unfold init. destruct (all_resolved _ _); simpl; destruct a.
    - exists ANTHROPIC. rewrite !map_get_set_ne by discriminate. apply map_get_set_eq.
    - exists OPENAI. rewrite map_get_set_ne by discriminate. apply map_get_set_eq.
    - exists LLAMA. apply map_get_set_eq.
    - exists ANTHROPIC. rewrite !map_get_set_ne by discriminate. apply map_get_set_eq.
    - exists OPENAI. rewrite map_get_set_ne by discriminate. apply map_get_set_eq.
    - exists LLAMA. apply map_get_set_eq. }
  destruct Hm as [k Hk]. apply map_get_In in Hk.
  apply (in_map snd) in Hk. exact Hk.
Qed.

(** [init] is all or nothing: it rejects as soon as one agent's [init]
    rejects, the rejecting provider stays in the map and no listener is
    registered. *)
Lemma init_rejects_with_any_agent agent_init (r : MultiModelAgent.t) a :
  agent_init a = rejected ->
  (init agent_init r).2 = rejected
  /\ listeners (init agent_init r).1 = listeners r
  /\ In a (map snd (agents (init agent_init r).1)).
Proof.
  intros Hrej. split; [|split; [|apply init_map_holds_all]].
  - pose proof (init_map_holds_all agent_init r a) as Hin.
    unfold init in *.
    destruct (all_resolved _ _) eqn:Hall; simpl in *; [|reflexivity].
    unfold all_resolved in Hall. rewrite forallb_forall in Hall.
    specialize (Hall a Hin). rewrite Hrej in Hall. discriminate.
  - unfold init. destruct (all_resolved _ _) eqn:Hall; simpl; [|reflexivity].
    pose proof (init_map_holds_all agent_init r a) as Hin.
    unfold init in Hin. rewrite Hall in Hin. simpl in Hin.
    unfold all_resolved in Hall. rewrite forallb_forall in Hall.
    specialize (Hall a Hin). rewrite Hrej in Hall. discriminate.
Qed.

(** C7: evaluated where the OpenAI agent's [init] rejects (its key is
    missing) and the two others resolve: the router's [init] rejects as a
    whole, the map still lists all three providers, the OpenAI one
    included, no listener is registered, and the start request that
    awaited this [init] answers 500 without installing anything. *)
Theorem init_rejects_when_one_provider_is_unconfigured :
  let agent_init := fun a => match a with OpenAIAgent => rejected | _ => resolved end in
  let out := init agent_init (create ANTHROPIC 0) in
  out.2 = rejected
  /\ getAvailableModels out.1 = [ANTHROPIC; OPENAI; LLAMA]
  /\ map_get OPENAI (agents out.1) = Some OpenAIAgent
  /\ listeners out.1 = []
  /\ let rq := {| Server.channel_id := "demo-channel"; Server.pc := Server.await_init;
                  Server.created := true; Server.disposed := false |} in
     let reg := {| Server.aiAgentCache := ∅;
                   Server.pendingAiAgents := {["ai-bot-demo-channel"%string]} |} in
     Server.pc (Server.step_request 0 out.2 rq reg).1 = Server.finished Server.status_500
     /\ Server.aiAgentCache (Server.step_request 0 out.2 rq reg).2 = ∅.
Proof. cbv zeta. repeat split. Qed.

(** C2: evaluated on a router whose active selector names no agent of its
    map (it was started with platform [gemini]).  An inbound turn makes it
    fall back to the first provider of the map and hand the turn to that
    agent, and the calls it makes hold no switch-confirmed event; the same
    router falling back on a switch-error event selects the same provider
    and does send the switch-confirmed event. *)
Theorem inbound_fallback_sends_no_switch_confirmed :
  let r := (init (fun _ => resolved) (create "gemini" 0)).1 in
  let hello := message_new {| text := Some "hello"%string;
                              user := Some {| id := "andrew356" |};
                              ai_generated := false; parent_id := None |} in
  let overload := model_switch_error
                    "Model is currently overloaded, falling back to another model" in
  map_get (activeAgent r) (agents r) = None
  /\ activeAgent (handleMessage (fun _ => true) 1 hello r).1 = ANTHROPIC
  /\ (handleMessage (fun _ => true) 1 hello r).2 = [agent_handleMessage AnthropicAgent hello]
  /\ handleModelSwitchError overload r =
       (set_active ANTHROPIC r,
        [channel_sendEvent (Chat.custom_model_switched ANTHROPIC)]).
Proof. cbv zeta. repeat split. Qed.

End RouterFacts.

(** ** Both relays: stop requests and generic errors *)

Section StringFacts.

Lemma append_nil_r (s : string) : (s ++ "")%string = s.
Proof.
  induction s as [|c s IH]; [reflexivity|].
  change (String c (s ++ "")%string = String c s). f_equal. exact IH.
Qed.

Lemma append_assoc (s t u : string) : ((s ++ t) ++ u)%string = (s ++ (t ++ u))%string.
Proof.
  induction s as [|c s IH]; [reflexivity|].
  change (String c ((s ++ t) ++ u)%string = String c (s ++ (t ++ u))%string).
  f_equal. exact IH.
Qed.

End StringFacts.

Lemma committed_prefix_refl s : committed_prefix s s.
Proof. exists ""%string. symmetry. apply append_nil_r. Qed.

Lemma committed_prefix_extend s t u :
  committed_prefix s t -> committed_prefix s (t ++ u)%string.
Proof. intros [rest ->]. exists (rest ++ u)%string. apply append_assoc. Qed.

Section AnthropicStop.
Import Chat AnthropicResponseHandler.

Lemma handle_keeps_stream ev h w :
  anthropicStream (handle ev h w).1 = anthropicStream h.
Proof.
  destruct ev as [| |[txt|]| | |]; simpl; try reflexivity.
  destruct (commits _); reflexivity.
Qed.

Lemma handle_all_keeps_stream evs h w :
  anthropicStream (handle_all evs h w).1 = anthropicStream h.
Proof.
  revert h w. induction evs as [|ev evs IH]; intros h w; simpl; [reflexivity|].
  pose proof (handle_keeps_stream ev h w) as Hk.
  destruct (handle ev h w) as [h' w']. rewrite IH. exact Hk.
Qed.

Lemma handle_committed_prefix ev h w :
  committed_prefix (text (message w)) (message_text h) ->
  committed_prefix (text (message (handle ev h w).2)) (message_text (handle ev h w).1).
Proof.
  intros Hp. destruct ev as [| |[txt|]| | |]; simpl; try exact Hp.
  - destruct (commits _); simpl.
    + apply committed_prefix_refl.
    + apply committed_prefix_extend, Hp.
  - apply committed_prefix_refl.
  - apply committed_prefix_refl.
Qed.

Lemma handle_all_committed_prefix evs h w :
  committed_prefix (text (message w)) (message_text h) ->
  committed_prefix (text (message (handle_all evs h w).2))
                   (message_text (handle_all evs h w).1).
Proof.
  revert h w. induction evs as [|ev evs IH]; intros h w Hp; simpl; [exact Hp|].
  pose proof (handle_committed_prefix ev h w Hp) as Hs.
  destruct (handle ev h w) as [h' w']. apply IH, Hs.
Qed.

Lemma anthropic_stop_with_stream h w s :
  anthropicStream h = Some s ->
  handleStopGenerating h w =
    ({| message_text := message_text h; chunk_counter := chunk_counter h;
        anthropicStream := Some {| controller_aborted := true |} |},
     sendEvent ai_indicator_clear
       (partialUpdateMessage stop_update (record abort_call w))).
Proof. intros Hs. unfold handleStopGenerating. rewrite Hs. reflexivity. Qed.

(** On a generic error the Anthropic relay broadcasts the error state and
    writes nothing to the Message. *)
Lemma anthropic_generic_error_keeps_message evs error h w :
  overloaded error = false ->
  message (run evs (throws error) h w).2 = message (handle_all evs h w).2
  /\ trace (run evs (throws error) h w).2 =
       trace (handle_all evs h w).2 ++
       [sendEvent_call (ai_indicator_update AI_STATE_ERROR)].
Proof.
  intros Ho. unfold run. rewrite Ho.
  destruct (handle_all evs h w) as [h1 w1]. split; reflexivity.
Qed.

End AnthropicStop.

Section LlamaFacts.
Import Chat LlamaResponseHandler.
Variable Chunk : Type.
Variable parseChunk : Chunk -> string.

Lemma on_chunk_committed_prefix c h w :
  committed_prefix (text (message w)) (message_text h) ->
  committed_prefix (text (message (on_chunk Chunk parseChunk c h w).2))
                   (message_text (on_chunk Chunk parseChunk c h w).1).
Proof.
  intros Hp. unfold on_chunk. destruct (JS.truthy _); [|exact Hp]. simpl.
  destruct (commits _); simpl.
  - apply committed_prefix_refl.
  - apply committed_prefix_extend, Hp.
Qed.

Lemma on_chunks_committed_prefix cs h w :
  committed_prefix (text (message w)) (message_text h) ->
  committed_prefix (text (message (on_chunks Chunk parseChunk cs h w).2))
                   (message_text (on_chunks Chunk parseChunk cs h w).1).
Proof.
  revert h w. induction cs as [|c cs IH]; intros h w Hp; simpl; [exact Hp|].
  pose proof (on_chunk_committed_prefix c h w Hp) as Hs.
  destruct (on_chunk Chunk parseChunk c h w) as [h' w']. apply IH, Hs.
Qed.

(** On an error the Llama relay broadcasts the error state and then
    commits, with [generating: false], the accumulated text followed by
    the interruption notice, or the apology when nothing had
    accumulated. *)
Lemma llama_error_clears_generating cs h w :
  let before := on_chunks Chunk parseChunk cs h w in
  let after := run Chunk parseChunk cs throws h w in
  let final := if JS.truthy (message_text before.1)
               then (message_text before.1 ++ interrupted_notice)%string
               else apology in
  trace after.2 =
    trace before.2 ++
    [sendEvent_call (ai_indicator_update AI_STATE_ERROR);
     partialUpdateMessage_call
       {| set_text := Some final; set_generating := Some false |}]
  /\ message after.2 = {| text := final; generating := Some false |}.
Proof.
  cbv zeta. unfold run.
  destruct (on_chunks Chunk parseChunk cs h w) as [h1 w1]. simpl.
  destruct (JS.truthy (message_text h1)); simpl;
    unfold partialUpdateMessage, sendEvent, record; simpl;
    rewrite <- app_assoc; split; reflexivity.
Qed.

End LlamaFacts.

(** ** Generic stream errors and stop requests, relay by relay *)

Section RelaySessions.
Import Chat.

(** C4: evaluated on one fragment followed by a generic (not overloaded)
    stream error.  The Anthropic relay commits the fragment with
    [generating: true], broadcasts the error state and writes nothing more,
    so the Message stays at [generating: true]; the Llama relay, on the same
    session, broadcasts the error state and then commits the text followed
    by the interruption notice with [generating: false]. *)
Theorem anthropic_generic_error_leaves_generating_set :
  let anthropic :=
    AnthropicResponseHandler.run
      [AnthropicResponseHandler.message_start;
       AnthropicResponseHandler.content_block_start;
       AnthropicResponseHandler.content_block_delta
         (AnthropicResponseHandler.text_delta "Hi")]
      (AnthropicResponseHandler.throws
         {| AnthropicResponseHandler.error_type := Some "api_error"%string |})
      (AnthropicResponseHandler.create
         {| AnthropicResponseHandler.controller_aborted := false |})
      initial in
  let llama :=
    LlamaResponseHandler.run string id ["Hi"%string] LlamaResponseHandler.throws
      LlamaResponseHandler.create initial in
  message anthropic.2 = {| text := "Hi"; generating := Some true |}
  /\ trace anthropic.2 =
       [sendEvent_call (ai_indicator_update AI_STATE_GENERATING);
        partialUpdateMessage_call
          {| set_text := Some "Hi"%string; set_generating := Some true |};
        sendEvent_call (ai_indicator_update AI_STATE_ERROR)]
  /\ message llama.2 =
       {| text := ("Hi" ++ LlamaResponseHandler.interrupted_notice)%string;
          generating := Some false |}
  /\ trace llama.2 =
       [sendEvent_call (ai_indicator_update AI_STATE_ERROR);
        partialUpdateMessage_call
          {| set_text := Some ("Hi" ++ LlamaResponseHandler.interrupted_notice)%string;
             set_generating := Some false |}].
Proof. cbv zeta. repeat split. Qed.

(** C3, as stated, fails: after two fragments, of which the throttle commits
    only the first, a stop request leaves the Message with the first
    fragment as its text while the relay has accumulated both. *)
Lemma stop_leaves_uncommitted_text_out :
  let session :=
    AnthropicResponseHandler.handle_all
      [AnthropicResponseHandler.content_block_start;
       AnthropicResponseHandler.content_block_delta
         (AnthropicResponseHandler.text_delta "a");
       AnthropicResponseHandler.content_block_delta
         (AnthropicResponseHandler.text_delta "b")]
      (AnthropicResponseHandler.create
         {| AnthropicResponseHandler.controller_aborted := false |})
      initial in
  AnthropicResponseHandler.message_text session.1 = "ab"%string
  /\ message (AnthropicResponseHandler.handleStopGenerating session.1 session.2).2 =
       {| text := "a"; generating := Some false |}
  /\ (stop_commits_accumulated_text session.1 session.2 -> False).
Proof.
  cbv zeta. repeat split. unfold stop_commits_accumulated_text. simpl.
  intros H. discriminate H.
Qed.

(** C3, amended: after whatever stream events a stop request arrives, with
    any number of fragments received, zero included, either relay calls
    [abort] on its controller, updates the Message with [generating: false]
    and nothing else, and broadcasts the indicator-clear event, in this
    order; the Message then has [generating = false] and the text it had,
    which is the last text committed, a prefix of the accumulated one. *)
Theorem stop_request_clears_generating_and_keeps_committed_text :
  (forall (s : AnthropicResponseHandler.Stream)
          (evs : list AnthropicResponseHandler.RawMessageStreamEvent),
     let session :=
       AnthropicResponseHandler.handle_all evs
         (AnthropicResponseHandler.create s) initial in
     let out := AnthropicResponseHandler.handleStopGenerating session.1 session.2 in
     trace out.2 =
       trace session.2 ++
       [abort_call; partialUpdateMessage_call stop_update;
        sendEvent_call ai_indicator_clear]
     /\ generating (message out.2) = Some false
     /\ text (message out.2) = text (message session.2)
     /\ committed_prefix (text (message out.2))
                         (AnthropicResponseHandler.message_text session.1)
     /\ AnthropicResponseHandler.anthropicStream out.1 =
          Some {| AnthropicResponseHandler.controller_aborted := true |})
  /\ (forall (Chunk : Type) (parseChunk : Chunk -> string) (chunks : list Chunk),
     let session :=
       LlamaResponseHandler.on_chunks Chunk parseChunk chunks
         LlamaResponseHandler.create initial in
     let out := LlamaResponseHandler.handleStopGenerating session.1 session.2 in
     trace out.2 =
       trace session.2 ++
       [abort_call; partialUpdateMessage_call stop_update;
        sendEvent_call ai_indicator_clear]
     /\ generating (message out.2) = Some false
     /\ text (message out.2) = text (message session.2)
     /\ committed_prefix (text (message out.2))
                         (LlamaResponseHandler.message_text session.1)
     /\ LlamaResponseHandler.controller_aborted out.1 = true).
Proof.
  split.
  - intros s evs session out.
    assert (Hs : AnthropicResponseHandler.anthropicStream session.1 = Some s).
    { subst session. rewrite handle_all_keeps_stream. reflexivity. }
    assert (Hp : committed_prefix (text (message session.2))
                   (AnthropicResponseHandler.message_text session.1)).
    { subst session. apply handle_all_committed_prefix. apply committed_prefix_refl. }
    subst out. rewrite (anthropic_stop_with_stream _ _ _ Hs). simpl.
    unfold stop_update at 1 2. simpl. rewrite <- !app_assoc.
    repeat split. exact Hp.
  - intros Chunk parseChunk chunks session out.
    assert (Hp : committed_prefix (text (message session.2))
                   (LlamaResponseHandler.message_text session.1)).
    { subst session. apply on_chunks_committed_prefix. apply committed_prefix_refl. }
    subst out. unfold LlamaResponseHandler.handleStopGenerating. simpl.
    rewrite <- !app_assoc. repeat split. exact Hp.
Qed.

(** The Llama relay's [controller] is not the one of the request that
    produces [llama_stream]: after a stop request the loop of [run] goes on,
    and the next throttled commit writes [generating: true] again. *)
Example llama_loop_goes_on_after_stop :
  let before :=
    LlamaResponseHandler.on_chunks string id ["a"%string; "b"%string]
      LlamaResponseHandler.create initial in
  let stopped := LlamaResponseHandler.handleStopGenerating before.1 before.2 in
  let after :=
    LlamaResponseHandler.on_chunks string id ["c"%string] stopped.1 stopped.2 in
  message stopped.2 = {| text := ""; generating := Some false |}
  /\ message after.2 = {| text := "abc"; generating := Some true |}.
Proof. cbv zeta. split; reflexivity. Qed.

End RelaySessions.

(** ** The agent's turn handling and its context window *)

Section ContextWindow.
Import Inbound LlamaAgent.

Lemma slice_minus_5 {A} (l : list A) : JS.slice (-5) l = most_recent 5 l.
Proof.
  unfold JS.slice, most_recent. simpl.
  rewrite take_reverse, reverse_involutive. f_equal. lia.
Qed.

Lemma trim_start_empty s : JS.trim_start s = EmptyString <-> all_white s = true.
Proof.
  induction s as [|c s IH]; simpl; [tauto|].
  destruct (JS.is_white c); simpl; [exact IH|].
  split; intros H; discriminate H.
Qed.

Lemma all_white_rev_onto s acc :
  all_white (JS.rev_onto s acc) = (all_white s && all_white acc)%bool.
Proof.
  revert acc. induction s as [|c s IH]; intros acc; simpl; [reflexivity|].
  rewrite IH. simpl. destruct (JS.is_white c), (all_white s); reflexivity.
Qed.

Lemma all_white_rev s : all_white (JS.rev s) = all_white s.
Proof. unfold JS.rev. rewrite all_white_rev_onto. simpl. apply andb_true_r. Qed.

Lemma all_white_trim_start s : all_white (JS.trim_start s) = all_white s.
Proof.
  induction s as [|c s IH]; simpl; [reflexivity|].
  destruct (JS.is_white c) eqn:E; simpl; [exact IH|]. rewrite E. reflexivity.
Qed.

Lemma rev_onto_empty s acc :
  JS.rev_onto s acc = EmptyString -> s = EmptyString /\ acc = EmptyString.
Proof.
  revert acc. induction s as [|c s IH]; intros acc; simpl; [tauto|].
  intros H. apply IH in H. destruct H as [_ H]. discriminate H.
Qed.

(** [s.trim() !== ''] holds exactly of the strings that are not blank. *)
Lemma trim_empty s : String.eqb (JS.trim s) "" = all_white s.
Proof.
  destruct (all_white s) eqn:E.
  - apply trim_start_empty in E. unfold JS.trim. rewrite E. reflexivity.
  - apply String.eqb_neq. intros H. unfold JS.trim in H.
    apply rev_onto_empty in H. destruct H as [H _]. apply trim_start_empty in H.
    rewrite all_white_rev, all_white_trim_start in H. congruence.
Qed.

Lemma has_text_non_blank msg : has_text msg = non_blank_text msg.
Proof.
  unfold has_text, non_blank_text. destruct (text msg) as [s|]; [|reflexivity].
  rewrite trim_empty. destruct s; reflexivity.
Qed.

Lemma to_context_tagged msg : has_text msg = true -> to_context msg = tagged msg.
Proof.
  unfold has_text, to_context, tagged, by_bot, or_else.
  destruct (text msg) as [s|]; [|discriminate].
  destruct (JS.truthy s); [|discriminate]. intros _.
  destruct (user msg) as [u|]; reflexivity.
Qed.

Lemma context_window_amended state_messages inbound message :
  context_window state_messages inbound message =
  amended_context_window state_messages inbound message.
Proof.
  unfold context_window, amended_context_window, reply_tail.
  rewrite slice_minus_5.
  assert (Hmap : map to_context (List.filter has_text (most_recent 5 state_messages)) =
                 map tagged (List.filter non_blank_text (most_recent 5 state_messages))).
  { induction (most_recent 5 state_messages) as [|msg l IH]; [reflexivity|].
    simpl. rewrite <- has_text_non_blank.
    destruct (has_text msg) eqn:E; [|exact IH].
    simpl. rewrite IH, (to_context_tagged _ E). reflexivity. }
  rewrite Hmap. destruct (parent_id inbound); [reflexivity|].
  symmetry. apply app_nil_r.
Qed.

End ContextWindow.

Section TurnHandling.
Import Inbound LlamaAgent.

Lemma most_recent_length {A} n (l : list A) : length (most_recent n l) <= n.
Proof. unfold most_recent. rewrite length_reverse, length_take. lia. Qed.

Lemma amended_context_window_bounded state_messages inbound message :
  length (amended_context_window state_messages inbound message) <= 6.
Proof.
  unfold amended_context_window, reply_tail.
  rewrite length_app, length_map.
  pose proof (List.filter_length_le non_blank_text (most_recent 5 state_messages)).
  pose proof (most_recent_length 5 state_messages).
  destruct (parent_id inbound); simpl; lia.
Qed.

(** [LlamaAgent.init] always resolves: the endpoint falls back to the local
    default, so its missing-configuration [throw] is never reached. *)
Lemma llama_init_resolves env a :
  exists a', LlamaAgent.init env a = inl a'
             /\ JS.truthy_opt (apiEndpoint a') = true
             /\ JS.truthy_opt (modelName a') = true.
Proof.
  unfold LlamaAgent.init, or_else.
  destruct (LLAMA_API_ENDPOINT env) as [[|c s]|], (LLAMA_MODEL_NAME env) as [[|d t]|];
    simpl; eexists; repeat split.
Qed.

(** C8, as stated, fails: a conversation whose only message is one blank
    character has a message with non-empty text among its most recent 5,
    yet the context the code builds for the next turn is empty. *)
Lemma blank_message_is_left_out_of_context :
  let blank := {| text := Some " "%string; user := Some {| id := "andrew356" |};
                  ai_generated := false; parent_id := None |} in
  let hello := {| text := Some "hello"%string; user := Some {| id := "andrew356" |};
                  ai_generated := false; parent_id := None |} in
  context_window [blank] hello "hello" = []
  /\ claimed_context_window [blank] hello "hello" =
       [{| role := user_role; content := " " |}]
  /\ claimed_context_window' [blank] hello "hello" =
       [{| role := user_role; content := " " |}]
  /\ (context_window [blank] hello "hello" =
      claimed_context_window [blank] hello "hello" -> False)
  /\ (context_window [blank] hello "hello" =
      claimed_context_window' [blank] hello "hello" -> False).
Proof. cbv zeta. repeat split; intros H; discriminate H. Qed.

(** C8, amended: [handleMessage] makes no call at all for an event without
    message, for a message flagged [ai_generated] and for one without text;
    for any other message an initialised agent creates the placeholder,
    signals thinking and calls the provider with a context made of those of
    the most recent 5 conversation messages whose text is not blank (not
    empty once trimmed), in order, each tagged assistant when its author's
    id is a bot's and user otherwise, followed by the inbound text as a user
    entry exactly when the inbound message is a threaded reply; the context
    has at most 6 entries. *)
Theorem handleMessage_skips_or_sends_recent_context
    (now : nat) (state_messages : list ChannelMessage) (stream_opens : bool)
    (e : Event) (a : LlamaAgent.t) :
  ((message e = None
    \/ exists m, message e = Some m
                 /\ (ai_generated m = true \/ JS.truthy_opt (text m) = false)) ->
   handleMessage now state_messages stream_opens e a = (a, []))
  /\ (forall m t,
        JS.truthy_opt (apiEndpoint a) = true ->
        JS.truthy_opt (modelName a) = true ->
        message e = Some m -> ai_generated m = false ->
        text m = Some t -> t <> EmptyString ->
        exists closing,
          (handleMessage now state_messages stream_opens e a).2 =
            [channel_sendMessage "" true;
             channel_sendEvent (Chat.ai_indicator_update Chat.AI_STATE_THINKING);
             axios_post_api_chat (modelName a)
               (amended_context_window state_messages m t)] ++ closing
          /\ closing =
               (if stream_opens then [handler_run]
                else [chatClient_partialUpdateMessage
                        {| Chat.set_text := Some open_failure_text;
                           Chat.set_generating := Some false |};
                      channel_sendEvent Chat.ai_indicator_clear])
          /\ length (amended_context_window state_messages m t) <= 6
          /\ (is_Some (parent_id m) ->
              last (amended_context_window state_messages m t) =
                Some {| role := user_role; content := t |})
          /\ (parent_id m = None ->
              amended_context_window state_messages m t =
                map tagged (List.filter non_blank_text (most_recent 5 state_messages)))).
Proof.
  split.
  - intros Hskip. unfold handleMessage.
    destruct (negb (JS.truthy_opt (apiEndpoint a)) || negb (JS.truthy_opt (modelName a)));
      [reflexivity|].
    destruct Hskip as [->|(m & -> & [->|Ht])]; try reflexivity.
    destruct (ai_generated m); [reflexivity|].
    destruct (text m) as [t|]; [|reflexivity].
    simpl in Ht. rewrite Ht. reflexivity.
  - intros m t Hep Hmn Hm Hai Ht Hne. unfold handleMessage.
    rewrite Hep, Hmn, Hm, Hai, Ht, (truthy_nonempty _ Hne). simpl.
    rewrite context_window_amended.
    eexists. split; [|split; [reflexivity|split; [|split]]].
    + destruct stream_opens; reflexivity.
    + apply amended_context_window_bounded.
    + intros [p Hp]. unfold amended_context_window, reply_tail. rewrite Hp.
      apply last_snoc.
    + intros Hp. unfold amended_context_window, reply_tail. rewrite Hp.
      apply app_nil_r.
Qed.

Lemma handleMessage_context_witness :
  let agent := {| apiEndpoint := Some "http://localhost:11434"%string;
                  modelName := Some "llama2"%string;
                  handlers := 0; lastInteractionTs := 0 |} in
  let human t p := {| text := Some t; user := Some {| id := "andrew356" |};
                      ai_generated := false; parent_id := p |} in
  let bot t := {| text := Some t; user := Some {| id := "ai-bot-demo-channel" |};
                  ai_generated := true; parent_id := None |} in
  let state := [human "one"%string None; bot "two"%string; human "  "%string None;
                human "three"%string None; bot "four"%string;
                human "five"%string (Some "m4"%string)] in
  exists closing,
    (handleMessage 7 state true
       (message_new (human "five"%string (Some "m4"%string))) agent).2 =
      [channel_sendMessage "" true;
       channel_sendEvent (Chat.ai_indicator_update Chat.AI_STATE_THINKING);
       axios_post_api_chat (Some "llama2"%string)
         [{| role := assistant; content := "two" |};
          {| role := user_role; content := "three" |};
          {| role := assistant; content := "four" |};
          {| role := user_role; content := "five" |};
          {| role := user_role; content := "five" |}]] ++ closing.
Proof.
  intros agent human bot state.
  destruct (handleMessage_skips_or_sends_recent_context 7 state true
              (message_new (human "five"%string (Some "m4"%string))) agent) as [_ H].
  destruct (H (human "five"%string (Some "m4"%string)) "five"%string
              eq_refl eq_refl eq_refl eq_refl eq_refl ltac:(discriminate))
    as (closing & Hcalls & _).
  exists closing. exact Hcalls.
Defined.

End TurnHandling.

(** ** Interleaved start requests *)

Section StartRequests.
Import Server.
Import JS (Outcome, resolved, rejected).

Local Opaque start_user_id.

Ltac step_splits :=
  simpl;
  repeat (case_bool_decide; simpl);
  repeat match goal with
         | |- context [negb (JS.truthy ?c)] => destruct (JS.truthy c) eqn:?; simpl
         end.

Ltac step_unfold :=
  unfold step_request, leave, at_pc, cache_has, pending_has, in_flight, user_id.

(** The cases of one step, for any outcome and for a resolved one. *)
Ltac step_cases rq o :=
  step_unfold; destruct (pc rq) eqn:?; destruct o; step_splits.

Ltac step_cases_resolved rq :=
  step_unfold; destruct (pc rq) eqn:?; step_splits.

Lemma step_request_channel i o rq reg :
  channel_id (step_request i o rq reg).1 = channel_id rq.
Proof. step_cases rq o; reflexivity. Qed.

Lemma step_request_user_id i o rq reg :
  user_id (step_request i o rq reg).1 = user_id rq.
Proof. unfold user_id. rewrite step_request_channel. reflexivity. Qed.

(** No step replaces or removes an entry of the cache. *)
Lemma step_request_cache_mono i o rq reg k a :
  aiAgentCache reg !! k = Some a ->
  aiAgentCache (step_request i o rq reg).2 !! k = Some a.
Proof.
  intros Hk. step_cases rq o; try exact Hk.
  rewrite lookup_insert_ne; [exact Hk|].
  intros <-. match goal with H : ¬ is_Some _ |- _ => apply H end. eauto.
Qed.

Lemma step_request_pending_in i o rq reg u :
  u ∈ pendingAiAgents (step_request i o rq reg).2 ->
  u ∈ pendingAiAgents reg
  \/ (u = user_id rq /\ in_flight (step_request i o rq reg).1 = true).
Proof.
  step_cases rq o;
    rewrite ?elem_of_difference, ?elem_of_union, ?elem_of_singleton; tauto.
Qed.

Lemma step_request_pending_out i o rq reg :
  in_flight rq = true ->
  in_flight (step_request i o rq reg).1 = false ->
  user_id rq ∉ pendingAiAgents (step_request i o rq reg).2.
Proof.
  step_cases rq o; try discriminate;
    rewrite ?elem_of_difference, ?elem_of_singleton; tauto.
Qed.

Lemma step_request_dispose i o rq reg :
  (pc rq = await_dispose -> is_Some (aiAgentCache reg !! user_id rq)) ->
  pc (step_request i o rq reg).1 = await_dispose ->
  is_Some (aiAgentCache (step_request i o rq reg).2 !! user_id rq).
Proof. step_cases rq o; try discriminate; try tauto; congruence. Qed.

(** With its awaited call resolved, a request in flight stays in flight or
    leaves with its key in the cache. *)
Lemma step_request_flight_resolved i rq reg :
  (pc rq = await_dispose -> is_Some (aiAgentCache reg !! user_id rq)) ->
  in_flight rq = true ->
  in_flight (step_request i resolved rq reg).1 = true
  \/ is_Some (aiAgentCache (step_request i resolved rq reg).2 !! user_id rq).
Proof.
  step_cases_resolved rq; try discriminate; try tauto.
  intros _ _. right. rewrite lookup_insert_eq. eauto.
Qed.

Lemma step_request_entry i o rq reg :
  pc rq = at_entry -> JS.truthy (channel_id rq) = true ->
  in_flight (step_request i o rq reg).1 = true
  \/ is_Some (aiAgentCache reg !! user_id rq)
  \/ user_id rq ∈ pendingAiAgents reg.
Proof. step_cases rq o; try discriminate; try congruence; tauto. Qed.

Lemma step_request_finished i o rq reg st :
  pc rq = finished st -> step_request i o rq reg = (rq, reg).
Proof. intros H. unfold step_request. rewrite H. destruct o; reflexivity. Qed.

(** What becomes of the agent a request created, its awaited calls
    resolving: it is installed under the request's key or disposed. *)
Lemma step_request_fate i rq reg :
  (created rq = true ->
   pc rq = await_init
   \/ aiAgentCache reg !! user_id rq = Some (created_by i)
   \/ disposed rq = true) ->
  created (step_request i resolved rq reg).1 = true ->
  pc (step_request i resolved rq reg).1 = await_init
  \/ aiAgentCache (step_request i resolved rq reg).2 !! user_id rq = Some (created_by i)
  \/ disposed (step_request i resolved rq reg).1 = true.
Proof.
  step_cases_resolved rq; intros Hinv Hc; try tauto;
    try (destruct (Hinv Hc) as [?|[?|?]]; (discriminate || tauto)).
  right. left. apply lookup_insert_eq.
Qed.

(** A new entry of the cache is the agent of the stepping request, put
    under its key as the request answers 200. *)
Lemma step_request_cache_origin i o rq reg k a :
  aiAgentCache (step_request i o rq reg).2 !! k = Some a ->
  aiAgentCache reg !! k = Some a
  \/ (k = user_id rq /\ a = created_by i /\ pc rq = await_init
      /\ pc (step_request i o rq reg).1 = finished status_200
      /\ disposed (step_request i o rq reg).1 = disposed rq).
Proof.
  step_cases rq o; auto.
  destruct (decide (start_user_id (channel_id rq) = k)) as [<-|Hne].
  - rewrite lookup_insert_eq. intros [= <-]. right. repeat split.
  - rewrite lookup_insert_ne by exact Hne. auto.
Qed.

Lemma step_request_disposed i o rq reg :
  (disposed rq = true -> pc rq = await_dispose \/ exists st, pc rq = finished st) ->
  disposed (step_request i o rq reg).1 = true ->
  pc (step_request i o rq reg).1 = await_dispose
  \/ exists st, pc (step_request i o rq reg).1 = finished st.
Proof.
  step_cases rq o; intros Hpre Hdone; eauto;
    destruct (Hpre Hdone) as [?|[? ?]]; congruence.
Qed.

(** *** The scheduler's steps *)

Lemma step_at s i o rq :
  requests s !! i = Some rq ->
  step s (i, o) =
    {| registry := (step_request i o rq (registry s)).2;
       requests := <[i := (step_request i o rq (registry s)).1]> (requests s) |}.
Proof.
  intros H. unfold step. rewrite H.
  destruct (step_request i o rq (registry s)). reflexivity.
Qed.

Lemma step_idle s i o : requests s !! i = None -> step s (i, o) = s.
Proof. intros H. unfold step. rewrite H. reflexivity. Qed.

Lemma step_finished s i o rq st :
  requests s !! i = Some rq -> pc rq = finished st -> step s (i, o) = s.
Proof.
  intros Hi Hpc. rewrite (step_at _ _ _ _ Hi), (step_request_finished _ _ _ _ _ Hpc).
  simpl. rewrite list_insert_id by exact Hi. destruct s; reflexivity.
Qed.

Lemma pc_cases rq :
  pc rq = at_entry \/ in_flight rq = true \/ exists st, pc rq = finished st.
Proof. unfold in_flight. destruct (pc rq); eauto. Qed.

(** An entry of the cache stays what it is, whatever is scheduled. *)
Lemma step_cache_mono s io k a :
  aiAgentCache (registry s) !! k = Some a ->
  aiAgentCache (registry (step s io)) !! k = Some a.
Proof.
  intros Hk. destruct io as [i o].
  destruct (requests s !! i) as [rq|] eqn:Hi.
  - rewrite (step_at _ _ _ _ Hi). simpl. apply step_request_cache_mono, Hk.
  - rewrite (step_idle _ _ _ Hi). exact Hk.
Qed.

Lemma run_cache_mono sched s k a :
  aiAgentCache (registry s) !! k = Some a ->
  aiAgentCache (registry (run sched s)) !! k = Some a.
Proof.
  revert s. induction sched as [|io sched IH]; intros s Hk; [exact Hk|].
  simpl. apply IH, step_cache_mono, Hk.
Qed.

Lemma step_channel_ids s io :
  channel_id <$> requests (step s io) = channel_id <$> requests s.
Proof.
  destruct io as [i o]. destruct (requests s !! i) as [rq|] eqn:Hi.
  - rewrite (step_at _ _ _ _ Hi). simpl. rewrite list_fmap_insert.
    rewrite step_request_channel. apply list_insert_id.
    rewrite list_lookup_fmap, Hi. reflexivity.
  - rewrite (step_idle _ _ _ Hi). reflexivity.
Qed.

Lemma run_channel_ids sched s :
  channel_id <$> requests (run sched s) = channel_id <$> requests s.
Proof.
  revert s. induction sched as [|io sched IH]; intros s; [reflexivity|].
  simpl. rewrite IH. apply step_channel_ids.
Qed.

(** *** Invariants of the registry under interleaved start requests *)

(** One step of a request that has not answered yet. *)
Lemma inv_any_step_live s i o rq :
  inv_any s -> requests s !! i = Some rq -> (forall st, pc rq <> finished st) ->
  inv_any {| registry := (step_request i o rq (registry s)).2;
             requests := <[i := (step_request i o rq (registry s)).1]> (requests s) |}.
Proof.
  intros [Hpend Hdisp Hinst Hdpc] Hi Hnofin.
  pose proof (lookup_lt_Some _ _ _ Hi) as Hlt.
  split; simpl.
  - intros u Hu.
    destruct (step_request_pending_in _ _ _ _ _ Hu) as [Hold|[-> Hfl]].
    + destruct (Hpend u Hold) as (j & rqj & Hj & Hkey & Hflj).
      destruct (decide (j = i)) as [->|Hne].
      * rewrite Hi in Hj. injection Hj as <-.
        destruct (in_flight (step_request i o rq (registry s)).1) eqn:E.
        -- exists i, (step_request i o rq (registry s)).1.
           rewrite list_lookup_insert_eq by exact Hlt.
           rewrite step_request_user_id. auto.
        -- exfalso. subst u.
           exact (step_request_pending_out _ _ _ _ Hflj E Hu).
      * exists j, rqj. rewrite list_lookup_insert_ne by congruence. auto.
    + exists i, (step_request i o rq (registry s)).1.
      rewrite list_lookup_insert_eq by exact Hlt.
      rewrite step_request_user_id. auto.
  - intros j rqj Hj Hpc. destruct (decide (j = i)) as [->|Hne].
    + rewrite list_lookup_insert_eq in Hj by exact Hlt. injection Hj as <-.
      rewrite step_request_user_id.
      apply step_request_dispose; [apply (Hdisp i rq Hi) | exact Hpc].
    + rewrite list_lookup_insert_ne in Hj by congruence.
      destruct (Hdisp j rqj Hj Hpc) as [a Ha]. exists a.
      apply step_request_cache_mono, Ha.
  - intros k j Hk.
    destruct (step_request_cache_origin _ _ _ _ _ _ Hk)
      as [Hold|(-> & Hj & Hinit & Hfin & Hd)].
    + destruct (Hinst k j Hold) as (rqj & Hj & Hkey & Hpcj & Hdj).
      assert (j <> i).
      { intros ->. rewrite Hi in Hj. injection Hj as <-. exact (Hnofin _ Hpcj). }
      exists rqj. rewrite list_lookup_insert_ne by congruence. auto.
    + injection Hj as ->.
      exists (step_request i o rq (registry s)).1.
      rewrite list_lookup_insert_eq by exact Hlt.
      rewrite step_request_user_id. repeat split; [exact Hfin|].
      rewrite Hd. destruct (disposed rq) eqn:E; [|reflexivity].
      destruct (Hdpc i rq Hi E) as [?|[? ?]]; congruence.
  - intros j rqj Hj Hd. destruct (decide (j = i)) as [->|Hne].
    + rewrite list_lookup_insert_eq in Hj by exact Hlt. injection Hj as <-.
      apply step_request_disposed; [apply (Hdpc i rq Hi) | exact Hd].
    + rewrite list_lookup_insert_ne in Hj by congruence.
      exact (Hdpc j rqj Hj Hd).
Qed.

Lemma inv_any_step s io : inv_any s -> inv_any (step s io).
Proof.
  intros Hinv. destruct io as [i o].
  destruct (requests s !! i) as [rq|] eqn:Hi;
    [|rewrite (step_idle _ _ _ Hi); exact Hinv].
  destruct (pc_cases rq) as [Hstate|[Hstate|[st Hfin]]];
    [| |rewrite (step_finished _ _ _ _ _ Hi Hfin); exact Hinv].
  - rewrite (step_at _ _ _ _ Hi). apply inv_any_step_live; [exact Hinv|exact Hi|].
    intros st E. congruence.
  - rewrite (step_at _ _ _ _ Hi). apply inv_any_step_live; [exact Hinv|exact Hi|].
    intros st E. unfold in_flight in Hstate. rewrite E in Hstate. discriminate.
Qed.

Lemma inv_resolved_step s i :
  inv_any s -> inv_resolved s -> inv_resolved (step s (i, resolved)).
Proof.
  intros [Hpend Hdisp _ _] [Hprog Hfate].
  destruct (requests s !! i) as [rq|] eqn:Hi;
    [|rewrite (step_idle _ _ _ Hi); split; assumption].
  destruct (pc_cases rq) as [Hentry|[Hfl|[st Hfin]]];
    [| |rewrite (step_finished _ _ _ _ _ Hi Hfin); split; assumption].
  - (* the request runs its entry *)
    pose proof (lookup_lt_Some _ _ _ Hi) as Hlt.
    assert (Hnofl : in_flight rq = false) by (unfold in_flight; rewrite Hentry; reflexivity).
    rewrite (step_at _ _ _ _ Hi). split; simpl.
    + intros j rqj Hj Hne Htr. destruct (decide (j = i)) as [->|Hji].
      * rewrite list_lookup_insert_eq in Hj by exact Hlt. injection Hj as <-.
        rewrite step_request_channel in Htr. rewrite step_request_user_id.
        destruct (step_request_entry i resolved rq (registry s) Hentry Htr)
          as [Hnow|[[a Ha]|Hp]].
        -- right. exists i, (step_request i resolved rq (registry s)).1.
           rewrite list_lookup_insert_eq by exact Hlt.
           rewrite step_request_user_id. auto.
        -- left. exists a. apply step_request_cache_mono, Ha.
        -- right. destruct (Hpend _ Hp) as (l & rql & Hl & Hkey & Hfll).
           assert (l <> i) by (intros ->; congruence).
           exists l, rql. rewrite list_lookup_insert_ne by congruence. auto.
      * rewrite list_lookup_insert_ne in Hj by congruence.
        destruct (Hprog j rqj Hj Hne Htr) as [[a Ha]|(l & rql & Hl & Hkey & Hfll)].
        -- left. exists a. apply step_request_cache_mono, Ha.
        -- right. assert (l <> i) by (intros ->; congruence).
           exists l, rql. rewrite list_lookup_insert_ne by congruence. auto.
    + intros j rqj Hj Hc. destruct (decide (j = i)) as [->|Hji].
      * rewrite list_lookup_insert_eq in Hj by exact Hlt. injection Hj as <-.
        rewrite step_request_user_id.
        apply step_request_fate; [apply (Hfate i rq Hi) | exact Hc].
      * rewrite list_lookup_insert_ne in Hj by congruence.
        destruct (Hfate j rqj Hj Hc) as [?|[Ha|?]]; auto.
        right. left. apply step_request_cache_mono, Ha.
  - (* the request is resumed at an await *)
    pose proof (lookup_lt_Some _ _ _ Hi) as Hlt.
    pose proof (step_request_flight_resolved i rq (registry s) (Hdisp i rq Hi) Hfl) as Hnext.
    rewrite (step_at _ _ _ _ Hi). split; simpl.
    + intros j rqj Hj Hne Htr.
      assert (Hsame : user_id rqj = user_id rq ->
                is_Some (aiAgentCache (step_request i resolved rq (registry s)).2
                           !! user_id rqj)
                \/ exists l rql,
                     <[i := (step_request i resolved rq (registry s)).1]> (requests s) !! l
                       = Some rql
                     /\ user_id rql = user_id rqj /\ in_flight rql = true).
      { intros Hk. rewrite Hk. destruct Hnext as [Hnow|Hhas]; [right|left; exact Hhas].
        exists i, (step_request i resolved rq (registry s)).1.
        rewrite list_lookup_insert_eq by exact Hlt.
        rewrite step_request_user_id. auto. }
      destruct (decide (j = i)) as [->|Hji].
      * rewrite list_lookup_insert_eq in Hj by exact Hlt. injection Hj as <-.
        apply Hsame, step_request_user_id.
      * rewrite list_lookup_insert_ne in Hj by congruence.
        destruct (Hprog j rqj Hj Hne Htr) as [[a Ha]|(l & rql & Hl & Hkey & Hfll)].
        -- left. exists a. apply step_request_cache_mono, Ha.
        -- destruct (decide (l = i)) as [->|Hli].
           ++ rewrite Hi in Hl. injection Hl as <-. apply Hsame. symmetry. exact Hkey.
           ++ right. exists l, rql. rewrite list_lookup_insert_ne by congruence. auto.
    + intros j rqj Hj Hc. destruct (decide (j = i)) as [->|Hji].
      * rewrite list_lookup_insert_eq in Hj by exact Hlt. injection Hj as <-.
        rewrite step_request_user_id.
        apply step_request_fate; [apply (Hfate i rq Hi) | exact Hc].
      * rewrite list_lookup_insert_ne in Hj by congruence.
        destruct (Hfate j rqj Hj Hc) as [?|[Ha|?]]; auto.
        right. left. apply step_request_cache_mono, Ha.
Qed.

Lemma run_inv_any sched s : inv_any s -> inv_any (run sched s).
Proof.
  revert s. induction sched as [|io sched IH]; intros s H; [exact H|].
  simpl. apply IH, inv_any_step, H.
Qed.

Lemma run_inv_resolved sched s :
  all_resolved sched = true ->
  inv_any s -> inv_resolved s -> inv_resolved (run sched s).
Proof.
  revert s. induction sched as [|[i o] sched IH]; intros s Hall Ha Hr; [exact Hr|].
  simpl in Hall. apply andb_true_iff in Hall as [Ho Hall].
  destruct o; [|discriminate Ho].
  change (inv_resolved (run sched (step s (i, resolved)))).
  apply IH; [exact Hall | apply inv_any_step, Ha | apply inv_resolved_step; assumption].
Qed.

Lemma incoming_lookup cache0 channel_ids i rq :
  requests (start_requests cache0 channel_ids) !! i = Some rq ->
  pc rq = at_entry /\ created rq = false.
Proof.
  simpl. rewrite list_lookup_fmap.
  destruct (channel_ids !! i); simpl; [|discriminate].
  intros [= <-]. split; reflexivity.
Qed.

Lemma inv_any_start cache0 channel_ids : inv_any (start_requests cache0 channel_ids).
Proof.
  split.
  - simpl. intros u Hu. exfalso. exact (not_elem_of_empty u Hu).
  - intros i rq Hi Hpc. apply incoming_lookup in Hi as [Hentry _]. congruence.
  - simpl. intros k i. rewrite lookup_fmap.
    destruct (cache0 !! k); simpl; discriminate.
  - intros i rq Hi Hd. simpl in Hi. rewrite list_lookup_fmap in Hi.
    destruct (channel_ids !! i); simpl in Hi; [|discriminate].
    injection Hi as <-. discriminate Hd.
Qed.

Lemma inv_resolved_start cache0 channel_ids :
  inv_resolved (start_requests cache0 channel_ids).
Proof.
  split.
  - intros i rq Hi Hne. apply incoming_lookup in Hi as [Hentry _]. contradiction.
  - intros i rq Hi Hc. apply incoming_lookup in Hi as [_ Hno]. congruence.
Qed.

Lemma all_finished_lookup s i rq :
  all_finished s = true -> requests s !! i = Some rq ->
  in_flight rq = false /\ pc rq <> at_entry.
Proof.
  unfold all_finished. rewrite forallb_forall. intros Hall Hi.
  assert (Hin : In rq (requests s)).
  { apply list_elem_of_In, list_elem_of_lookup. eauto. }
  specialize (Hall rq Hin). unfold is_finished, in_flight in *.
  destruct (pc rq); try discriminate. split; [reflexivity | discriminate].
Qed.

(** A start request that finds its key cached or pending is coalesced: it
    answers 200 and leaves without creating an agent or touching the cache. *)
Lemma entry_coalesced i o rq reg :
  pc rq = at_entry -> JS.truthy (channel_id rq) = true ->
  is_Some (aiAgentCache reg !! user_id rq) \/ user_id rq ∈ pendingAiAgents reg ->
  (step_request i o rq reg).1 = at_pc (finished status_200) rq
  /\ aiAgentCache (step_request i o rq reg).2 = aiAgentCache reg.
Proof.
  intros Hentry Htr Hguard. unfold step_request, cache_has, pending_has.
  fold (user_id rq). rewrite Hentry, Htr. simpl.
  destruct Hguard as [Hc|Hp].
  - rewrite (bool_decide_eq_true_2 _ Hc). simpl. split; reflexivity.
  - rewrite (bool_decide_eq_true_2 _ Hp). rewrite andb_false_r. split; reflexivity.
Qed.

Local Transparent start_user_id.

(** C6: start requests, interleaved at their awaits in any order, against a
    registry.  (1) An agent already running under a key stays installed:
    start is idempotent.  (2) Whatever the outcomes of the awaited calls, an
    entry of the cache is never replaced or removed by a start, so a key
    holds one instance at any time and the first installed one wins.
    (3) An agent found in the cache under its request's key was installed
    as that request answered 200 and has not been disposed.  (4) Once all
    requests have answered, the pending set is empty.  (5) When the awaited
    calls resolve and all requests have answered, every conversation started
    has an instance in the cache, and every agent created is either that
    installed instance or was disposed; in particular two requests for one
    conversation leave one instance. *)
Theorem start_requests_leave_one_instance_per_conversation
    (cache0 : gmap string nat) (channel_ids : list string)
    (sched : list (nat * Outcome)) :
  let s := run sched (start_requests cache0 channel_ids) in
  (forall k n, cache0 !! k = Some n ->
     aiAgentCache (registry s) !! k = Some (running n))
  /\ (forall sched' k a,
       aiAgentCache (registry s) !! k = Some a ->
       aiAgentCache (registry (run sched' s)) !! k = Some a)
  /\ (forall i rq, requests s !! i = Some rq ->
       aiAgentCache (registry s) !! start_user_id (channel_id rq) = Some (created_by i) ->
       pc rq = finished status_200 /\ disposed rq = false)
  /\ (all_finished s = true -> pendingAiAgents (registry s) = ∅)
  /\ (all_resolved sched = true -> all_finished s = true ->
      (forall c, c ∈ channel_ids -> c <> EmptyString ->
         is_Some (aiAgentCache (registry s) !! start_user_id c))
      /\ (forall i rq, requests s !! i = Some rq -> created rq = true ->
           aiAgentCache (registry s) !! start_user_id (channel_id rq)
             = Some (created_by i)
           \/ disposed rq = true)).
Proof.
  intros s.
  pose proof (run_inv_any sched _ (inv_any_start cache0 channel_ids))
    as [Hpend _ Hlive _].
  fold s in Hpend, Hlive.
  split; [|split; [|split; [|split]]].
  - intros k n Hk. subst s. apply run_cache_mono. simpl.
    rewrite lookup_fmap, Hk. reflexivity.
  - intros sched' k a Hk. apply run_cache_mono, Hk.
  - intros i rq Hi Hk.
    destruct (Hlive _ _ Hk) as (rq' & Hi' & _ & Hpc & Hd).
    rewrite Hi in Hi'. injection Hi' as <-. split; assumption.
  - intros Hfin. apply elem_of_equiv_empty_L. intros u Hu.
    destruct (Hpend u Hu) as (i & rq & Hi & _ & Hfl).
    destruct (all_finished_lookup s i rq Hfin Hi) as [Hno _]. congruence.
  - intros Hres Hfin.
    pose proof (run_inv_resolved sched _ Hres (inv_any_start cache0 channel_ids)
                  (inv_resolved_start cache0 channel_ids)) as [Hprog Hfate].
    fold s in Hprog, Hfate. split.
    + intros c Hc Hne.
      assert (Hids : channel_id <$> requests s = channel_ids).
      { subst s. rewrite run_channel_ids. simpl. rewrite <- list_fmap_compose.
        apply list_fmap_id. }
      rewrite <- Hids in Hc. apply list_elem_of_fmap in Hc as (rq & -> & Hrq).
      apply list_elem_of_lookup in Hrq as [i Hi].
      destruct (all_finished_lookup s i rq Hfin Hi) as [Hno Hleft].
      destruct (Hprog i rq Hi Hleft (truthy_nonempty _ Hne))
        as [Hhas|(j & rq' & Hj & _ & Hfl)]; [exact Hhas|].
      destruct (all_finished_lookup s j rq' Hfin Hj) as [Hno' _]. congruence.
    + intros i rq Hi Hc.
      destruct (all_finished_lookup s i rq Hfin Hi) as [Hno _].
      destruct (Hfate i rq Hi Hc) as [Hinit|[Hin|Hd]];
        [|left; exact Hin|right; exact Hd].
      unfold in_flight in Hno. rewrite Hinit in Hno. discriminate.
Qed.

(** Two concurrent start requests for [demo-channel]: the second enters
    while the first is in flight and is coalesced; the first installs. *)
Lemma start_twice_witness :
  let sched := [(0, resolved); (1, resolved); (0, resolved); (0, resolved);
                (0, resolved); (0, resolved); (0, resolved)] in
  let s := run sched (start_requests ∅ ["demo-channel"%string; "demo-channel"%string]) in
  all_resolved sched = true
  /\ all_finished s = true
  /\ pendingAiAgents (registry s) = ∅
  /\ is_Some (aiAgentCache (registry s) !! "ai-bot-demo-channel"%string)
  /\ (created <$> requests s) = [true; false].
Proof.
  intros sched s.
  destruct (start_requests_leave_one_instance_per_conversation
              ∅ ["demo-channel"%string; "demo-channel"%string] sched)
    as (_ & _ & _ & Hpend & Hres).
  split; [reflexivity|]. split; [reflexivity|].
  split; [exact (Hpend eq_refl)|].
  destruct (Hres eq_refl eq_refl) as [Hinst _].
  split; [|reflexivity].
  apply (Hinst "demo-channel"%string); [apply list_elem_of_here | discriminate].
Defined.

(** Three requests: the second is coalesced and its [finally] empties the
    pending set, so the third starts a creation of its own; it installs
    first, and the first request, finding the key cached after its [init],
    disposes the agent it created. *)
Example third_request_installs_first_disposes :
  let sched := [(0, resolved); (1, resolved); (2, resolved);
                (2, resolved); (2, resolved); (2, resolved); (2, resolved); (2, resolved);
                (0, resolved); (0, resolved); (0, resolved); (0, resolved); (0, resolved);
                (0, resolved)] in
  let s := run sched (start_requests ∅ ["demo-channel"%string; "demo-channel"%string;
                                          "demo-channel"%string]) in
  all_finished s = true
  /\ aiAgentCache (registry s) !! "ai-bot-demo-channel"%string = Some (created_by 2)
  /\ (created <$> requests s) = [true; false; true]
  /\ (disposed <$> requests s) = [true; false; false].
Proof. cbv zeta. repeat split; vm_compute; reflexivity. Qed.

(** Starts only add entries under keys of their own making. *)
Lemma step_start_keyed s io :
  start_keyed (aiAgentCache (registry s)) ->
  start_keyed (aiAgentCache (registry (step s io))).
Proof.
  intros Hkeyed. destruct io as [i o].
  destruct (requests s !! i) as [rq|] eqn:Hi;
    [|rewrite (step_idle _ _ _ Hi); exact Hkeyed].
  rewrite (step_at _ _ _ _ Hi). simpl. intros k [a Ha].
  destruct (step_request_cache_origin _ _ _ _ _ _ Ha) as [Hold|(-> & _)].
  - apply Hkeyed. eauto.
  - exists (channel_id rq). reflexivity.
Qed.

Lemma run_start_keyed sched s :
  start_keyed (aiAgentCache (registry s)) ->
  start_keyed (aiAgentCache (registry (run sched s))).
Proof.
  revert s. induction sched as [|io sched IH]; intros s H; [exact H|].
  simpl. apply IH, step_start_keyed, H.
Qed.

(** Every key of a cache filled by start requests is a start key. *)
Lemma started_registry_start_keyed channel_ids sched :
  start_keyed (aiAgentCache (registry (run sched (start_requests ∅ channel_ids)))).
Proof.
  apply run_start_keyed. simpl. intros k [a Ha].
  rewrite fmap_empty, lookup_empty in Ha. discriminate Ha.
Qed.

End StartRequests.

(** ** Registry keys *)

Section RegistryKeys.
Import Server.

Lemma append_inj_r (p a b : string) : (p ++ a)%string = (p ++ b)%string -> a = b.
Proof.
  induction p as [|c p IH]; [trivial|].
  change (String c (p ++ a)%string = String c (p ++ b)%string -> a = b).
  intros [= H]. apply IH, H.
Qed.

Lemma includes_remove_all c d s :
  c <> d -> JS.includes c (JS.remove_all d s) = JS.includes c s.
Proof.
  intros Hne. induction s as [|x s IH]; simpl; [reflexivity|].
  destruct (Ascii.eqb_spec x d) as [->|Hxd].
  - rewrite IH. destruct (Ascii.eqb_spec d c); [congruence | reflexivity].
  - simpl. rewrite IH. reflexivity.
Qed.

(** The first part of [s.split(c)] is [s] up to its first [c]; the other
    parts are those of what follows that [c]. *)
Lemma split_first c s :
  exists p ps,
    JS.split c s = p :: ps
    /\ JS.includes c p = false
    /\ ((s = p /\ ps = [] /\ JS.includes c s = false)
        \/ exists t, s = (p ++ String c t)%string /\ ps = JS.split c t
                     /\ JS.includes c s = true).
Proof.
  induction s as [|d s IH]; simpl.
  - exists EmptyString, []. repeat split. left. repeat split.
  - destruct IH as (p & ps & Hsplit & Hp & Hs).
    destruct (Ascii.eqb_spec d c) as [->|Hdc].
    + exists EmptyString, (JS.split c s). repeat split.
      right. exists s. repeat split.
    + rewrite Hsplit. exists (String d p), ps. split; [reflexivity|]. split.
      * simpl. destruct (Ascii.eqb_spec d c); [contradiction | exact Hp].
      * destruct Hs as [(-> & -> & Hi)|(t & -> & -> & Hi)].
        -- left. repeat split. exact Hi.
        -- right. exists t. repeat split. exact Hi.
Qed.

(** The second part of a split string: the segment between the first
    separator and the next one, or the end of the string. *)
Lemma split_second c s :
  JS.includes c s = true ->
  exists before segment tail,
    s = (before ++ String c (segment ++ tail))%string
    /\ JS.includes c before = false
    /\ JS.includes c segment = false
    /\ (tail = EmptyString \/ exists t, tail = String c t)
    /\ JS.split c s !! 1%nat = Some segment
    /\ 1 < length (JS.split c s).
Proof.
  intros Hin.
  destruct (split_first c s) as (p & ps & Hsplit & Hp & [(_ & _ & Hno)|(t & -> & -> & _)]);
    [congruence|].
  destruct (split_first c t) as (q & qs & Hsplit' & Hq & Ht).
  exists p, q.
  destruct Ht as [(-> & -> & _)|(t' & -> & -> & _)].
  - exists EmptyString. rewrite append_nil_r, Hsplit, Hsplit'.
    repeat split; try assumption; [left; reflexivity | simpl; lia].
  - exists (String c t'). rewrite Hsplit, Hsplit'.
    repeat split; try assumption; [right; eexists; reflexivity | simpl; lia].
Qed.

Lemma colon_not_bang : ":"%char <> "!"%char.
Proof. discriminate. Qed.

(** The key of a start request holds no colon after its prefix. *)
Lemma start_user_id_colon_free channel_id :
  exists k, start_user_id channel_id = ("ai-bot-" ++ k)%string
            /\ JS.includes ":" k = false.
Proof.
  unfold start_user_id. destruct (JS.includes ":" channel_id) eqn:Hin.
  - destruct (split_second ":" channel_id Hin)
      as (before & segment & tail & _ & _ & Hseg & _ & Hidx & Hlen).
    apply Nat.ltb_lt in Hlen. rewrite Hlen, Hidx. simpl.
    eexists. split; [reflexivity|].
    rewrite includes_remove_all by apply colon_not_bang. exact Hseg.
  - eexists. split; [reflexivity|].
    rewrite includes_remove_all by apply colon_not_bang. exact Hin.
Qed.

(** The key of the other endpoints holds every colon of the channel id. *)
Lemma lookup_user_id_keeps_colon channel_id :
  exists k, lookup_user_id channel_id = ("ai-bot-" ++ k)%string
            /\ JS.includes ":" k = JS.includes ":" channel_id.
Proof.
  unfold lookup_user_id. eexists. split; [reflexivity|].
  apply includes_remove_all, colon_not_bang.
Qed.

Lemma lookup_user_id_not_start_key channel_id c :
  JS.includes ":" channel_id = true -> lookup_user_id channel_id <> start_user_id c.
Proof.
  intros Hin Heq.
  destruct (start_user_id_colon_free c) as (k & Hk & Hfree).
  destruct (lookup_user_id_keeps_colon channel_id) as (k' & Hk' & Hkeep).
  rewrite Hk, Hk' in Heq. apply append_inj_r in Heq. subst k'.
  congruence.
Qed.

(** C10: for a channel id that contains a colon, the start endpoint keys the
    registry by the segment between the first colon and the next one (or the
    end), without its exclamation marks, whereas the stop, switch-model and
    active-model endpoints compute their key from the whole channel id; the
    two keys differ, so that with the same channel id as the start that
    installed an agent, stop finds nothing and leaves the entry in the
    cache, and switch-model and active-model answer 404. *)
Theorem colon_channel_id_is_keyed_differently
    (Agent : Type) (instanceof_MultiModelAgent : Agent -> bool)
    (channel_id platform : string) (aiAgentCache : gmap string Agent) (agent : Agent) :
  JS.includes ":" channel_id = true ->
  start_keyed aiAgentCache ->
  aiAgentCache !! start_user_id channel_id = Some agent ->
  (exists before segment tail,
      channel_id = (before ++ String ":" (segment ++ tail))%string
      /\ JS.includes ":" before = false
      /\ JS.includes ":" segment = false
      /\ (tail = EmptyString \/ exists t, tail = String ":" t)
      /\ start_user_id channel_id = ("ai-bot-" ++ JS.remove_all "!" segment)%string)
  /\ lookup_user_id channel_id = ("ai-bot-" ++ JS.remove_all "!" channel_id)%string
  /\ start_user_id channel_id <> lookup_user_id channel_id
  /\ aiAgentCache !! lookup_user_id channel_id = None
  /\ stop_ai_agent Agent channel_id aiAgentCache = (aiAgentCache, None, status_200)
  /\ (stop_ai_agent Agent channel_id aiAgentCache).1.1 !! start_user_id channel_id
       = Some agent
  /\ (platform <> EmptyString ->
      switch_model Agent instanceof_MultiModelAgent channel_id platform aiAgentCache
        = (status_404, None))
  /\ active_model Agent channel_id aiAgentCache = (status_404, None).
Proof.
  intros Hin Hkeyed Hinstalled.
  assert (Hnone : aiAgentCache !! lookup_user_id channel_id = None).
  { destruct (aiAgentCache !! lookup_user_id channel_id) as [x|] eqn:E; [|reflexivity].
    destruct (Hkeyed (lookup_user_id channel_id)) as [c Hc]; [rewrite E; eauto|].
    exfalso. exact (lookup_user_id_not_start_key channel_id c Hin Hc). }
  assert (Hne : channel_id <> EmptyString) by (intros ->; discriminate Hin).
  split; [|split; [reflexivity|split; [|split; [exact Hnone|]]]].
  - destruct (split_second ":" channel_id Hin)
      as (before & segment & tail & Hs & Hb & Hseg & Htail & Hidx & Hlen).
    exists before, segment, tail. repeat split; try assumption.
    unfold start_user_id. apply Nat.ltb_lt in Hlen. rewrite Hin, Hlen, Hidx.
    reflexivity.
  - intros Heq. symmetry in Heq.
    exact (lookup_user_id_not_start_key channel_id channel_id Hin Heq).
  - unfold stop_ai_agent, switch_model, active_model.
    rewrite Hnone, (truthy_nonempty _ Hne). simpl.
    repeat split; [exact Hinstalled|].
    intros Hp. rewrite (truthy_nonempty _ Hp). reflexivity.
Qed.

(** A start with channel id [messaging:demo-channel] installs under the key
    of [demo-channel]; a stop with the same channel id looks elsewhere and
    the agent stays in the cache. *)
Lemma colon_channel_id_witness :
  let sched := [(0, JS.resolved); (0, JS.resolved); (0, JS.resolved);
                (0, JS.resolved); (0, JS.resolved); (0, JS.resolved)] in
  let started := run sched (start_requests ∅ ["messaging:demo-channel"%string]) in
  let cache := aiAgentCache (registry started) in
  start_user_id "messaging:demo-channel" = "ai-bot-demo-channel"%string
  /\ lookup_user_id "messaging:demo-channel" = "ai-bot-messaging:demo-channel"%string
  /\ cache !! "ai-bot-demo-channel"%string = Some (created_by 0)
  /\ stop_ai_agent Instance "messaging:demo-channel" cache = (cache, None, status_200)
  /\ active_model Instance "messaging:demo-channel" cache = (status_404, None).
Proof.
  intros sched started cache.
  assert (Hinstalled : cache !! start_user_id "messaging:demo-channel"
                       = Some (created_by 0)) by reflexivity.
  destruct (colon_channel_id_is_keyed_differently Instance (fun _ => true)
              "messaging:demo-channel" "openai" cache (created_by 0)
              eq_refl
              (started_registry_start_keyed ["messaging:demo-channel"%string] sched)
              Hinstalled)
    as (_ & _ & _ & _ & Hstop & _ & _ & Hactive).
  split; [reflexivity|]. split; [reflexivity|]. split; [exact Hinstalled|].
  split; [exact Hstop | exact Hactive].
Defined.

End RegistryKeys.

(** ** The router over sequences of events, and its disposal *)

Section RouterDelivery.
Import Inbound MultiModelAgent.
Import JS (Outcome, resolved, rejected).

Variable defines_handleMessage : AIAgent -> bool.

Lemma handleModelSwitch_keeps e r :
  agents (handleModelSwitch e r).1 = agents r
  /\ listeners (handleModelSwitch e r).1 = listeners r.
Proof.
  unfold handleModelSwitch. destruct (data_platform e) as [p|]; [|tauto].
  destruct (negb (JS.truthy p)); [tauto|].
  destruct (negb (map_has p (agents r))); [tauto|].
  destruct (map_get p (agents r)); simpl; tauto.
Qed.

Lemma handleModelSwitchError_keeps e r :
  agents (handleModelSwitchError e r).1 = agents r
  /\ listeners (handleModelSwitchError e r).1 = listeners r.
Proof.
  unfold handleModelSwitchError. destruct (negb _); [tauto|].
  destruct (first_other _ _) as [[p a]|]; simpl; tauto.
Qed.

Lemma handleMessage_keeps now e r :
  agents (handleMessage defines_handleMessage now e r).1 = agents r
  /\ listeners (handleMessage defines_handleMessage now e r).1 = listeners r.
Proof.
  unfold handleMessage. simpl. destruct (map_get _ _); [simpl; tauto|].
  destruct (agents r) as [|[p a] m]; simpl; tauto.
Qed.

Lemma deliver_keeps type now e r :
  agents (deliver defines_handleMessage type now e r).1 = agents r
  /\ listeners (deliver defines_handleMessage type now e r).1 = listeners r.
Proof.
  unfold deliver. destruct (existsb _ _); [|tauto].
  destruct (String.eqb type "message.new"); [apply handleMessage_keeps|].
  destruct (String.eqb type "custom_model_switch"); [apply handleModelSwitch_keeps|].
  destruct (String.eqb type "custom_model_switch_error");
    [apply handleModelSwitchError_keeps | tauto].
Qed.

Lemma deliver_all_keeps (evs : list (string * nat * Event)) (r : MultiModelAgent.t) :
  agents (deliver_all defines_handleMessage evs r).1 = agents r
  /\ listeners (deliver_all defines_handleMessage evs r).1 = listeners r.
Proof.
  revert r. induction evs as [|[[type now] e] evs IH]; intros r; [split; reflexivity|].
  simpl. pose proof (deliver_keeps type now e r) as [Ha Hl].
  destruct (deliver defines_handleMessage type now e r) as [r1 calls1].
  pose proof (IH r1) as [Ha' Hl'].
  destruct (deliver_all defines_handleMessage evs r1) as [r2 calls2].
  simpl in *. split; congruence.
Qed.

(** X1: whatever events are delivered, in whatever order, the router's
    provider map and its registered listeners stay what they were, and so
    does the list of available models it reports: the handlers only ever
    move the active selector and the interaction time. *)
Theorem delivered_events_keep_map_and_listeners
    (evs : list (string * nat * Event)) (r : MultiModelAgent.t) :
  agents (deliver_all defines_handleMessage evs r).1 = agents r
  /\ listeners (deliver_all defines_handleMessage evs r).1 = listeners r
  /\ getAvailableModels (deliver_all defines_handleMessage evs r).1
       = getAvailableModels r.
Proof.
  destruct (deliver_all_keeps evs r) as [Ha Hl].
  unfold getAvailableModels. rewrite Ha. auto.
Qed.

Lemma In_map_has k a m : In (k, a) m -> map_has k m = true.
Proof.
  unfold map_has. induction m as [|[k' a'] m IH]; simpl; [tauto|].
  destruct (String.eqb_spec k' k) as [->|Hne]; [reflexivity|].
  intros [[= ? ?]|Hin]; [contradiction | exact (IH Hin)].
Qed.

Lemma handleModelSwitch_valid e r :
  selector_valid r -> selector_valid (handleModelSwitch e r).1.
Proof.
  unfold selector_valid, handleModelSwitch. intros Hv.
  destruct (data_platform e) as [p|]; [|exact Hv].
  destruct (negb (JS.truthy p)); [exact Hv|].
  destruct (map_has p (agents r)) eqn:Hp; simpl; [|exact Hv].
  destruct (map_get p (agents r)); simpl; [exact Hp | exact Hv].
Qed.

Lemma handleModelSwitchError_valid e r :
  selector_valid r -> selector_valid (handleModelSwitchError e r).1.
Proof.
  unfold selector_valid, handleModelSwitchError. intros Hv.
  destruct (negb _); [exact Hv|].
  destruct (first_other _ _) as [[p a]|] eqn:Hf; simpl; [|exact Hv].
  destruct (first_other_Some _ _ _ _ Hf) as (_ & before & after & Hm & _).
  apply (In_map_has p a). rewrite Hm. apply in_or_app. right. left. reflexivity.
Qed.

Lemma handleMessage_valid now e r :
  agents r <> [] -> selector_valid (handleMessage defines_handleMessage now e r).1.
Proof.
  unfold selector_valid, handleMessage. simpl. intros Hne.
  destruct (map_get (activeAgent r) (agents r)) eqn:Hg; simpl.
  - unfold map_has. rewrite Hg. reflexivity.
  - destruct (agents r) as [|[p a] m] eqn:Hm; [contradiction|]. simpl.
    unfold map_has. simpl. rewrite String.eqb_refl. reflexivity.
Qed.

Lemma selector_valid_nonempty r : selector_valid r -> agents r <> [].
Proof. unfold selector_valid, map_has. intros H E. rewrite E in H. discriminate H. Qed.

Lemma deliver_valid type now e r :
  selector_valid r -> selector_valid (deliver defines_handleMessage type now e r).1.
Proof.
  intros Hv. unfold deliver. destruct (existsb _ _); [|exact Hv].
  destruct (String.eqb type "message.new");
    [apply handleMessage_valid, selector_valid_nonempty, Hv|].
  destruct (String.eqb type "custom_model_switch"); [apply handleModelSwitch_valid, Hv|].
  destruct (String.eqb type "custom_model_switch_error");
    [apply handleModelSwitchError_valid, Hv | exact Hv].
Qed.

Lemma deliver_all_valid (evs : list (string * nat * Event)) (r : MultiModelAgent.t) :
  selector_valid r -> selector_valid (deliver_all defines_handleMessage evs r).1.
Proof.
  revert r. induction evs as [|[[type now] e] evs IH]; intros r Hv; [exact Hv|].
  simpl. pose proof (deliver_valid type now e r Hv) as Hv1.
  destruct (deliver defines_handleMessage type now e r) as [r1 calls1].
  pose proof (IH r1 Hv1) as Hv2.
  destruct (deliver_all defines_handleMessage evs r1) as [r2 calls2]. exact Hv2.
Qed.

(** X2: once the active selector names a provider of the map, it does so
    after every sequence of delivered events: no switch request, switch
    error or inbound message can leave the router with an active provider
    it does not hold, and the active model it reports is among the
    available models it reports. *)
Theorem delivered_events_keep_selector_valid
    (evs : list (string * nat * Event)) (r : MultiModelAgent.t) :
  selector_valid r ->
  selector_valid (deliver_all defines_handleMessage evs r).1
  /\ In (getActiveModel (deliver_all defines_handleMessage evs r).1)
        (getAvailableModels (deliver_all defines_handleMessage evs r).1).
Proof.
  intros Hv. pose proof (deliver_all_valid evs r Hv) as H.
  split; [exact H|].
  unfold selector_valid, map_has in H. unfold getActiveModel, getAvailableModels.
  destruct (map_get _ _) as [a|] eqn:Hg; [|discriminate H].
  apply map_get_In in Hg. apply (in_map fst) in Hg. exact Hg.
Qed.

(** *** The router as the server starts it *)

Variable agent_init : AIAgent -> Outcome.

Lemma init_create p now0 :
  agents (init agent_init (create p now0)).1 = three_agents
  /\ activeAgent (init agent_init (create p now0)).1 = p
  /\ ((init agent_init (create p now0)).2 = resolved ->
      listeners (init agent_init (create p now0)).1 = handled_types).
Proof.
  unfold init. destruct (all_resolved _ _); simpl; repeat split; discriminate.
Qed.

(** X3: whatever platform name the router was constructed with, also one
    it holds no provider for, the first inbound message after [init] leaves
    it with a valid active selector (the name given if it is one of the
    three, [anthropic] otherwise), and every later event keeps it valid. *)
Theorem first_message_repairs_the_selector
    (p : AgentPlatform) (now0 now : nat) (e : Event)
    (evs : list (string * nat * Event)) :
  (init agent_init (create p now0)).2 = resolved ->
  let r0 := (init agent_init (create p now0)).1 in
  let r1 := (deliver defines_handleMessage "message.new" now e r0).1 in
  activeAgent r1
    = (if existsb (String.eqb p) [ANTHROPIC; OPENAI; LLAMA] then p else ANTHROPIC)
  /\ selector_valid (deliver_all defines_handleMessage evs r1).1.
Proof.
  intros Hres r0 r1.
  destruct (init_create p now0) as (Ha & Hp & Hl). specialize (Hl Hres).
  fold r0 in Ha, Hp, Hl.
  assert (Hr1 : r1 = (handleMessage defines_handleMessage now e r0).1).
  { subst r1. unfold deliver. rewrite Hl. reflexivity. }
  split.
  - assert (Hg : map_get p (agents r0)
                 = if String.eqb ANTHROPIC p then Some AnthropicAgent
                   else if String.eqb OPENAI p then Some OpenAIAgent
                   else if String.eqb LLAMA p then Some LlamaAgent else None)
      by (rewrite Ha; reflexivity).
    change (existsb (String.eqb p) [ANTHROPIC; OPENAI; LLAMA])
      with (String.eqb p ANTHROPIC || (String.eqb p OPENAI
              || (String.eqb p LLAMA || false)))%bool.
    rewrite (String.eqb_sym p ANTHROPIC), (String.eqb_sym p OPENAI),
      (String.eqb_sym p LLAMA).
    rewrite Hr1. unfold handleMessage. cbn [agents activeAgent].
    rewrite Hp, Hg, Ha.
    destruct (String.eqb ANTHROPIC p); [reflexivity|].
    destruct (String.eqb OPENAI p); [reflexivity|].
    destruct (String.eqb LLAMA p); reflexivity.
  - apply deliver_all_valid. rewrite Hr1. apply handleMessage_valid.
    rewrite Ha. discriminate.
Qed.

Lemma initialised_agents p now0 evs :
  agents (deliver_all defines_handleMessage evs (init agent_init (create p now0)).1).1
    = three_agents.
Proof.
  destruct (init_create p now0) as (Ha & _ & _).
  destruct (deliver_all_keeps evs (init agent_init (create p now0)).1) as [Hk _].
  rewrite Hk. exact Ha.
Qed.

Lemma fallback_on_three e r :
  agents r = three_agents ->
  JS.truthy_opt (data_error e) = true ->
  handleModelSwitchError e r
    = (set_active (other_of_first_two (activeAgent r)) r,
       [channel_sendEvent
          (Chat.custom_model_switched (other_of_first_two (activeAgent r)))]).
Proof.
  intros Hk He.
  assert (Hf : forall c,
             first_other c three_agents
             = Some (other_of_first_two c,
                     if String.eqb c ANTHROPIC then OpenAIAgent else AnthropicAgent)).
  { intros c. unfold other_of_first_two, three_agents. cbn [first_other].
    rewrite (String.eqb_sym c ANTHROPIC).
    destruct (String.eqb_spec ANTHROPIC c) as [<-|Hne]; reflexivity. }
  unfold handleModelSwitchError. rewrite He, Hk, Hf. reflexivity.
Qed.

Lemma switch_on_three q r :
  agents r = three_agents ->
  handleModelSwitch (model_switch q) r
    = if existsb (String.eqb q) [ANTHROPIC; OPENAI; LLAMA]
      then (set_active q r, [channel_sendEvent (Chat.custom_model_switched q)])
      else if JS.truthy q
      then (r, [channel_sendEvent
                  (Chat.custom_model_switch_error
                     ("AI model " ++ q ++ " is not available")%string)])
      else (r, []).
Proof.
  intros Hk. unfold handleModelSwitch. cbn [data_platform model_switch].
  assert (Hg : map_get q (agents r)
               = if String.eqb ANTHROPIC q then Some AnthropicAgent
                 else if String.eqb OPENAI q then Some OpenAIAgent
                 else if String.eqb LLAMA q then Some LlamaAgent else None)
    by (rewrite Hk; reflexivity).
  change (existsb (String.eqb q) [ANTHROPIC; OPENAI; LLAMA])
    with (String.eqb q ANTHROPIC || (String.eqb q OPENAI
            || (String.eqb q LLAMA || false)))%bool.
  rewrite (String.eqb_sym q ANTHROPIC), (String.eqb_sym q OPENAI),
    (String.eqb_sym q LLAMA).
  unfold map_has. rewrite Hg.
  destruct (String.eqb_spec ANTHROPIC q) as [<-|_]; [reflexivity|].
  destruct (String.eqb_spec OPENAI q) as [<-|_]; [reflexivity|].
  destruct (String.eqb_spec LLAMA q) as [<-|_]; [reflexivity|].
  destruct (JS.truthy q); reflexivity.
Qed.

(** X4: on a router the server initialised, and after any events, a switch
    error with a non-empty text always moves the selector to [openai] when
    [anthropic] was active and to [anthropic] otherwise, and confirms it:
    the fallback never selects [llama] and the apology message for having no
    provider left is never sent. *)
Theorem fallback_alternates_between_anthropic_and_openai
    (p : AgentPlatform) (now0 : nat) (evs : list (string * nat * Event)) (e : Event) :
  (init agent_init (create p now0)).2 = resolved ->
  JS.truthy_opt (data_error e) = true ->
  let r := (deliver_all defines_handleMessage evs (init agent_init (create p now0)).1).1 in
  let target := other_of_first_two (activeAgent r) in
  handleModelSwitchError e r
    = (set_active target r, [channel_sendEvent (Chat.custom_model_switched target)])
  /\ target <> LLAMA
  /\ target <> activeAgent r.
Proof.
  intros _ He r target.
  pose proof (initialised_agents p now0 evs) as Hk. fold r in Hk.
  subst target. split; [|split].
  - apply fallback_on_three; assumption.
  - unfold other_of_first_two. destruct (String.eqb _ _); discriminate.
  - unfold other_of_first_two.
    destruct (String.eqb_spec (activeAgent r) ANTHROPIC) as [->|Hne];
      [discriminate | congruence].
Qed.

Lemma handleModelSwitch_time e r :
  lastInteractionTs (handleModelSwitch e r).1 = lastInteractionTs r.
Proof.
  unfold handleModelSwitch. destruct (data_platform e) as [q|]; [|reflexivity].
  destruct (negb (JS.truthy q)); [reflexivity|].
  destruct (negb (map_has q (agents r))); [reflexivity|].
  destruct (map_get q (agents r)); reflexivity.
Qed.

Lemma handleModelSwitchError_time e r :
  lastInteractionTs (handleModelSwitchError e r).1 = lastInteractionTs r.
Proof.
  unfold handleModelSwitchError. destruct (negb _); [reflexivity|].
  destruct (first_other _ _) as [[q a]|]; reflexivity.
Qed.

Lemma handleMessage_time now e r :
  lastInteractionTs (handleMessage defines_handleMessage now e r).1 = now.
Proof.
  unfold handleMessage. simpl. destruct (map_get _ _); [reflexivity|].
  destruct (agents r) as [|[q a] m]; reflexivity.
Qed.

(** X5: the router's last-interaction time, which the idle sweep reads, is
    the delivery time of the last [message.new] event, whatever that
    message is (the bot's own replies and empty messages included); switch
    requests and switch errors never refresh it, and a router without a
    [message.new] listener never moves it. *)
Theorem last_interaction_is_the_last_message_time
    (evs : list (string * nat * Event)) (r : MultiModelAgent.t) :
  lastInteractionTs (deliver_all defines_handleMessage evs r).1
    = if existsb (String.eqb "message.new") (listeners r)
      then last_message_time evs (lastInteractionTs r)
      else lastInteractionTs r.
Proof.
  revert r. induction evs as [|[[type now] e] evs IH]; intros r.
  - cbn [deliver_all last_message_time fst]. destruct (existsb _ _); reflexivity.
  - cbn [deliver_all last_message_time].
    pose proof (deliver_keeps type now e r) as [_ Hl].
    assert (Ht : lastInteractionTs (deliver defines_handleMessage type now e r).1
                 = if existsb (String.eqb "message.new") (listeners r)
                   then (if String.eqb type "message.new" then now
                         else lastInteractionTs r)
                   else lastInteractionTs r).
    { unfold deliver.
      destruct (String.eqb_spec type "message.new") as [->|Hne].
      - destruct (existsb _ _); [apply handleMessage_time | reflexivity].
      - destruct (existsb (String.eqb type) (listeners r)).
        + destruct (String.eqb type "custom_model_switch");
            [rewrite handleModelSwitch_time; destruct (existsb _ _); reflexivity|].
          destruct (String.eqb type "custom_model_switch_error");
            [rewrite handleModelSwitchError_time|]; destruct (existsb _ _); reflexivity.
        + destruct (existsb _ _); reflexivity. }
    destruct (deliver defines_handleMessage type now e r) as [r1 calls1].
    specialize (IH r1).
    destruct (deliver_all defines_handleMessage evs r1) as [r2 calls2].
    cbn [fst] in *. rewrite IH, Hl, Ht.
    destruct (existsb (String.eqb "message.new") (listeners r)); reflexivity.
Qed.

Lemma processMessageWithAgent_forwards agent e c :
  In c (processMessageWithAgent defines_handleMessage agent e) ->
  c = agent_handleMessage agent e
  /\ defines_handleMessage agent = true /\ forwardable e = true.
Proof.
  unfold processMessageWithAgent, forwardable.
  destruct (message e) as [m|]; [|intros []].
  destruct (ai_generated m); [intros []|].
  destruct (JS.truthy_opt (text m)); [|intros []]. simpl.
  destruct (defines_handleMessage agent); [|intros []].
  intros [<-|[]]. auto.
Qed.

Lemma handleModelSwitch_no_dispatch e r a e' :
  ~ In (agent_handleMessage a e') (handleModelSwitch e r).2.
Proof.
  unfold handleModelSwitch. destruct (data_platform e) as [q|]; [|intros []].
  destruct (negb (JS.truthy q)); [intros []|].
  destruct (negb (map_has q (agents r))); [intros [[=]|[]]|].
  destruct (map_get q (agents r)); intros [[=]|[]].
Qed.

Lemma handleModelSwitchError_no_dispatch e r a e' :
  ~ In (agent_handleMessage a e') (handleModelSwitchError e r).2.
Proof.
  unfold handleModelSwitchError. destruct (negb _); [intros []|].
  destruct (first_other _ _) as [[q b]|]; intros [[=]|[]].
Qed.

Lemma handleMessage_forwards now e r a e' :
  In (agent_handleMessage a e') (handleMessage defines_handleMessage now e r).2 ->
  e' = e
  /\ map_get (activeAgent (handleMessage defines_handleMessage now e r).1) (agents r)
       = Some a
  /\ defines_handleMessage a = true /\ forwardable e = true.
Proof.
  unfold handleMessage. simpl.
  destruct (map_get (activeAgent r) (agents r)) as [b|] eqn:Hg; simpl.
  - intros Hin. apply processMessageWithAgent_forwards in Hin as ([= <- <-] & Hd & Hf).
    auto.
  - destruct (agents r) as [|[q b] m]; simpl; [intros [[=]|[]]|].
    intros Hin. apply processMessageWithAgent_forwards in Hin as ([= <- <-] & Hd & Hf).
    rewrite String.eqb_refl. auto.
Qed.

(** X6: every turn the router hands to a provider, in any sequence of
    delivered events, comes from a [message.new] event of that sequence,
    goes unchanged to a provider the router holds, and carries a message
    that is not the bot's own and has a non-empty text: the router never
    forwards the bot's replies, empty messages or switch events. *)
Theorem forwarded_turns_are_user_messages_for_held_providers
    (evs : list (string * nat * Event)) (r : MultiModelAgent.t)
    (a : AIAgent) (e : Event) :
  In (agent_handleMessage a e) (deliver_all defines_handleMessage evs r).2 ->
  (exists k, In (k, a) (agents r))
  /\ (exists now, In ("message.new", now, e) evs)
  /\ defines_handleMessage a = true
  /\ forwardable e = true.
Proof.
  revert r. induction evs as [|[[type now] e0] evs IH]; intros r; [intros []|].
  simpl. pose proof (deliver_keeps type now e0 r) as [Ha _].
  assert (Hd : In (agent_handleMessage a e)
                 (deliver defines_handleMessage type now e0 r).2 ->
               type = "message.new" /\ e = e0
               /\ (exists k, In (k, a) (agents r))
               /\ defines_handleMessage a = true /\ forwardable e = true).
  { unfold deliver. destruct (existsb _ _); [|intros []].
    destruct (String.eqb_spec type "message.new") as [->|_].
    - intros Hin. apply handleMessage_forwards in Hin as (-> & Hg & Hdef & Hf).
      repeat split; try assumption. eexists. apply map_get_In, Hg.
    - destruct (String.eqb type "custom_model_switch");
        [intros Hin; destruct (handleModelSwitch_no_dispatch _ _ _ _ Hin)|].
      destruct (String.eqb type "custom_model_switch_error");
        [intros Hin; destruct (handleModelSwitchError_no_dispatch _ _ _ _ Hin)
        | intros []]. }
  destruct (deliver defines_handleMessage type now e0 r) as [r1 calls1].
  specialize (IH r1).
  destruct (deliver_all defines_handleMessage evs r1) as [r2 calls2].
  simpl in *. intros Hin. apply in_app_or in Hin as [Hin|Hin].
  - destruct (Hd Hin) as (-> & -> & Hk & Hdef & Hf).
    repeat split; try assumption. exists now. left. reflexivity.
  - destruct (IH Hin) as (Hk & (now' & Hev) & Hdef & Hf).
    rewrite Ha in Hk. repeat split; try assumption. exists now'. right. exact Hev.
Qed.

(** *** Disposal *)

Variable agent_dispose_outcome : AIAgent -> Outcome.
Variable disconnect_outcome : Outcome.

Lemma existsb_off type t ls :
  existsb (String.eqb type) (off t ls)
    = (existsb (String.eqb type) ls && negb (String.eqb type t))%bool.
Proof.
  unfold off. induction ls as [|l ls IH]; [reflexivity|]. simpl.
  destruct (String.eqb_spec l t) as [->|Hlt]; simpl.
  - rewrite IH. destruct (String.eqb type t); simpl; [|reflexivity].
    rewrite andb_false_r. reflexivity.
  - rewrite IH. destruct (String.eqb_spec type l) as [->|Htl]; simpl; [|reflexivity].
    destruct (String.eqb_spec l t) as [?|_]; [contradiction|reflexivity].
Qed.

Lemma dispose_listeners r :
  listeners (dispose agent_dispose_outcome disconnect_outcome r).1.1
    = off "custom_model_switch_error"
        (off "custom_model_switch" (off "message.new" (listeners r))).
Proof. unfold dispose. destruct (all_disposed _ _); reflexivity. Qed.

Lemma deliver_unregistered type now e r :
  (forall t, In t handled_types -> existsb (String.eqb t) (listeners r) = false) ->
  deliver defines_handleMessage type now e r = (r, []).
Proof.
  intros Hoff. unfold deliver.
  destruct (existsb (String.eqb type) (listeners r)) eqn:Hex; [|reflexivity].
  destruct (String.eqb_spec type "message.new") as [->|_].
  { rewrite Hoff in Hex by (simpl; auto). discriminate. }
  destruct (String.eqb_spec type "custom_model_switch") as [->|_].
  { rewrite Hoff in Hex by (simpl; auto). discriminate. }
  destruct (String.eqb_spec type "custom_model_switch_error") as [->|_]; [|reflexivity].
  rewrite Hoff in Hex by (simpl; auto). discriminate.
Qed.

Lemma deliver_all_unregistered evs r :
  (forall t, In t handled_types -> existsb (String.eqb t) (listeners r) = false) ->
  deliver_all defines_handleMessage evs r = (r, []).
Proof.
  intros Hoff. induction evs as [|[[type now] e] evs IH]; [reflexivity|].
  simpl. rewrite (deliver_unregistered type now e r Hoff), IH. reflexivity.
Qed.

Lemma dispose_unregisters r t :
  In t handled_types ->
  existsb (String.eqb t)
    (listeners (dispose agent_dispose_outcome disconnect_outcome r).1.1) = false.
Proof.
  intros Ht. rewrite dispose_listeners, !existsb_off.
  destruct Ht as [<-|[<-|[<-|[]]]]; simpl; rewrite ?andb_false_r; reflexivity.
Qed.

(** X7: a router that was disposed no longer reacts to anything: every
    sequence of events delivered afterwards leaves its state as it is and
    makes no call.  This holds whether or not the disposal succeeded, the
    listeners being removed before the providers are disposed. *)
Theorem disposed_router_ignores_every_event
    (evs : list (string * nat * Event)) (r : MultiModelAgent.t) :
  let r' := (dispose agent_dispose_outcome disconnect_outcome r).1.1 in
  deliver_all defines_handleMessage evs r' = (r', []).
Proof.
  intros r'. apply deliver_all_unregistered. intros t Ht. apply dispose_unregisters, Ht.
Qed.

End RouterDelivery.

(** *** Switch requests as the server makes them *)

Section SwitchRequests.
Import Inbound MultiModelAgent.
Import JS (Outcome, resolved, rejected).

Variable defines_handleMessage : AIAgent -> bool.
Variable agent_init : AIAgent -> Outcome.

Lemma deliver_registered now e r :
  listeners r = handled_types ->
  deliver defines_handleMessage "custom_model_switch" now e r = handleModelSwitch e r
  /\ deliver defines_handleMessage "custom_model_switch_error" now e r
       = handleModelSwitchError e r
  /\ deliver defines_handleMessage "custom_model_switched" now e r = (r, []).
Proof. intros Hl. unfold deliver. rewrite Hl. repeat split. Qed.

Lemma initialised_listeners p now0 evs :
  (init agent_init (create p now0)).2 = resolved ->
  listeners
    (deliver_all defines_handleMessage evs (init agent_init (create p now0)).1).1
    = handled_types.
Proof.
  intros Hres. destruct (init_create agent_init p now0) as (_ & _ & Hl).
  destruct (deliver_all_keeps defines_handleMessage evs
              (init agent_init (create p now0)).1) as [_ Hk].
  rewrite Hk. exact (Hl Hres).
Qed.

(** On a router the server initialised, after any events: a switch request
    for a non-empty name that is none of the three providers is refused by
    the switch handler, and the refusal, coming to the router's switch-error
    listener, moves the selector to the fallback provider; a switch request
    for one of the three providers selects it. *)
Lemma switch_request_on_initialised_router p now0 evs now q :
  (init agent_init (create p now0)).2 = resolved ->
  q <> EmptyString ->
  let r := (deliver_all defines_handleMessage evs
              (init agent_init (create p now0)).1).1 in
  switch_request defines_handleMessage now q r
    = if existsb (String.eqb q) [ANTHROPIC; OPENAI; LLAMA]
      then (set_active q r, [channel_sendEvent (Chat.custom_model_switched q)])
      else (set_active (other_of_first_two (activeAgent r)) r,
            [channel_sendEvent
               (Chat.custom_model_switch_error
                  ("AI model " ++ q ++ " is not available")%string);
             channel_sendEvent
               (Chat.custom_model_switched (other_of_first_two (activeAgent r)))]).
Proof.
  intros Hres Hq r.
  pose proof (initialised_agents defines_handleMessage agent_init p now0 evs) as Ha.
  pose proof (initialised_listeners p now0 evs Hres) as Hl.
  fold r in Ha, Hl.
  unfold switch_request. cbn [received].
  destruct (deliver_registered now (model_switch q) r Hl) as (-> & _ & _).
  rewrite (switch_on_three q r Ha).
  destruct (existsb (String.eqb q) [ANTHROPIC; OPENAI; LLAMA]).
  - cbn [deliver_sent received].
    assert (Hl' : listeners (set_active q r) = handled_types) by exact Hl.
    destruct (deliver_registered now (model_switch q) (set_active q r) Hl')
      as (_ & _ & ->).
    reflexivity.
  - rewrite (truthy_nonempty _ Hq). cbn [deliver_sent received].
    destruct (deliver_registered now
                (model_switch_error ("AI model " ++ q ++ " is not available")%string)
                r Hl) as (_ & -> & _).
    rewrite (fallback_on_three
               (model_switch_error ("AI model " ++ q ++ " is not available")%string)
               r Ha eq_refl).
    reflexivity.
Qed.

End SwitchRequests.

Section SwitchRequestEvaluated.
Import Inbound MultiModelAgent.
Import JS (Outcome, resolved, rejected).

(** C1: evaluated on a router the server initialised with [anthropic]
    active, for a switch request naming [gemini], a provider the router has
    no agent for, made the way [/switch-model] makes it.  The switch handler
    refuses it: it sends the switch error naming [gemini] and returns with
    the selector on [anthropic].  The switch error then comes to the
    router's own switch-error listener, registered by [init], which falls
    back: the selector ends on [openai] and a switch to [openai] is
    confirmed.  Nothing the router sent afterwards undoes it.  A request
    naming a provider of the map, [llama], selects it and confirms it. *)
Theorem refused_switch_request_moves_the_selector :
  let r := (init (fun _ => resolved) (create ANTHROPIC 0)).1 in
  let refusal := Chat.custom_model_switch_error "AI model gemini is not available" in
  let handled := deliver (fun _ => true) "custom_model_switch" 1
                   (model_switch "gemini") r in
  let echoed := deliver_sent (fun _ => true) 1 handled.2 handled.1 in
  let settled := switch_request (fun _ => true) 1 "gemini" r in
  (init (fun _ => resolved) (create ANTHROPIC 0)).2 = resolved
  /\ map_has "gemini" (agents r) = false
  /\ activeAgent r = ANTHROPIC
  /\ handled = (r, [channel_sendEvent refusal])
  /\ received refusal
       = ("custom_model_switch_error",
          model_switch_error "AI model gemini is not available")
  /\ existsb (String.eqb "custom_model_switch_error") (listeners r) = true
  /\ echoed = (set_active OPENAI r,
               [channel_sendEvent (Chat.custom_model_switched OPENAI)])
  /\ deliver_sent (fun _ => true) 1 echoed.2 echoed.1 = (echoed.1, [])
  /\ settled = (set_active OPENAI r,
                [channel_sendEvent refusal;
                 channel_sendEvent (Chat.custom_model_switched OPENAI)])
  /\ activeAgent settled.1 = OPENAI
  /\ switch_request (fun _ => true) 1 LLAMA r
       = (set_active LLAMA r, [channel_sendEvent (Chat.custom_model_switched LLAMA)]).
Proof. cbv zeta. repeat split. Qed.

End SwitchRequestEvaluated.

Section RouterDeliveryWitnesses.
Import Inbound MultiModelAgent.
Import JS (Outcome, resolved, rejected).

(** A router holding two providers, [llama] active, is asked to switch to
    a provider it does not hold, then told of a switch error, then receives
    a message: the selector ends on [anthropic], which it holds. *)
Lemma delivered_events_keep_selector_valid_witness :
  let r := {| agents := [(ANTHROPIC, AnthropicAgent); (LLAMA, LlamaAgent)];
              activeAgent := LLAMA; lastInteractionTs := 0;
              listeners := handled_types |} in
  let evs := [("custom_model_switch", 1, model_switch "openai");
              ("custom_model_switch_error", 2, model_switch_error "overloaded");
              ("message.new", 3,
               message_new {| text := Some "hello"; user := Some {| id := "alice" |};
                              ai_generated := false; parent_id := None |})] in
  selector_valid r
  /\ selector_valid (deliver_all (fun _ => true) evs r).1
  /\ getActiveModel (deliver_all (fun _ => true) evs r).1 = ANTHROPIC.
Proof.
  intros r evs. split; [reflexivity|]. split; [|reflexivity].
  apply (delivered_events_keep_selector_valid (fun _ => true) evs r). reflexivity.
Defined.

(** A router constructed for [gemini], a platform it has no provider for:
    the first message moves the selector to [anthropic]. *)
Lemma first_message_repairs_the_selector_witness :
  let e := message_new {| text := Some "hello"; user := Some {| id := "alice" |};
                          ai_generated := false; parent_id := None |} in
  let r0 := (init (fun _ => resolved) (create "gemini" 0)).1 in
  let r1 := (deliver (fun _ => true) "message.new" 7 e r0).1 in
  (init (fun _ => resolved) (create "gemini" 0)).2 = resolved
  /\ map_has (activeAgent r0) (agents r0) = false
  /\ activeAgent r1 = ANTHROPIC
  /\ selector_valid
       (deliver_all (fun _ => true)
          [("custom_model_switch", 8, model_switch "gemini")] r1).1.
Proof.
  intros e r0 r1. split; [reflexivity|]. split; [reflexivity|].
  destruct (first_message_repairs_the_selector (fun _ => true) (fun _ => resolved)
              "gemini" 0 7 e [("custom_model_switch", 8, model_switch "gemini")]
              eq_refl) as [Hactive Hvalid].
  split; [exact Hactive | exact Hvalid].
Defined.

(** A router started on [llama] falls back to [anthropic]; a second switch
    error then moves it to [openai]. *)
Lemma fallback_alternates_between_anthropic_and_openai_witness :
  let e := model_switch_error
             "Model is currently overloaded, falling back to another model" in
  let r0 := (init (fun _ => resolved) (create LLAMA 0)).1 in
  let r := (deliver_all (fun _ => true) [("custom_model_switch_error", 1, e)] r0).1 in
  (init (fun _ => resolved) (create LLAMA 0)).2 = resolved
  /\ JS.truthy_opt (data_error e) = true
  /\ activeAgent r = ANTHROPIC
  /\ handleModelSwitchError e r
       = (set_active OPENAI r, [channel_sendEvent (Chat.custom_model_switched OPENAI)]).
Proof.
  intros e r0 r. split; [reflexivity|]. split; [reflexivity|]. split; [reflexivity|].
  destruct (fallback_alternates_between_anthropic_and_openai (fun _ => true)
              (fun _ => resolved) LLAMA 0 [("custom_model_switch_error", 1, e)] e
              eq_refl eq_refl) as [Hfall _].
  exact Hfall.
Defined.

(** A user message between a reply of the bot and a switch request: only
    the user message is handed over, to the active provider. *)
Lemma forwarded_turns_witness :
  let user_msg := message_new {| text := Some "hello"; user := Some {| id := "alice" |};
                                 ai_generated := false; parent_id := None |} in
  let bot_msg := message_new {| text := Some "hi"; user := Some {| id := "ai-bot-x" |};
                                ai_generated := true; parent_id := None |} in
  let r := (init (fun _ => resolved) (create OPENAI 0)).1 in
  let evs := [("message.new", 1, bot_msg); ("message.new", 2, user_msg);
              ("custom_model_switch", 3, model_switch LLAMA)] in
  (deliver_all (fun _ => true) evs r).2
    = [agent_handleMessage OpenAIAgent user_msg;
       channel_sendEvent (Chat.custom_model_switched LLAMA)]
  /\ (exists k, In (k, OpenAIAgent) (agents r))
  /\ forwardable user_msg = true.
Proof.
  intros user_msg bot_msg r evs. split; [reflexivity|].
  assert (Hin : In (agent_handleMessage OpenAIAgent user_msg)
                  (deliver_all (fun _ => true) evs r).2) by (left; reflexivity).
  destruct (forwarded_turns_are_user_messages_for_held_providers
              (fun _ => true) evs r OpenAIAgent user_msg Hin) as (Hk & _ & _ & Hf).
  split; [exact Hk | exact Hf].
Defined.

End RouterDeliveryWitnesses.

(** ** The relays over whole streams *)

Section AnthropicStreams.
Import Chat AnthropicResponseHandler.

Lemma handle_all_app evs1 evs2 h w :
  handle_all (evs1 ++ evs2) h w
    = handle_all evs2 (handle_all evs1 h w).1 (handle_all evs1 h w).2.
Proof.
  revert h w. induction evs1 as [|ev evs1 IH]; intros h w; simpl; [reflexivity|].
  destruct (handle ev h w) as [h' w']. apply IH.
Qed.

Lemma handle_accumulates ev h w :
  message_text (handle ev h w).1 = (message_text h ++ delta_text ev)%string
  /\ chunk_counter (handle ev h w).1
       = chunk_counter h + (if is_text_delta ev then 1 else 0).
Proof.
  destruct ev as [| |[txt|]| | |]; simpl;
    rewrite ?append_nil_r, ?Nat.add_0_r; try (split; reflexivity).
  destruct (commits _); simpl; split; lia || reflexivity.
Qed.

Lemma handle_all_accumulates evs h w :
  message_text (handle_all evs h w).1 = (message_text h ++ streamed_text evs)%string
  /\ chunk_counter (handle_all evs h w).1 = chunk_counter h + text_deltas evs.
Proof.
  revert h w. induction evs as [|ev evs IH]; intros h w.
  - simpl. rewrite append_nil_r, Nat.add_0_r. split; reflexivity.
  - simpl. pose proof (handle_accumulates ev h w) as [Ht Hc].
    destruct (handle ev h w) as [h' w']. simpl in Ht, Hc.
    destruct (IH h' w') as [Ht' Hc']. rewrite Ht', Hc', Ht, Hc, append_assoc.
    split; [reflexivity|].
    unfold text_deltas. simpl. destruct (is_text_delta ev); simpl; lia.
Qed.

(** X8: a stream that ends with [message_stop] or [message_delta] leaves the
    Message holding exactly the text deltas of the whole stream, in order
    and with nothing from any other kind of event, with [generating: false];
    the last thing the relay does is to clear the indicator. *)
Theorem finished_stream_commits_all_text
    (evs : list RawMessageStreamEvent) (final : RawMessageStreamEvent)
    (h : AnthropicResponseHandler.t) (w : World) :
  is_final final = true ->
  let out := run (evs ++ [final]) exhausted h w in
  message out.2
    = {| text := (message_text h ++ streamed_text evs)%string;
         generating := Some false |}
  /\ last (trace out.2) = Some (sendEvent_call ai_indicator_clear)
  /\ chunk_counter out.1 = chunk_counter h + text_deltas evs.
Proof.
  intros Hfin out. subst out. unfold run. rewrite handle_all_app.
  pose proof (handle_all_accumulates evs h w) as [Ht Hc].
  destruct (handle_all evs h w) as [h1 w1]. simpl in Ht, Hc.
  destruct final; try discriminate Hfin; simpl;
    rewrite Ht, Hc; (split; [reflexivity|]); (split; [|reflexivity]);
    unfold message_stop_branch, sendEvent, record, partialUpdateMessage; simpl;
    apply last_snoc.
Qed.

Lemma In_events e w : In e (events w) <-> In (sendEvent_call e) (trace w).
Proof.
  unfold events. induction (trace w) as [|c l IH]; [reflexivity|].
  destruct c; cbn [omap list_omap In]; rewrite IH;
    try (split; [intros H; right; exact H | intros [[=]|H]; exact H]).
  split; (intros [H|H]; [left; congruence | right; exact H]).
Qed.

Lemma handle_unfinished ev h w :
  is_final ev = false ->
  generating (message w) <> Some false ->
  ~ In (sendEvent_call ai_indicator_clear) (trace w) ->
  generating (message (handle ev h w).2) <> Some false
  /\ ~ In (sendEvent_call ai_indicator_clear) (trace (handle ev h w).2)
  /\ (is_text_delta ev = true \/ generating (message w) = Some true ->
      chunk_counter h = 0 \/ generating (message w) = Some true ->
      generating (message (handle ev h w).2) = Some true).
Proof.
  intros Hfin Hg Hc.
  destruct ev as [| |[txt|]| | |]; try discriminate Hfin; simpl.
  - split; [exact Hg|]. split; [exact Hc|]. intros [[=]|H] _; exact H.
  - split; [exact Hg|]. split; [|intros [[=]|H] _; exact H].
    rewrite in_app_iff. intros [H|[[=]|[]]]. exact (Hc H).
  - destruct (commits (S (chunk_counter h))) eqn:Hcm; simpl.
    + split; [discriminate|]. split; [|reflexivity].
      rewrite in_app_iff. intros [H|[[=]|[]]]. exact (Hc H).
    + split; [exact Hg|]. split; [exact Hc|]. intros _ [H0|H]; [|exact H].
      rewrite H0 in Hcm. discriminate Hcm.
  - split; [exact Hg|]. split; [exact Hc|]. intros [[=]|H] _; exact H.
  - split; [exact Hg|]. split; [exact Hc|]. intros [[=]|H] _; exact H.
Qed.

Lemma handle_all_unfinished evs h w :
  forallb (fun ev => negb (is_final ev)) evs = true ->
  generating (message w) <> Some false ->
  ~ In (sendEvent_call ai_indicator_clear) (trace w) ->
  (chunk_counter h = 0 \/ generating (message w) = Some true) ->
  generating (message (handle_all evs h w).2) <> Some false
  /\ ~ In (sendEvent_call ai_indicator_clear) (trace (handle_all evs h w).2)
  /\ (0 < text_deltas evs \/ generating (message w) = Some true ->
      generating (message (handle_all evs h w).2) = Some true).
Proof.
  revert h w. induction evs as [|ev evs IH]; intros h w Hall Hg Hc Hz.
  - simpl. split; [exact Hg|]. split; [exact Hc|].
    unfold text_deltas. simpl. intros [H|H]; [lia|exact H].
  - simpl in Hall. apply andb_prop in Hall as [Hev Hall].
    apply negb_true_iff in Hev.
    simpl. pose proof (handle_unfinished ev h w Hev Hg Hc) as (Hg1 & Hc1 & Ht1).
    pose proof (handle_accumulates ev h w) as [_ Hn].
    destruct (handle ev h w) as [h1 w1]. simpl in Hg1, Hc1, Ht1, Hn.
    assert (Hz1 : chunk_counter h1 = 0 \/ generating (message w1) = Some true).
    { destruct (is_text_delta ev) eqn:Htd.
      - right. apply Ht1; [left; reflexivity | exact Hz].
      - destruct Hz as [Hz|Hz]; [left; lia|]. right. apply Ht1; [right|right]; exact Hz. }
    destruct (IH h1 w1 Hall Hg1 Hc1 Hz1) as (Hg2 & Hc2 & Ht2).
    split; [exact Hg2|]. split; [exact Hc2|].
    intros Hpos. apply Ht2.
    unfold text_deltas in *. simpl in Hpos.
    destruct (is_text_delta ev) eqn:Htd; simpl in Hpos.
    + right. apply Ht1; [left; reflexivity | exact Hz].
    + destruct Hpos as [Hpos|Hpos]; [left; exact Hpos|].
      right. apply Ht1; [right|right]; exact Hpos.
Qed.

(** X9: when the provider's stream runs out without a [message_stop] or
    [message_delta] event, the relay never writes [generating: false] and
    never clears the indicator; after at least one text delta the Message
    is left with [generating: true].  Nothing follows the loop of [run]. *)
Theorem unfinished_stream_is_left_generating
    (evs : list RawMessageStreamEvent) (s : Stream) :
  forallb (fun ev => negb (is_final ev)) evs = true ->
  let out := run evs exhausted (create s) initial in
  generating (message out.2) <> Some false
  /\ ~ In ai_indicator_clear (events out.2)
  /\ (0 < text_deltas evs -> generating (message out.2) = Some true).
Proof.
  intros Hall out. subst out. unfold run.
  destruct (handle_all_unfinished evs (create s) initial Hall) as (Hg & Hc & Ht);
    [discriminate | intros [] | left; reflexivity |].
  destruct (handle_all evs (create s) initial) as [h1 w1]. simpl in *.
  split; [exact Hg|]. split; [|intros Hpos; apply Ht; left; exact Hpos].
  rewrite In_events. exact Hc.
Qed.

Lemma anthropic_writes_step k :
  anthropic_writes_after (S k)
    = anthropic_writes_after k + (if commits (S k) then 1 else 0).
Proof.
  unfold anthropic_writes_after, commits.
  replace (S k + 1) with (S (S k)) by lia. replace (k + 1) with (S k) by lia.
  pose proof (Nat.div_mod_eq k 20). pose proof (Nat.mod_upper_bound k 20 ltac:(lia)).
  pose proof (Nat.div_mod_eq (S k) 20).
  pose proof (Nat.mod_upper_bound (S k) 20 ltac:(lia)).
  pose proof (Nat.div_mod_eq (S k) 2).
  pose proof (Nat.mod_upper_bound (S k) 2 ltac:(lia)).
  pose proof (Nat.div_mod_eq (S (S k)) 2).
  pose proof (Nat.mod_upper_bound (S (S k)) 2 ltac:(lia)).
  destruct (Nat.eqb_spec (S k mod 20) 0), (Nat.ltb_spec (S k) 8),
    (Nat.eqb_spec (S k mod 2) 0); cbv [orb andb negb]; lia.
Qed.

Lemma progress_writes_snoc w c :
  length (List.filter is_progress_write (trace w ++ [c]))
    = progress_writes w + (if is_progress_write c then 1 else 0).
Proof.
  unfold progress_writes. rewrite List.filter_app, List.length_app. simpl.
  destruct (is_progress_write c); reflexivity.
Qed.

Lemma handle_progress_writes ev h w :
  progress_writes (handle ev h w).2
    = progress_writes w
      + (if is_text_delta ev && commits (S (chunk_counter h)) then 1 else 0).
Proof.
  destruct ev as [| |[txt|]| | |]; simpl; rewrite ?Nat.add_0_r; try reflexivity.
  - unfold sendEvent, record, progress_writes at 1. simpl.
    rewrite progress_writes_snoc. simpl. lia.
  - destruct (commits _); simpl; [|lia].
    unfold partialUpdateMessage, progress_writes at 1. simpl.
    apply progress_writes_snoc.
  - unfold message_stop_branch, sendEvent, record, partialUpdateMessage,
      progress_writes at 1. simpl.
    rewrite <- !app_assoc. simpl.
    rewrite List.filter_app. simpl. rewrite List.length_app. simpl.
    unfold progress_writes. lia.
  - unfold message_stop_branch, sendEvent, record, partialUpdateMessage,
      progress_writes at 1. simpl.
    rewrite <- !app_assoc. simpl.
    rewrite List.filter_app. simpl. rewrite List.length_app. simpl.
    unfold progress_writes. lia.
Qed.

Lemma handle_all_progress_writes evs h w :
  progress_writes (handle_all evs h w).2 + anthropic_writes_after (chunk_counter h)
    = progress_writes w
      + anthropic_writes_after (chunk_counter h + text_deltas evs).
Proof.
  revert h w. induction evs as [|ev evs IH]; intros h w.
  - unfold text_deltas. simpl. rewrite Nat.add_0_r. reflexivity.
  - simpl. pose proof (handle_progress_writes ev h w) as Hw.
    pose proof (handle_accumulates ev h w) as [_ Hc].
    destruct (handle ev h w) as [h1 w1]. simpl in Hw, Hc.
    specialize (IH h1 w1). rewrite Hc in IH. unfold text_deltas in *. simpl.
    destruct (is_text_delta ev); simpl in *.
    + replace (chunk_counter h + S (length (List.filter is_text_delta evs)))
        with (chunk_counter h + 1 + length (List.filter is_text_delta evs)) by lia.
      pose proof (anthropic_writes_step (chunk_counter h)) as Hs.
      replace (chunk_counter h + 1) with (S (chunk_counter h)) in IH |- * by lia.
      destruct (commits (S (chunk_counter h))); lia.
    + rewrite Nat.add_0_r in IH. lia.
Qed.

(** X10: how often the Anthropic relay rewrites the Message while it
    streams depends only on the number [n] of text deltas received: it makes
    [n / 20 + min 4 ((n + 1) / 2)] progress writes, that is one at fragments
    1, 3, 5 and 7 and one at every twentieth fragment, however the stream
    ends. *)
Theorem anthropic_progress_writes_count
    (evs : list RawMessageStreamEvent) (fin : StreamEnd) (s : Stream) :
  progress_writes (run evs fin (create s) initial).2
    = anthropic_writes_after (text_deltas evs)
  /\ anthropic_writes_after (text_deltas evs) <= 4 + text_deltas evs / 20.
Proof.
  split; [|unfold anthropic_writes_after; lia].
  pose proof (handle_all_progress_writes evs (create s) initial) as H.
  unfold run. destruct (handle_all evs (create s) initial) as [h1 w1].
  simpl in H. change (anthropic_writes_after 0) with 0 in H.
  change (progress_writes initial) with 0 in H.
  rewrite Nat.add_0_r in H. simpl in H.
  destruct fin as [|error]; [exact H|].
  destruct (overloaded error); unfold sendEvent, record, progress_writes; simpl;
    rewrite List.filter_app, List.length_app; simpl; fold (progress_writes w1); lia.
Qed.

End AnthropicStreams.

Section LlamaStreams.
Import Chat LlamaResponseHandler.
Variable Chunk : Type.
Variable parseChunk : Chunk -> string.

Lemma on_chunk_accumulates c h w :
  message_text (on_chunk Chunk parseChunk c h w).1
    = (message_text h ++ parseChunk c)%string
  /\ chunk_counter (on_chunk Chunk parseChunk c h w).1
       = chunk_counter h + (if JS.truthy (parseChunk c) then 1 else 0).
Proof.
  unfold on_chunk. destruct (JS.truthy (parseChunk c)) eqn:Ht.
  - destruct (commits _); simpl; split; lia || reflexivity.
  - simpl. destruct (parseChunk c); [|discriminate Ht].
    rewrite append_nil_r. split; lia || reflexivity.
Qed.

Lemma on_chunks_accumulates cs h w :
  message_text (on_chunks Chunk parseChunk cs h w).1
    = (message_text h ++ parsed_text parseChunk cs)%string
  /\ chunk_counter (on_chunks Chunk parseChunk cs h w).1
       = chunk_counter h + text_chunks parseChunk cs.
Proof.
  revert h w. induction cs as [|c cs IH]; intros h w.
  - simpl. rewrite append_nil_r. unfold text_chunks. simpl. split; lia || reflexivity.
  - simpl. pose proof (on_chunk_accumulates c h w) as [Ht Hc].
    destruct (on_chunk Chunk parseChunk c h w) as [h' w']. simpl in Ht, Hc.
    destruct (IH h' w') as [Ht' Hc']. rewrite Ht', Hc', Ht, Hc, append_assoc.
    split; [reflexivity|].
    unfold text_chunks. simpl. destruct (JS.truthy (parseChunk c)); simpl; lia.
Qed.

(** X11: when the Llama stream runs out, the relay always finishes the
    Message: it holds exactly the texts the chunks decoded to, in order,
    with [generating: false], the final write being followed by the clearing
    of the indicator.  Chunks that decode to nothing add nothing, and a
    stream none of whose chunks decodes leaves an empty, finished Message
    rather than an apology. *)
Theorem exhausted_llama_stream_commits_all_text (chunks : list Chunk) :
  let out := run Chunk parseChunk chunks exhausted create initial in
  let all_text := parsed_text parseChunk chunks in
  message out.2 = {| text := all_text; generating := Some false |}
  /\ (exists before,
       trace out.2 = before ++
         [partialUpdateMessage_call
            {| set_text := Some all_text; set_generating := Some false |};
          sendEvent_call ai_indicator_clear])
  /\ events out.2 = [ai_indicator_clear]
  /\ (text_chunks parseChunk chunks = 0 -> all_text = ""%string).
Proof.
  cbv zeta. unfold run.
  pose proof (on_chunks_accumulates chunks create initial) as [Ht _].
  assert (He : forall cs h w,
            events (on_chunks Chunk parseChunk cs h w).2 = events w).
  { induction cs as [|c cs IH]; intros h w; [reflexivity|]. simpl.
    assert (Hc : events (on_chunk Chunk parseChunk c h w).2 = events w).
    { unfold on_chunk. destruct (JS.truthy _); [|reflexivity].
      destruct (commits _); [apply events_partialUpdateMessage | reflexivity]. }
    destruct (on_chunk Chunk parseChunk c h w) as [h' w']. rewrite IH. exact Hc. }
  specialize (He chunks create initial).
  destruct (on_chunks Chunk parseChunk chunks create initial) as [h1 w1].
  simpl in Ht, He. rewrite Ht. simpl. split; [reflexivity|].
  split; [|split].
  - exists (trace w1). unfold sendEvent, record, partialUpdateMessage. simpl.
    rewrite <- app_assoc. reflexivity.
  - rewrite events_sendEvent, events_partialUpdateMessage, He. reflexivity.
  - unfold text_chunks, parsed_text. clear. induction chunks as [|c cs IH]; [reflexivity|].
    simpl. destruct (parseChunk c) eqn:Hp; simpl; [exact IH | discriminate].
Qed.

Lemma llama_writes_step k :
  llama_writes_after (S k) = llama_writes_after k + (if commits (S k) then 1 else 0).
Proof.
  unfold llama_writes_after, commits.
  pose proof (Nat.div_mod_eq k 15). pose proof (Nat.mod_upper_bound k 15 ltac:(lia)).
  pose proof (Nat.div_mod_eq (S k) 15).
  pose proof (Nat.mod_upper_bound (S k) 15 ltac:(lia)).
  pose proof (Nat.div_mod_eq k 3). pose proof (Nat.mod_upper_bound k 3 ltac:(lia)).
  pose proof (Nat.div_mod_eq (S k) 3).
  pose proof (Nat.mod_upper_bound (S k) 3 ltac:(lia)).
  destruct (Nat.eqb_spec (S k mod 15) 0), (Nat.ltb_spec (S k) 8),
    (Nat.eqb_spec (S k mod 3) 0); cbv [orb andb negb]; lia.
Qed.

Lemma on_chunk_progress_writes c h w :
  progress_writes (on_chunk Chunk parseChunk c h w).2
    = progress_writes w
      + (if JS.truthy (parseChunk c) && commits (S (chunk_counter h)) then 1 else 0).
Proof.
  unfold on_chunk. destruct (JS.truthy (parseChunk c)); simpl; [|lia].
  destruct (commits _); simpl; [|lia].
  unfold partialUpdateMessage, progress_writes at 1. simpl.
  apply progress_writes_snoc.
Qed.

Lemma on_chunks_progress_writes cs h w :
  progress_writes (on_chunks Chunk parseChunk cs h w).2
    + llama_writes_after (chunk_counter h)
    = progress_writes w
      + llama_writes_after (chunk_counter h + text_chunks parseChunk cs).
Proof.
  revert h w. induction cs as [|c cs IH]; intros h w.
  - unfold text_chunks. simpl. rewrite Nat.add_0_r. reflexivity.
  - simpl. pose proof (on_chunk_progress_writes c h w) as Hw.
    pose proof (on_chunk_accumulates c h w) as [_ Hc].
    destruct (on_chunk Chunk parseChunk c h w) as [h1 w1]. simpl in Hw, Hc.
    specialize (IH h1 w1). rewrite Hc in IH. unfold text_chunks in *. simpl.
    destruct (JS.truthy (parseChunk c)); simpl in *.
    + replace (chunk_counter h
               + S (length (List.filter (fun c => JS.truthy (parseChunk c)) cs)))
        with (chunk_counter h + 1
              + length (List.filter (fun c => JS.truthy (parseChunk c)) cs)) by lia.
      pose proof (llama_writes_step (chunk_counter h)) as Hs.
      replace (chunk_counter h + 1) with (S (chunk_counter h)) in IH |- * by lia.
      destruct (commits (S (chunk_counter h))); lia.
    + rewrite Nat.add_0_r in IH. lia.
Qed.

(** X12: the Llama relay makes [n / 15 + min 2 (n / 3)] progress writes for a
    response of [n] chunks that decode to some text: nothing is shown for
    the first two fragments, then one write at fragments 3 and 6 and one at
    every fifteenth, however the stream ends. *)
Theorem llama_progress_writes_count (chunks : list Chunk) (fin : StreamEnd) :
  progress_writes (run Chunk parseChunk chunks fin create initial).2
    = llama_writes_after (text_chunks parseChunk chunks)
  /\ (text_chunks parseChunk chunks < 3 ->
      progress_writes (run Chunk parseChunk chunks fin create initial).2 = 0).
Proof.
  assert (Hrun : progress_writes (run Chunk parseChunk chunks fin create initial).2
                 = llama_writes_after (text_chunks parseChunk chunks)).
  { pose proof (on_chunks_progress_writes chunks create initial) as H.
    unfold run. destruct (on_chunks Chunk parseChunk chunks create initial) as [h1 w1].
    simpl in H. change (llama_writes_after 0) with 0 in H.
    change (progress_writes initial) with 0 in H.
    rewrite Nat.add_0_r in H. simpl in H.
    destruct fin; [|destruct (JS.truthy (message_text h1))];
      unfold sendEvent, record, partialUpdateMessage, progress_writes; simpl;
      rewrite <- ?app_assoc; simpl;
      rewrite List.filter_app, List.length_app; simpl; fold (progress_writes w1); lia. }
  split; [exact Hrun|]. intros Hlt. rewrite Hrun. unfold llama_writes_after.
  rewrite (Nat.div_small _ 15) by lia. rewrite (Nat.div_small _ 3) by lia. reflexivity.
Qed.

End LlamaStreams.

(** ** LlamaAgent: initialisation and the turns it enables *)

Section LlamaTurns.
Import Inbound LlamaAgent.

(** X13: [LlamaAgent.init] cannot fail, whatever the environment: the
    endpoint and the model are the environment's when set and non-empty and
    [http://localhost:11434] and [llama2] otherwise, so the error for a
    missing endpoint is never thrown.  On the agent it leaves, every event
    carrying a user message with text starts a turn (placeholder first, the
    request naming that model, the interaction time refreshed), and every
    other event changes nothing. *)
Theorem llama_init_always_succeeds_and_enables_turns (env : Env) (a0 : LlamaAgent.t) :
  exists a,
    init env a0 = inl a
    /\ apiEndpoint a = Some (or_else (LLAMA_API_ENDPOINT env) "http://localhost:11434")
    /\ modelName a = Some (or_else (LLAMA_MODEL_NAME env) "llama2")
    /\ forall now state_messages stream_opens e,
         (forwardable e = false ->
          handleMessage now state_messages stream_opens e a = (a, []))
         /\ (forwardable e = true ->
             exists context rest,
               (handleMessage now state_messages stream_opens e a).2
                 = channel_sendMessage "" true
                   :: channel_sendEvent (Chat.ai_indicator_update Chat.AI_STATE_THINKING)
                   :: axios_post_api_chat
                        (Some (or_else (LLAMA_MODEL_NAME env) "llama2")) context
                   :: rest
               /\ lastInteractionTs
                    (handleMessage now state_messages stream_opens e a).1 = now).
Proof.
  assert (Hd : forall o d, d <> EmptyString -> JS.truthy (or_else o d) = true).
  { intros o d Hd. unfold or_else. destruct o as [[|c s]|]; simpl;
      try reflexivity; apply truthy_nonempty, Hd. }
  pose proof (Hd (LLAMA_API_ENDPOINT env) "http://localhost:11434"
                ltac:(discriminate)) as He.
  pose proof (Hd (LLAMA_MODEL_NAME env) "llama2" ltac:(discriminate)) as Hm.
  eexists. split; [unfold init; rewrite He; reflexivity|].
  split; [reflexivity|]. split; [reflexivity|].
  intros now state_messages stream_opens e.
  unfold handleMessage, forwardable. cbn [apiEndpoint modelName JS.truthy_opt].
  rewrite He, Hm. cbn [negb orb].
  destruct (message e) as [m|]; [|split; [reflexivity | discriminate]].
  destruct (ai_generated m); [split; [reflexivity | discriminate]|].
  destruct (text m) as [t|]; [|split; [reflexivity | discriminate]].
  cbn [negb andb JS.truthy_opt].
  destruct (JS.truthy t); cbn [negb]; split; try discriminate; try reflexivity.
  intros _. destruct stream_opens; eexists; eexists; split; reflexivity.
Qed.

End LlamaTurns.

(** ** The control plane: the idle sweep, registry keys, stopping, and what
       the endpoints say of the agent a start created *)

Section IdleSweep.
Import Server.
Variable Agent : Type.
Variable getLastInteraction : Agent -> Z.

Local Abbreviation inactive := (Server.inactive Agent getLastInteraction).
Local Abbreviation sweep := (Server.sweep Agent getLastInteraction).

Lemma sweep_fold now (c0 m : gmap string Agent) :
  let out := map_fold (fun userId aiAgent acc =>
                         if inactive now aiAgent
                         then (delete userId acc.1, acc.2 ++ [userId])
                         else acc) (c0, []) m in
  (forall k, out.1 !! k = match m !! k with
                          | Some a => if inactive now a then None else c0 !! k
                          | None => c0 !! k
                          end)
  /\ (forall k, k ∈ out.2 <-> exists a, m !! k = Some a /\ inactive now a = true)
  /\ NoDup out.2
  /\ ((forall k a, m !! k = Some a -> inactive now a = false) -> out = (c0, [])).
Proof.
  cbv zeta.
  apply (map_fold_weak_ind (fun out m =>
    (forall k, out.1 !! k = match m !! k with
                            | Some a => if inactive now a then None else c0 !! k
                            | None => c0 !! k
                            end)
    /\ (forall k, k ∈ out.2 <-> exists a, m !! k = Some a /\ inactive now a = true)
    /\ NoDup out.2
    /\ ((forall k a, m !! k = Some a -> inactive now a = false) -> out = (c0, [])))).
  - split; [|split; [|split]].
    + intros k. rewrite lookup_empty. reflexivity.
    + intros k. simpl. split; [intros H; inversion H|].
      intros (a & Ha & _). rewrite lookup_empty in Ha. discriminate.
    + constructor.
    + reflexivity.
  - intros i x m' r Hi (Hlook & Hin & Hnd & Hnone).
    destruct (inactive now x) eqn:Hx; simpl.
    + split; [|split; [|split]].
      * intros k. destruct (decide (i = k)) as [<-|Hne].
        -- rewrite lookup_delete_eq, lookup_insert_eq, Hx. reflexivity.
        -- rewrite lookup_delete_ne, lookup_insert_ne by exact Hne. apply Hlook.
      * intros k. rewrite elem_of_app, list_elem_of_singleton, Hin. split.
        -- intros [(a & Ha & Hia)| ->].
           ++ exists a. split; [|exact Hia].
              rewrite lookup_insert_ne; [exact Ha|]. intros <-. congruence.
           ++ exists x. split; [apply lookup_insert_eq | exact Hx].
        -- intros (a & Ha & Hia). destruct (decide (i = k)) as [<-|Hne].
           ++ right. reflexivity.
           ++ left. exists a. rewrite lookup_insert_ne in Ha by exact Hne. auto.
      * apply NoDup_app. split; [exact Hnd|]. split; [|apply NoDup_singleton].
        intros k Hk Hki. apply list_elem_of_singleton in Hki as ->.
        apply Hin in Hk as (a & Ha & _). congruence.
      * intros Hall. specialize (Hall i x (lookup_insert_eq _ _ _)). congruence.
    + split; [|split; [|split]].
      * intros k. destruct (decide (i = k)) as [<-|Hne].
        -- rewrite lookup_insert_eq, Hx, Hlook, Hi. reflexivity.
        -- rewrite lookup_insert_ne by exact Hne. apply Hlook.
      * intros k. rewrite Hin. split.
        -- intros (a & Ha & Hia). exists a. split; [|exact Hia].
           rewrite lookup_insert_ne; [exact Ha|]. intros <-. congruence.
        -- intros (a & Ha & Hia). destruct (decide (i = k)) as [<-|Hne].
           ++ rewrite lookup_insert_eq in Ha. congruence.
           ++ exists a. rewrite lookup_insert_ne in Ha by exact Hne. auto.
      * exact Hnd.
      * intros Hall. apply Hnone. intros k a Ha.
        apply (Hall k a). rewrite lookup_insert_ne; [exact Ha|]. intros <-. congruence.
Qed.

(** X14: one run of the idle sweep keeps exactly the agents that are not
    inactive, each under its key and unchanged, and disposes exactly the
    inactive ones, each once.  An agent is inactive when its last
    interaction is more than 28 800 000 ms (eight hours) old; one that is
    exactly eight hours old is kept. *)
Theorem idle_sweep_removes_exactly_the_inactive
    (now : Z) (aiAgentCache : gmap string Agent) :
  let out := sweep now aiAgentCache in
  (forall k a, out.1 !! k = Some a <->
               aiAgentCache !! k = Some a /\ inactive now a = false)
  /\ (forall k, k ∈ out.2 <->
                exists a, aiAgentCache !! k = Some a /\ inactive now a = true)
  /\ NoDup out.2
  /\ (forall a, inactive now a = true <->
                (getLastInteraction a + 28800000 < now)%Z).
Proof.
  cbv zeta. destruct (sweep_fold now aiAgentCache aiAgentCache)
    as (Hlook & Hin & Hnd & _).
  split; [|split; [|split]].
  - intros k a. unfold Server.sweep. rewrite Hlook.
    destruct (aiAgentCache !! k) as [b|]; [|split; [discriminate|intros [[=] _]]].
    destruct (inactive now b) eqn:Hb.
    + split; [discriminate|]. intros [[= ->] H]. congruence.
    + split; [intros [= ->]; auto | intros [H _]; exact H].
  - exact Hin.
  - exact Hnd.
  - intros a. unfold Server.inactive, inactivityThreshold.
    rewrite Z.ltb_lt. lia.
Qed.

(** X15: a sweep changes nothing and disposes nothing exactly when no agent
    of the cache is inactive; in particular a second sweep at the same time
    finds nothing left to dispose. *)
Theorem idle_sweep_is_idempotent (now : Z) (aiAgentCache : gmap string Agent) :
  (sweep now aiAgentCache = (aiAgentCache, []) <->
   forall k a, aiAgentCache !! k = Some a -> inactive now a = false)
  /\ sweep now (sweep now aiAgentCache).1 = ((sweep now aiAgentCache).1, []).
Proof.
  assert (Hnoop : forall c : gmap string Agent,
            (forall k a, c !! k = Some a -> inactive now a = false) ->
            sweep now c = (c, [])).
  { intros c Hall. destruct (sweep_fold now c c) as (_ & _ & _ & Hnone).
    exact (Hnone Hall). }
  split; [split; [|apply Hnoop]|].
  - intros Heq k a Ha.
    destruct (sweep_fold now aiAgentCache aiAgentCache) as (_ & Hin & _ & _).
    destruct (inactive now a) eqn:Hia; [|reflexivity].
    assert (Hk : k ∈ (sweep now aiAgentCache).2) by (apply Hin; eauto).
    rewrite Heq in Hk. inversion Hk.
  - apply Hnoop. intros k a Ha.
    destruct (sweep_fold now aiAgentCache aiAgentCache) as (Hlook & _ & _ & _).
    unfold Server.sweep in Ha. rewrite Hlook in Ha.
    destruct (aiAgentCache !! k) as [b|]; [|discriminate].
    destruct (inactive now b) eqn:Hb; [discriminate|]. congruence.
Qed.

Variable disposeAiAgent : Agent -> JS.Outcome.

Local Abbreviation stop_request := (Server.stop_request Agent disposeAiAgent).

Local Abbreviation stop_handler := (Server.stop_handler Agent disposeAiAgent).

(** X16: a stop request, whatever its body, touches no entry of the cache
    but the one under the key of its channel id.  When it answers 200 the
    channel id was a string and no agent is left under its key.  It answers
    500 exactly when the body has no channel id that is a string, or there
    is an agent under the key whose disposal fails; in both cases the cache
    is left as it was, and in the first no agent is disposed.  It answers
    nothing but 200 and 500; for a string channel id and disposals that
    resolve it does what [stop_ai_agent] does. *)
Theorem stop_handler_outcomes
    (channel_id : option string) (aiAgentCache : gmap string Agent) :
  let out := stop_handler channel_id aiAgentCache in
  (forall k, (forall c, channel_id = Some c -> k <> lookup_user_id c) ->
             out.1.1 !! k = aiAgentCache !! k)
  /\ (out.2 = status_200 ->
      exists c, channel_id = Some c /\ out.1.1 !! lookup_user_id c = None)
  /\ (out.2 = status_500 <->
      channel_id = None
      \/ exists c a, channel_id = Some c
                     /\ aiAgentCache !! lookup_user_id c = Some a
                     /\ disposeAiAgent a = JS.rejected)
  /\ (out.2 = status_500 -> out.1.1 = aiAgentCache)
  /\ (channel_id = None -> out = (aiAgentCache, None, status_500))
  /\ (out.2 = status_200 \/ out.2 = status_500)
  /\ ((forall a, disposeAiAgent a = JS.resolved) ->
      forall c, channel_id = Some c ->
                out = stop_ai_agent Agent c aiAgentCache).
Proof.
  cbv zeta. destruct channel_id as [c|]; cbn [Server.stop_handler].
  - unfold Server.stop_request, stop_ai_agent.
    destruct (aiAgentCache !! lookup_user_id c) as [a|] eqn:Hk.
    + destruct (disposeAiAgent a) eqn:Hd; cbn [fst snd].
      * split; [intros k Hne; apply lookup_delete_ne; intros E;
                exact (Hne c eq_refl (eq_sym E))|].
        split; [intros _; exists c; split; [reflexivity | apply lookup_delete_eq]|].
        split; [split; [discriminate|]|].
        { intros [[=]|(c' & b & [= <-] & Hb & Hr)]. congruence. }
        split; [discriminate|]. split; [discriminate|]. split; [left; reflexivity|].
        intros _ c' [= <-]. rewrite Hk. reflexivity.
      * split; [reflexivity|]. split; [discriminate|].
        split; [split; [intros _; right; exists c, a; auto | reflexivity]|].
        split; [reflexivity|]. split; [discriminate|]. split; [right; reflexivity|].
        intros Hall. rewrite Hall in Hd. discriminate.
    + cbn [fst snd].
      split; [reflexivity|].
      split; [intros _; exists c; split; [reflexivity | exact Hk]|].
      split; [split; [discriminate|]|].
      { intros [[=]|(c' & b & [= <-] & Hb & _)]. congruence. }
      split; [discriminate|]. split; [discriminate|]. split; [left; reflexivity|].
      intros _ c' [= <-]. rewrite Hk. reflexivity.
  - cbn [fst snd].
    split; [reflexivity|]. split; [discriminate|].
    split; [split; [intros _; left; reflexivity | reflexivity]|].
    split; [reflexivity|]. split; [reflexivity|]. split; [right; reflexivity|].
    intros _ c [=].
Qed.

End IdleSweep.

Section StartAndStop.
Import Server.
Import JS (Outcome, resolved, rejected).

Lemma includes_app c s t :
  JS.includes c (s ++ t)%string = (JS.includes c s || JS.includes c t)%bool.
Proof.
  induction s as [|d s IH]; [reflexivity|].
  change (JS.includes c (String d (s ++ t)%string)
          = (JS.includes c (String d s) || JS.includes c t)%bool).
  simpl. destruct (Ascii.eqb d c); [reflexivity | exact IH].
Qed.

Lemma split_no_separator c s : JS.includes c s = false -> JS.split c s = [s].
Proof.
  induction s as [|d s IH]; [reflexivity|]. simpl.
  destruct (Ascii.eqb d c); [discriminate|]. intros H. rewrite (IH H). reflexivity.
Qed.

Lemma split_at_separator c t s :
  JS.includes c t = false ->
  JS.split c (t ++ String c s)%string = t :: JS.split c s.
Proof.
  induction t as [|d t IH].
  - intros _. change (JS.split c (String c s) = EmptyString :: JS.split c s).
    simpl. rewrite Ascii.eqb_refl. reflexivity.
  - change (JS.includes c (String d t) = false ->
            JS.split c (String d (t ++ String c s)%string)
              = String d t :: JS.split c s).
    simpl. destruct (Ascii.eqb d c); [discriminate|].
    intros H. rewrite (IH H). reflexivity.
Qed.

Lemma start_key_of_bare_id c :
  JS.includes ":" c = false -> start_user_id c = lookup_user_id c.
Proof. intros H. unfold start_user_id, lookup_user_id. rewrite H. reflexivity. Qed.

Lemma start_key_of_cid t c :
  JS.includes ":" t = false -> JS.includes ":" c = false ->
  start_user_id (t ++ String ":" c) = lookup_user_id c.
Proof.
  intros Ht Hc. unfold start_user_id, lookup_user_id.
  rewrite includes_app. simpl. rewrite orb_true_r.
  rewrite split_at_separator, split_no_separator by assumption. reflexivity.
Qed.

(** X17: a start request given a bare channel id, or a full one such as
    [messaging:demo], whose type and id hold no colon, keys the registry as
    the stop, switch-model and active-model endpoints do for the bare id.
    That key ignores exclamation marks: two channel ids lead to the same
    registry entry exactly when they are equal once their exclamation marks
    are removed. *)
Theorem start_and_lookup_keys_agree_on_bare_ids (t c c' : string) :
  JS.includes ":" t = false ->
  JS.includes ":" c = false ->
  start_user_id c = lookup_user_id c
  /\ start_user_id (t ++ String ":" c) = lookup_user_id c
  /\ (lookup_user_id c = lookup_user_id c' <->
      JS.remove_all "!" c = JS.remove_all "!" c').
Proof.
  intros Ht Hc. split; [apply start_key_of_bare_id, Hc|].
  split; [apply start_key_of_cid; assumption|].
  unfold lookup_user_id. split; [apply append_inj_r | intros ->; reflexivity].
Qed.

Lemma start_and_lookup_keys_witness :
  JS.includes ":" "messaging" = false
  /\ JS.includes ":" "demo!channel" = false
  /\ start_user_id "messaging:demo!channel" = "ai-bot-demochannel"%string
  /\ lookup_user_id "demo!channel" = lookup_user_id "demochannel".
Proof.
  destruct (start_and_lookup_keys_agree_on_bare_ids
              "messaging" "demo!channel" "demochannel" eq_refl eq_refl)
    as (_ & Hcid & Hiff).
  split; [reflexivity|]. split; [reflexivity|].
  split; [exact Hcid | apply Hiff; reflexivity].
Defined.

Lemma run_lone sched p :
  run (map (pair 0) sched) (lone p) = lone (foldl step_pair p sched).
Proof.
  revert p. induction sched as [|o sched IH]; intros p; [reflexivity|].
  cbn [map foldl]. rewrite <- IH. unfold run. cbn [foldl]. f_equal.
  unfold step, lone, step_pair. simpl.
  destruct (step_request 0 o p.1 p.2). reflexivity.
Qed.

Lemma pending_cleared (k : string) : (∅ ∪ {[k]}) ∖ {[k]} = (∅ : gset string).
Proof.
  apply set_eq. intros x.
  rewrite elem_of_difference, elem_of_union, elem_of_singleton.
  split; [tauto|]. intros H. exfalso. exact (not_elem_of_empty x H).
Qed.

Local Opaque start_user_id.

Lemma lone_start_begins (cache0 : gmap string nat) (c : string) :
  c <> EmptyString ->
  cache0 !! start_user_id c = None ->
  (forall P, cache_has (start_user_id c)
               {| aiAgentCache := running <$> cache0; pendingAiAgents := P |} = false)
  /\ step_pair (incoming c,
                {| aiAgentCache := running <$> cache0; pendingAiAgents := ∅ |}) resolved
     = (at_pc await_upsertUser (incoming c),
        {| aiAgentCache := running <$> cache0;
           pendingAiAgents := ∅ ∪ {[start_user_id c]} |}).
Proof.
  intros Hc Hk.
  assert (Hhas : forall P, cache_has (start_user_id c)
                   {| aiAgentCache := running <$> cache0; pendingAiAgents := P |}
                 = false).
  { intros P. unfold cache_has. cbn [aiAgentCache]. rewrite lookup_fmap, Hk.
    apply bool_decide_eq_false_2. intros [? [=]]. }
  split; [exact Hhas|].
  unfold step_pair, step_request. cbn [pc incoming channel_id fst snd].
  rewrite (truthy_nonempty _ Hc), Hhas. cbn [negb andb].
  unfold pending_has. cbn [pendingAiAgents].
  rewrite bool_decide_eq_false_2 by (apply not_elem_of_empty).
  reflexivity.
Qed.

Ltac lone_start_run Hhas :=
  cbv beta iota zeta delta
    [step_pair step_request leave at_pc fst snd pc channel_id created disposed
     incoming aiAgentCache pendingAiAgents];
  rewrite ?Hhas;
  unfold lone;
  cbn [registry requests fst snd fmap list_fmap pc aiAgentCache pendingAiAgents];
  rewrite ?pending_cleared.

Lemma lone_start_resolved (cache0 : gmap string nat) (c : string) :
  c <> EmptyString ->
  cache0 !! start_user_id c = None ->
  aiAgentCache (registry
    (run [(0, resolved); (0, resolved); (0, resolved); (0, resolved);
          (0, resolved); (0, resolved)] (start_requests cache0 [c])))
    = <[start_user_id c := created_by 0]> (running <$> cache0).
Proof.
  intros Hc Hk. destruct (lone_start_begins cache0 c Hc Hk) as [Hhas H0].
  change (start_requests cache0 [c]) with
    (lone (incoming c, {| aiAgentCache := running <$> cache0; pendingAiAgents := ∅ |})).
  change [(0, resolved); (0, resolved); (0, resolved); (0, resolved);
          (0, resolved); (0, resolved)]
    with (map (pair 0) [resolved; resolved; resolved; resolved; resolved; resolved]).
  rewrite run_lone. cbn [foldl]. rewrite H0.
  lone_start_run Hhas. reflexivity.
Qed.

(** X18: a start request running alone for a conversation that has no agent
    yet either installs its agent and answers 200, when creating the bot
    user, watching the channel, creating the agent and initialising it all
    succeed, or answers 500 and leaves the cache exactly as it was.  Whether
    adding the bot to the channel succeeds makes no difference.  Either way
    the key is no longer pending afterwards, so a failed start can be
    retried. *)
Theorem lone_start_installs_or_leaves_no_trace
    (cache0 : gmap string nat) (c : string)
    (upsertUser addMembers watch createAgent init : Outcome) :
  c <> EmptyString ->
  cache0 !! start_user_id c = None ->
  let s := run [(0, resolved); (0, upsertUser); (0, addMembers); (0, watch);
                (0, createAgent); (0, init)]
               (start_requests cache0 [c]) in
  let ok := match upsertUser, watch, createAgent, init with
            | resolved, resolved, resolved, resolved => true
            | _, _, _, _ => false
            end in
  pendingAiAgents (registry s) = ∅
  /\ pc <$> requests s = [finished (if ok then status_200 else status_500)]
  /\ aiAgentCache (registry s)
       = if ok then <[start_user_id c := created_by 0]> (running <$> cache0)
         else running <$> cache0.
Proof.
  intros Hc Hk s ok. subst s ok.
  destruct (lone_start_begins cache0 c Hc Hk) as [Hhas H0].
  change (start_requests cache0 [c]) with
    (lone (incoming c, {| aiAgentCache := running <$> cache0; pendingAiAgents := ∅ |})).
  change [(0, resolved); (0, upsertUser); (0, addMembers); (0, watch);
          (0, createAgent); (0, init)]
    with (map (pair 0) [resolved; upsertUser; addMembers; watch; createAgent; init]).
  rewrite run_lone. cbn [foldl]. rewrite H0.
  destruct upsertUser, addMembers, watch, createAgent, init;
    lone_start_run Hhas; repeat split.
Qed.

Local Transparent start_user_id.

Lemma lone_start_witness :
  let s := run [(0, resolved); (0, resolved); (0, rejected); (0, resolved);
                (0, resolved); (0, rejected)]
               (start_requests ∅ ["demo-channel"%string]) in
  aiAgentCache (registry s) = ∅
  /\ pendingAiAgents (registry s) = ∅
  /\ pc <$> requests s = [finished status_500].
Proof.
  destruct (lone_start_installs_or_leaves_no_trace ∅ "demo-channel"
              resolved rejected resolved resolved rejected
              ltac:(discriminate) eq_refl) as (Hpending & Hpc & Hcache).
  cbv zeta. split; [|split]; [exact Hcache | exact Hpending | exact Hpc].
Defined.

(** X19: a conversation without an agent is started alone, by its bare
    channel id or by its full id [type:id], every awaited call resolving,
    and then stopped by its bare channel id: the agent the start installed
    is the one disposed, the stop answers 200, and the cache is again what
    it was before the start. *)
Theorem start_then_stop_restores_the_cache
    (disposeAiAgent : Instance -> Outcome)
    (cache0 : gmap string nat) (t c start_id : string) :
  c <> EmptyString ->
  JS.includes ":" t = false ->
  JS.includes ":" c = false ->
  start_id = c \/ start_id = (t ++ String ":" c)%string ->
  cache0 !! lookup_user_id c = None ->
  disposeAiAgent (created_by 0) = resolved ->
  let s := run [(0, resolved); (0, resolved); (0, resolved); (0, resolved);
                (0, resolved); (0, resolved)] (start_requests cache0 [start_id]) in
  aiAgentCache (registry s) !! lookup_user_id c = Some (created_by 0)
  /\ stop_request Instance disposeAiAgent c (aiAgentCache (registry s))
       = (running <$> cache0, Some (created_by 0), status_200).
Proof.
  intros Hc Ht Hcolon Hid Hk Hd s.
  assert (Hkey : start_user_id start_id = lookup_user_id c).
  { destruct Hid as [->| ->];
      [apply start_key_of_bare_id | apply start_key_of_cid]; assumption. }
  assert (Hne : start_id <> EmptyString).
  { destruct Hid as [->| ->]; [exact Hc|]. destruct t; discriminate. }
  assert (Hcache : aiAgentCache (registry s)
                   = <[lookup_user_id c := created_by 0]> (running <$> cache0)).
  { subst s. rewrite <- Hkey. apply lone_start_resolved; [exact Hne|].
    rewrite Hkey. exact Hk. }
  rewrite Hcache. split; [apply lookup_insert_eq|].
  unfold stop_request. rewrite lookup_insert_eq, Hd.
  rewrite delete_insert_id; [reflexivity|]. rewrite lookup_fmap, Hk. reflexivity.
Qed.

Lemma start_then_stop_witness :
  let s := run [(0, resolved); (0, resolved); (0, resolved); (0, resolved);
                (0, resolved); (0, resolved)]
               (start_requests ∅ ["messaging:demo-channel"%string]) in
  aiAgentCache (registry s) !! "ai-bot-demo-channel"%string = Some (created_by 0)
  /\ stop_request Instance (fun _ => resolved) "demo-channel" (aiAgentCache (registry s))
       = (∅, Some (created_by 0), status_200).
Proof.
  destruct (start_then_stop_restores_the_cache (fun _ => resolved) ∅
              "messaging" "demo-channel" "messaging:demo-channel"
              ltac:(discriminate) eq_refl eq_refl (or_intror eq_refl) eq_refl eq_refl)
    as [Hin Hstop].
  cbv zeta. split; [exact Hin | exact Hstop].
Defined.

End StartAndStop.

Section StartedAgents.
Import Inbound MultiModelAgent Server.
Import JS (Outcome, resolved, rejected).

Variable agent_init : AIAgent -> Outcome.
Variable defines_handleMessage : AIAgent -> bool.

(** X20: what [/active-model] and [/switch-model] answer for the agent a
    start request creates and initialises.  With [USE_MULTI_MODEL] equal to
    [true] the agent is a router: the active model reported is the platform
    of the start request exactly as given, a name the router has no
    provider for included, the available models are the three platforms,
    and a switch request with a non-empty platform is answered 200.
    Otherwise the agent is a single provider: [openai] and [llama] give
    theirs and any other platform name gives [anthropic], that provider is
    the only available model, and a switch request is answered 400. *)
Theorem endpoints_on_a_started_agent
    (env : Env) (platform : option string) (now : nat)
    (channel_id q : string) (aiAgentCache : gmap string AIAgentObject) :
  let p := start_platform platform in
  let aiAgent := (init_agent agent_init (createAgent env p now)).1 in
  let multi := match USE_MULTI_MODEL env with
               | Some v => String.eqb v "true"
               | None => false
               end in
  let single := if String.eqb p OPENAI then OPENAI
                else if String.eqb p LLAMA then LLAMA else ANTHROPIC in
  active_model_body aiAgent
    = (if multi then (p, [ANTHROPIC; OPENAI; LLAMA]) else (single, [single]))
  /\ (channel_id <> EmptyString -> q <> EmptyString ->
      aiAgentCache !! lookup_user_id channel_id = Some aiAgent ->
      switch_model AIAgentObject instanceof_MultiModelAgent channel_id q aiAgentCache
        = if multi then (status_200, Some (Chat.custom_model_switch q))
          else (status_400, None)).
Proof.
  cbv zeta. unfold createAgent.
  destruct (match USE_MULTI_MODEL env with
            | Some v => String.eqb v "true"
            | None => false
            end).
  - unfold init_agent.
    pose proof (init_create agent_init (start_platform platform) now) as (Ha & Hp & _).
    destruct (MultiModelAgent.init agent_init
                (MultiModelAgent.create (start_platform platform) now)) as [r o].
    cbn [fst] in *. split.
    + unfold active_model_body, getActiveModel, getAvailableModels.
      rewrite Ha, Hp. reflexivity.
    + intros Hc Hq Hk. unfold switch_model.
      rewrite (truthy_nonempty _ Hc), (truthy_nonempty _ Hq), Hk. reflexivity.
  - split.
    + destruct (String.eqb (start_platform platform) OPENAI); [reflexivity|].
      destruct (String.eqb (start_platform platform) LLAMA); reflexivity.
    + intros Hc Hq Hk. unfold switch_model.
      rewrite (truthy_nonempty _ Hc), (truthy_nonempty _ Hq), Hk.
      destruct (String.eqb (start_platform platform) OPENAI); [reflexivity|].
      destruct (String.eqb (start_platform platform) LLAMA); reflexivity.
Qed.

(** X21: every model [/available-models] lists, whether it is reported
    available or not, is one an initialised router switches to on request,
    confirming the switch: the availability flags come from the environment
    alone and do not restrain the router. *)
Theorem every_listed_model_can_be_switched_to
    (env : Env) (m : ModelInfo) (p : AgentPlatform) (now0 : nat)
    (evs : list (string * nat * Event)) :
  In m (available_models env) ->
  let r := (deliver_all defines_handleMessage evs
              (MultiModelAgent.init agent_init (MultiModelAgent.create p now0)).1).1 in
  handleModelSwitch (model_switch (Server.id m)) r
    = (set_active (Server.id m) r,
       [channel_sendEvent (Chat.custom_model_switched (Server.id m))])
  /\ In (Server.id m) (getAvailableModels r).
Proof.
  intros Hm r.
  pose proof (initialised_agents defines_handleMessage agent_init p now0 evs) as Hk.
  fold r in Hk. unfold getAvailableModels. rewrite (switch_on_three _ r Hk), Hk.
  destruct Hm as [<-|[<-|[<-|[]]]]; simpl; auto.
Qed.

(** X22: a switch request for a non-empty platform name that is none of the
    three is still answered 200 by [/switch-model]; the router leaves its
    selector alone and broadcasts a switch error naming the platform; and
    that error, when it reaches the router's own switch-error listener, makes
    the router fall back: from [anthropic] to [openai], from anything else to
    [anthropic]. *)
Theorem unknown_platform_switch_ends_in_a_fallback
    (channel_id q : string) (aiAgentCache : gmap string AIAgentObject)
    (p : AgentPlatform) (now0 : nat) (evs : list (string * nat * Event)) :
  channel_id <> EmptyString ->
  q <> EmptyString ->
  existsb (String.eqb q) [ANTHROPIC; OPENAI; LLAMA] = false ->
  let r := (deliver_all defines_handleMessage evs
              (MultiModelAgent.init agent_init (MultiModelAgent.create p now0)).1).1 in
  aiAgentCache !! lookup_user_id channel_id = Some (multi_model r) ->
  let refusal := ("AI model " ++ q ++ " is not available")%string in
  switch_model AIAgentObject instanceof_MultiModelAgent channel_id q aiAgentCache
    = (status_200, Some (Chat.custom_model_switch q))
  /\ handleModelSwitch (model_switch q) r
       = (r, [channel_sendEvent (Chat.custom_model_switch_error refusal)])
  /\ handleModelSwitchError (model_switch_error refusal) r
       = (set_active (other_of_first_two (activeAgent r)) r,
          [channel_sendEvent
             (Chat.custom_model_switched (other_of_first_two (activeAgent r)))]).
Proof.
  intros Hc Hq Hnot r Hk refusal.
  pose proof (initialised_agents defines_handleMessage agent_init p now0 evs) as Ha.
  fold r in Ha. split; [|split].
  - unfold switch_model.
    rewrite (truthy_nonempty _ Hc), (truthy_nonempty _ Hq), Hk. reflexivity.
  - rewrite (switch_on_three _ r Ha), Hnot, (truthy_nonempty _ Hq). reflexivity.
  - apply fallback_on_three; [exact Ha | reflexivity].
Qed.

End StartedAgents.

Section FailedStop.
Import Inbound MultiModelAgent Server.
Import JS (Outcome, resolved, rejected).

Variable defines_handleMessage : AIAgent -> bool.
Variable agent_dispose_outcome : AIAgent -> Outcome.
Variable disconnect_outcome : Outcome.
Variable removeMembers_outcome : Outcome.

(** X23: a stop request for a conversation served by a router answers 500
    as soon as one provider's disposal, the disconnection of the client or
    the removal of the bot from the channel fails, and the router then stays
    in the cache under its key.  That router has already lost its listeners:
    it ignores every event from then on, while [/active-model] keeps
    answering for it; when only the disconnection or the removal failed its
    provider map is empty as well, so that it reports no available model. *)
Theorem failed_stop_leaves_a_deaf_router_registered
    (channel_id : string) (aiAgentCache : gmap string AIAgentObject)
    (r : MultiModelAgent.t) :
  channel_id <> EmptyString ->
  aiAgentCache !! lookup_user_id channel_id = Some (multi_model r) ->
  let out := stop_started agent_dispose_outcome disconnect_outcome
               removeMembers_outcome channel_id aiAgentCache in
  let providers_disposed := all_disposed agent_dispose_outcome (map snd (agents r)) in
  out.2 = (if providers_disposed
           then match disconnect_outcome, removeMembers_outcome with
                | resolved, resolved => status_200
                | _, _ => status_500
                end
           else status_500)
  /\ (out.2 = status_200 -> out.1 = delete (lookup_user_id channel_id) aiAgentCache)
  /\ (out.2 = status_500 ->
      exists r',
        out.1 = <[lookup_user_id channel_id := multi_model r']> aiAgentCache
        /\ (forall evs, deliver_all defines_handleMessage evs r' = (r', []))
        /\ active_model AIAgentObject channel_id out.1
             = (status_200, Some (multi_model r'))
        /\ active_model_body (multi_model r')
             = (activeAgent r, if providers_disposed then [] else map_keys (agents r))).
Proof.
  intros Hc Hk out providers_disposed. subst out providers_disposed.
  unfold stop_started, disposeAiAgent, dispose_agent. rewrite Hk.
  pose proof (fun evs => deliver_all_unregistered defines_handleMessage evs
                (dispose agent_dispose_outcome disconnect_outcome r).1.1
                (dispose_unregisters agent_dispose_outcome disconnect_outcome r))
    as Hdeaf.
  assert (Hact : forall r' : MultiModelAgent.t,
            active_model AIAgentObject channel_id
              (<[lookup_user_id channel_id := multi_model r']> aiAgentCache)
            = (status_200, Some (multi_model r'))).
  { intros r'. unfold active_model.
    rewrite (truthy_nonempty _ Hc), lookup_insert_eq. reflexivity. }
  unfold dispose in *.
  destruct (all_disposed agent_dispose_outcome (map snd (agents r))).
  - destruct disconnect_outcome, removeMembers_outcome; cbn [fst snd] in *;
      (split; [reflexivity|]); (split; [intros; try reflexivity; discriminate|]);
      intros H; try discriminate H;
      (eexists; split; [reflexivity|]; split; [exact Hdeaf|];
       split; [apply Hact | reflexivity]).
  - cbn [fst snd] in *. split; [reflexivity|]. split; [discriminate|].
    intros _. eexists. split; [reflexivity|]. split; [exact Hdeaf|].
    split; [apply Hact | reflexivity].
Qed.

End FailedStop.

Section FailedStopWitness.
Import Inbound MultiModelAgent Server.
Import JS (Outcome, resolved, rejected).

(** The providers are disposed and the client disconnected, but removing the
    bot from the channel fails: the stop answers 500 and the cache keeps a
    router without providers that no longer hears [message.new]. *)
Lemma failed_stop_witness :
  let r := (MultiModelAgent.init (fun _ => resolved)
              (MultiModelAgent.create ANTHROPIC 0)).1 in
  let cache : gmap string AIAgentObject := {[ "ai-bot-demo"%string := multi_model r ]} in
  let out := stop_started (fun _ => resolved) resolved rejected "demo" cache in
  let hello := message_new {| text := Some "hello"; user := Some {| Inbound.id := "alice" |};
                              ai_generated := false; parent_id := None |} in
  cache !! lookup_user_id "demo" = Some (multi_model r)
  /\ out.2 = status_500
  /\ exists r',
       out.1 !! "ai-bot-demo"%string = Some (multi_model r')
       /\ deliver_all (fun _ => true) [("message.new", 1, hello)] r' = (r', [])
       /\ active_model_body (multi_model r') = (ANTHROPIC, []).
Proof.
  intros r cache out hello.
  destruct (failed_stop_leaves_a_deaf_router_registered (fun _ => true)
              (fun _ => resolved) resolved rejected "demo" cache r
              ltac:(discriminate) eq_refl) as (Hstatus & _ & Hkept).
  split; [reflexivity|]. split; [exact Hstatus|].
  destruct (Hkept Hstatus) as (r' & Hout & Hdeaf & _ & Hbody).
  exists r'. split; [|split; [apply Hdeaf | exact Hbody]].
  fold out in Hout. rewrite Hout. apply lookup_insert_eq.
Defined.

End FailedStopWitness.

Section StartedAgentsWitnesses.
Import Inbound MultiModelAgent Server.
Import JS (Outcome, resolved, rejected).

(** With no API key and no Llama endpoint in the environment, [openai] is
    listed as unavailable, and the router still switches to it. *)
Lemma every_listed_model_witness :
  let env := {| ANTHROPIC_API_KEY := None; OPENAI_API_KEY := None;
                llama_env := {| LlamaAgent.LLAMA_API_ENDPOINT := None;
                                LlamaAgent.LLAMA_MODEL_NAME := None |};
                USE_MULTI_MODEL := Some "true" |} in
  let m := {| Server.id := OPENAI; name := "GPT";
              description := "OpenAI's GPT model with function calling capabilities";
              iconUrl := Some "/model-icons/openai.png"; available := false |} in
  let r := (MultiModelAgent.init (fun _ => resolved)
              (MultiModelAgent.create ANTHROPIC 0)).1 in
  In m (available_models env)
  /\ handleModelSwitch (model_switch OPENAI) r
       = (set_active OPENAI r, [channel_sendEvent (Chat.custom_model_switched OPENAI)]).
Proof.
  intros env m r.
  assert (Hin : In m (available_models env)) by (right; left; reflexivity).
  split; [exact Hin|].
  destruct (every_listed_model_can_be_switched_to (fun _ => resolved) (fun _ => true)
              env m ANTHROPIC 0 [] Hin) as [Hswitch _].
  exact Hswitch.
Defined.

(** A switch to [gemini] on a router whose active provider is [anthropic]:
    the endpoint answers 200 and the router ends up on [openai]. *)
Lemma unknown_platform_switch_witness :
  let r := (MultiModelAgent.init (fun _ => resolved)
              (MultiModelAgent.create ANTHROPIC 0)).1 in
  let cache : gmap string AIAgentObject := {[ "ai-bot-demo"%string := multi_model r ]} in
  switch_model AIAgentObject instanceof_MultiModelAgent "demo" "gemini" cache
    = (status_200, Some (Chat.custom_model_switch "gemini"))
  /\ handleModelSwitch (model_switch "gemini") r
       = (r, [channel_sendEvent
                (Chat.custom_model_switch_error "AI model gemini is not available")])
  /\ activeAgent
       (handleModelSwitchError
          (model_switch_error "AI model gemini is not available") r).1 = OPENAI.
Proof.
  intros r cache.
  destruct (unknown_platform_switch_ends_in_a_fallback (fun _ => resolved)
              (fun _ => true) "demo" "gemini" cache ANTHROPIC 0 []
              ltac:(discriminate) ltac:(discriminate) eq_refl eq_refl)
    as (Hhttp & Hrefused & Hfallback).
  split; [exact Hhttp|]. split; [exact Hrefused|].
  change (handleModelSwitchError
            (model_switch_error "AI model gemini is not available") r)
    with (handleModelSwitchError
            (model_switch_error ("AI model " ++ "gemini" ++ " is not available")%string)
            (deliver_all (fun _ => true) []
               (MultiModelAgent.init (fun _ => resolved)
                  (MultiModelAgent.create ANTHROPIC 0)).1).1).
  rewrite Hfallback. reflexivity.
Defined.

End StartedAgentsWitnesses.

Section RelayStreamWitnesses.
Import Chat AnthropicResponseHandler.

(** A response in two text deltas, with a tool-input delta between them,
    closed by [message_delta]. *)
Lemma finished_stream_witness :
  let evs := [message_start; content_block_start;
              content_block_delta (text_delta "Hel");
              content_block_delta input_json_delta;
              content_block_delta (text_delta "lo");
              content_block_stop] in
  let out := run (evs ++ [message_delta]) exhausted
               (create {| controller_aborted := false |}) initial in
  is_final message_delta = true
  /\ message out.2 = {| text := "Hello"; generating := Some false |}
  /\ last (trace out.2) = Some (sendEvent_call ai_indicator_clear).
Proof.
  intros evs out.
  destruct (finished_stream_commits_all_text evs message_delta
              (create {| controller_aborted := false |}) initial eq_refl)
    as (Hmessage & Hlast & _).
  split; [reflexivity|]. split; [exact Hmessage | exact Hlast].
Defined.

(** The same response without its closing event: the Message shows the
    first fragment only and stays in the generating state. *)
Lemma unfinished_stream_witness :
  let evs := [message_start; content_block_start;
              content_block_delta (text_delta "Hel");
              content_block_delta (text_delta "lo");
              content_block_stop] in
  let out := run evs exhausted (create {| controller_aborted := false |}) initial in
  forallb (fun ev => negb (is_final ev)) evs = true
  /\ message out.2 = {| text := "Hel"; generating := Some true |}
  /\ (In ai_indicator_clear (events out.2) -> False).
Proof.
  intros evs out.
  destruct (unfinished_stream_is_left_generating evs
              {| controller_aborted := false |} eq_refl) as (_ & Hclear & _).
  split; [reflexivity|]. split; [reflexivity | exact Hclear].
Defined.

End RelayStreamWitnesses.
